(** * DCMTable: the discrete choice model table of mixed_logit_dcm

    A shallow embedding of [dcm_table.h] (class [DCMTable]) and the
    properties of its loader [Init], its accessors and the multinomial-logit
    choice probabilities.

    Modelling conventions.
    - A C++ [int] is a [Z]; an addition or a conversion whose result leaves
      the 32-bit range is undefined behaviour and is reported as
      [Undefined].  Sizes of vectors and tables, loop counters and the
      per-choice counts (all bounded by a size) are taken to fit.
    - A [double] is an exact rational [Q] in the first embedding: every
      finite double is a dyadic rational.  Rounding, infinities and NaN are
      outside that embedding, and a property that rests on it says "in
      exact arithmetic".  [Binary64] is the class once more on the binary64
      numbers themselves; the code is run there where rounding, overflow
      or NaN decide.  [exp] of the C library is a parameter in both.
    - [std::vector<int>] is a [list Z], indexed with stdpp's lookup and
      updated with stdpp's insert; an index outside the vector is undefined
      behaviour and is reported as [Undefined].
    - A [TableType *] member is the contents of the table it points to.
      [Init] stores the three pointers it receives, which are three
      different tables, so the member and the caller's table are one
      object and an update of the member is the update in place.  The one
      loop that writes a table is also given on a memory of tables
      ([subtract_ones_at]), where the address is explicit.
    - A call that ends the process ([exit]) is the outcome [Exit]; an
      exception of the matrix library is the outcome [Thrown]. *)

From Stdlib Require Import ZArith QArith Qround Qpower Lqa String Ascii.
From Stdlib Require Import Floats.
From stdpp Require Import base list.

Local Open Scope Z_scope.

(** ** Outcomes of a call *)

Inductive Outcome (A : Type) : Type :=
  | Ok (a : A)
  | Exit (status : Z) (cerr : string)
  | Thrown (what : string)
  | Undefined.
Arguments Ok {A} a.
Arguments Exit {A} status cerr.
Arguments Thrown {A} what.
Arguments Undefined {A}.

Definition bind {A B} (m : Outcome A) (k : A -> Outcome B) : Outcome B :=
  match m with
  | Ok a => k a
  | Exit s e => Exit s e
  | Thrown w => Thrown w
  | Undefined => Undefined
  end.

Notation "x <- m ;; k" := (bind m (fun x => k))
  (at level 100, m at next level, right associativity).

(** [for (i = lo; i < lo + count; i++) s = body(i, s)] *)
Fixpoint for_loop {St : Type} (lo count : nat)
    (body : nat -> St -> Outcome St) (s : St) : Outcome St :=
  match count with
  | O => Ok s
  | S count' => s' <- body lo s ;; for_loop (S lo) count' body s'
  end.

(** ** C++ scalars *)

Definition INT_MIN : Z := - 2 ^ 31.
Definition INT_MAX : Z := 2 ^ 31 - 1.

Definition in_int (z : Z) : bool := (INT_MIN <=? z) && (z <=? INT_MAX).

(** [a + b] on two [int]s. *)
Definition int_add (a b : Z) : Outcome Z :=
  if in_int (a + b) then Ok (a + b) else Undefined.

(** The integer part of a rational, rounding toward zero. *)
Definition trunc (x : Q) : Z := Z.quot (Qnum x) (Zpos (Qden x)).

(** [static_cast<int>(x)] on a [double]: truncation toward zero. *)
Definition static_cast_int (x : Q) : Outcome Z :=
  if in_int (trunc x) then Ok (trunc x) else Undefined.

(** [std::numeric_limits<double>::max()] *)
Definition DBL_MAX : Q := inject_Z (2 ^ 1024 - 2 ^ 971).

(** [std::max(a, b)] on doubles: [(a < b) ? b : a]. *)
Definition std_max (a b : Q) : Q :=
  match Qcompare a b with Lt => b | _ => a end.

(** [v[i]] on a vector, with an [int] (or converted unsigned) index. *)
Definition at_ {A} (v : list A) (i : Z) : Outcome A :=
  if i <? 0 then Undefined
  else match v !! Z.to_nat i with
       | Some x => Ok x
       | None => Undefined
       end.

(** ** Collaborators *)

(** [arma::vec] *)
Abbreviation vec := (list Q).

(** Modelled from the spec: [core/table/table.h] is not part of the sources.
    A table is column-oriented: entry [i] is one point (an [arma::vec] that
    aliases the table's storage), [n_entries] is the number of points and
    [get] at a position outside the table is undefined behaviour. *)
Abbreviation Table := (list vec).

(** Modelled from the spec: [t->n_entries()], the number of points. *)
Definition n_entries (t : Table) : Z := Z.of_nat (length t).

(** Modelled from the spec: [t->get(i, &point)], the point at position
    [i]. *)
Definition get (t : Table) (i : Z) : Outcome vec := at_ t i.

(** Modelled from the spec: [t->data().at(row, col)], the unchecked element
    access of the matrix behind the table; column [col] is point [col]. *)
Definition data_at (t : Table) (row col : Z) : Outcome Q :=
  point <- at_ t col ;; at_ point row.

(** Modelled from the spec: [mlpack/mixed_logit_dcm/distribution.h] is not
    part of the sources.  The distribution is configured by [Init] with the
    attribute dimensions and is only stored by the table. *)
Record Distribution := { dimensions : list Z }.

(** Modelled from the spec: [distribution_.Init(attribute_dimensions)]. *)
Definition Distribution_Init (attribute_dimensions : list Z) : Distribution :=
  {| dimensions := attribute_dimensions |}.

(** ** The table *)

Record DCMTable := {
  distribution_ : Distribution;
  attribute_table_ : Table;
  attribute_dimensions_ : list Z;
  decisions_table_ : Table;
  num_alternatives_table_ : Table;
  cumulative_num_discrete_choices_ : list Z;
  shuffled_indices_for_person_ : list Z;
  num_people_per_discrete_choice_ : list Z
}.

(** ** Accessors *)

Definition num_people_per_discrete_choice (t : DCMTable)
    (discrete_choice_index : Z) : Outcome Z :=
  at_ (num_people_per_discrete_choice_ t) discrete_choice_index.

Definition shuffled_indices_for_person (t : DCMTable) (pos : Z) : Outcome Z :=
  at_ (shuffled_indices_for_person_ t) pos.

Definition num_discrete_choices (t : DCMTable) (person_index : Z) : Outcome Z :=
  x <- data_at (num_alternatives_table_ t) 0 person_index ;;
  static_cast_int x.

Definition total_num_discrete_choices (t : DCMTable) : Z :=
  Z.of_nat (length (num_people_per_discrete_choice_ t)).

Definition get_discrete_choice_index (t : DCMTable) (person_index : Z)
    : Outcome Z :=
  x <- data_at (decisions_table_ t) 0 person_index ;;
  static_cast_int x.

Definition num_people (t : DCMTable) : Z :=
  Z.of_nat (length (cumulative_num_discrete_choices_ t)).

Definition get_attribute_vector (t : DCMTable)
    (person_index discrete_choice_index : Z) : Outcome vec :=
  c <- at_ (cumulative_num_discrete_choices_ t) person_index ;;
  index <- int_add c discrete_choice_index ;;
  get (attribute_table_ t) index.

(** Assignments to single members of [this]. *)
Definition set_tables (attribute_table_in : Table)
    (attribute_dimensions_in : list Z)
    (decisions_table_in num_alternatives_table_in : Table)
    (this : DCMTable) : DCMTable :=
  {| distribution_ := distribution_ this;
     attribute_table_ := attribute_table_in;
     attribute_dimensions_ := attribute_dimensions_in;
     decisions_table_ := decisions_table_in;
     num_alternatives_table_ := num_alternatives_table_in;
     cumulative_num_discrete_choices_ := cumulative_num_discrete_choices_ this;
     shuffled_indices_for_person_ := shuffled_indices_for_person_ this;
     num_people_per_discrete_choice_ := num_people_per_discrete_choice_ this |}.

Definition set_decisions_table (d : Table) (this : DCMTable) : DCMTable :=
  {| distribution_ := distribution_ this;
     attribute_table_ := attribute_table_ this;
     attribute_dimensions_ := attribute_dimensions_ this;
     decisions_table_ := d;
     num_alternatives_table_ := num_alternatives_table_ this;
     cumulative_num_discrete_choices_ := cumulative_num_discrete_choices_ this;
     shuffled_indices_for_person_ := shuffled_indices_for_person_ this;
     num_people_per_discrete_choice_ := num_people_per_discrete_choice_ this |}.

Definition set_distribution (d : Distribution) (this : DCMTable) : DCMTable :=
  {| distribution_ := d;
     attribute_table_ := attribute_table_ this;
     attribute_dimensions_ := attribute_dimensions_ this;
     decisions_table_ := decisions_table_ this;
     num_alternatives_table_ := num_alternatives_table_ this;
     cumulative_num_discrete_choices_ := cumulative_num_discrete_choices_ this;
     shuffled_indices_for_person_ := shuffled_indices_for_person_ this;
     num_people_per_discrete_choice_ := num_people_per_discrete_choice_ this |}.

Definition set_cumulative (c : list Z) (this : DCMTable) : DCMTable :=
  {| distribution_ := distribution_ this;
     attribute_table_ := attribute_table_ this;
     attribute_dimensions_ := attribute_dimensions_ this;
     decisions_table_ := decisions_table_ this;
     num_alternatives_table_ := num_alternatives_table_ this;
     cumulative_num_discrete_choices_ := c;
     shuffled_indices_for_person_ := shuffled_indices_for_person_ this;
     num_people_per_discrete_choice_ := num_people_per_discrete_choice_ this |}.

Definition set_shuffled (s : list Z) (this : DCMTable) : DCMTable :=
  {| distribution_ := distribution_ this;
     attribute_table_ := attribute_table_ this;
     attribute_dimensions_ := attribute_dimensions_ this;
     decisions_table_ := decisions_table_ this;
     num_alternatives_table_ := num_alternatives_table_ this;
     cumulative_num_discrete_choices_ := cumulative_num_discrete_choices_ this;
     shuffled_indices_for_person_ := s;
     num_people_per_discrete_choice_ := num_people_per_discrete_choice_ this |}.

Definition set_per_choice (c : list Z) (this : DCMTable) : DCMTable :=
  {| distribution_ := distribution_ this;
     attribute_table_ := attribute_table_ this;
     attribute_dimensions_ := attribute_dimensions_ this;
     decisions_table_ := decisions_table_ this;
     num_alternatives_table_ := num_alternatives_table_ this;
     cumulative_num_discrete_choices_ := cumulative_num_discrete_choices_ this;
     shuffled_indices_for_person_ := shuffled_indices_for_person_ this;
     num_people_per_discrete_choice_ := c |}.

(** ** Standard-library algorithms used by [Init] *)

(** [v.resize(n)]: the first [n] elements are kept, new elements are 0. *)
Definition resize (n : nat) (v : list Z) : list Z :=
  take n v ++ replicate (n - length v) 0.

(** [std::iter_swap] on positions [i] and [j] of a vector. *)
Definition iter_swap (v : list Z) (i j : nat) : list Z :=
  match v !! i, v !! j with
  | Some a, Some b => <[i := b]> (<[j := a]> v)
  | _, _ => v
  end.

(** [std::random_shuffle(v.begin(), v.end())], as libstdc++ implements it:
    position [i] (from 1 on) is exchanged with position
    [std::rand() % (i + 1)].  [rand k] is the value of the [k]-th call of
    the process-wide generator after [Init] starts; its state before the
    call is not known, so properties are stated for every [rand]. *)
Definition random_shuffle (rand : nat -> nat) (v : list Z) : list Z :=
  fold_left
    (fun v i =>
       let j := (rand (i - 1) mod (i + 1))%nat in
       if decide (i = j) then v else iter_swap v i j)
    (seq 1 (length v - 1)) v.

(** ** Init *)

Definition newline : string := String (ascii_of_nat 10) EmptyString.

Definition mismatch_message : string :=
  ("The cumulative number of discrete choices do not equal " ++
   "the number of total number of attribute vectors." ++ newline)%string.

(** Lines 300-306: subtract 1's from the decisions table, in exact
    arithmetic ([Binary64.subtract_ones] rounds as the doubles do).
    [point] aliases the table, so the table itself changes;
    [subtract_ones_at] is the same loop on the memory of the caller. *)
Definition subtract_ones (this : DCMTable) : Outcome DCMTable :=
  d <- for_loop 0 (length (decisions_table_ this))
         (fun i d =>
            point <- get d (Z.of_nat i) ;;
            x <- at_ point 0 ;;
            Ok (<[i := <[0%nat := (x - 1)%Q]> point]> d))
         (decisions_table_ this) ;;
  Ok (set_decisions_table d this).

(** Lines 311-320: the shuffled vector of person indices. *)
Definition shuffle_people (rand : nat -> nat) (this : DCMTable) : DCMTable :=
  let n := length (decisions_table_ this) in
  let v := resize n (shuffled_indices_for_person_ this) in
  let v := fold_left (fun v i => <[i := Z.of_nat i]> v) (seq 0 (length v)) v in
  set_shuffled (random_shuffle rand v) this.

(** Lines 326-337: the cumulative number of discrete choices. *)
Definition accumulate_choices (this : DCMTable) : Outcome DCMTable :=
  let n := length (decisions_table_ this) in
  let c := resize n (cumulative_num_discrete_choices_ this) in
  c <- (if decide (0 < length c)%nat then Ok (<[0%nat := 0]> c)
        else Undefined) ;;
  c <- for_loop 1 (length c - 1)
         (fun i c =>
            point <- get (num_alternatives_table_ this) (Z.of_nat (i - 1)) ;;
            x <- at_ point 0 ;;
            num_choices_for_current_person <- static_cast_int x ;;
            prev <- at_ c (Z.of_nat (i - 1)) ;;
            s <- int_add prev num_choices_for_current_person ;;
            Ok (<[i := s]> c))
         c ;;
  Ok (set_cumulative c this).

(** Lines 339-356: the cumulative count must match the number of attribute
    vectors; otherwise the process is ended.  The matching branch only
    writes a line to [std::cerr]. *)
Definition check_total (this : DCMTable) : Outcome DCMTable :=
  let c := cumulative_num_discrete_choices_ this in
  last_count_vector <-
    get (num_alternatives_table_ this) (Z.of_nat (length c - 1)) ;;
  x <- at_ last_count_vector 0 ;;
  last_count <- static_cast_int x ;;
  last <- at_ c (Z.of_nat (length c - 1)) ;;
  total <- int_add last last_count ;;
  if decide (total <> n_entries (attribute_table_ this))
  then Exit 0 mismatch_message
  else Ok this.

(** Lines 358-365: the largest number of alternatives in the table. *)
Definition max_num_alternatives (this : DCMTable) : Outcome Z :=
  for_loop 0 (length (num_alternatives_table_ this))
    (fun i total_num_discrete_choices =>
       point <- get (num_alternatives_table_ this) (Z.of_nat i) ;;
       x <- at_ point 0 ;;
       n <- static_cast_int x ;;
       Ok (Z.max total_num_discrete_choices n))
    0.

(** Lines 358-373: the number of people choosing each discrete choice. *)
Definition count_people (this : DCMTable) : Outcome DCMTable :=
  total_num_discrete_choices <- max_num_alternatives this ;;
  let v := resize (Z.to_nat total_num_discrete_choices)
             (num_people_per_discrete_choice_ this) in
  let v := replicate (length v) 0 in
  v <- for_loop 0 (length (shuffled_indices_for_person_ this))
         (fun i v =>
            k <- get_discrete_choice_index this (Z.of_nat i) ;;
            b <- at_ v k ;;
            Ok (<[Z.to_nat k := b + 1]> v))
         v ;;
  Ok (set_per_choice v this).

(** Lines 295-337 of [Init]: everything before the check of the total. *)
Definition Init_index (rand : nat -> nat)
    (attribute_table_in : Table) (attribute_dimensions_in : list Z)
    (decisions_table_in num_alternatives_table_in : Table)
    (this : DCMTable) : Outcome DCMTable :=
  let this := set_tables attribute_table_in attribute_dimensions_in
                decisions_table_in num_alternatives_table_in this in
  this <- subtract_ones this ;;
  let this := set_distribution
                (Distribution_Init (attribute_dimensions_ this)) this in
  let this := shuffle_people rand this in
  accumulate_choices this.

Definition Init (rand : nat -> nat)
    (attribute_table_in : Table) (attribute_dimensions_in : list Z)
    (decisions_table_in num_alternatives_table_in : Table)
    (this : DCMTable) : Outcome DCMTable :=
  this <- Init_index rand attribute_table_in attribute_dimensions_in
            decisions_table_in num_alternatives_table_in this ;;
  this <- check_total this ;;
  count_people this.

(** ** Choice probabilities *)

(** [arma::dot(a, b)], in exact arithmetic ([Binary64.dot] is the sum on
    doubles).  Armadillo is not part of the sources: with its size checks
    compiled in, as by default, vectors of different sizes make it throw
    [std::logic_error] with this message; a build that leaves the checks
    out reads outside the shorter vector instead. *)
Definition dot (a b : vec) : Outcome Q :=
  if decide (length a = length b)
  then Ok (fold_left Qplus (zip_with Qmult a b) 0%Q)
  else Thrown "dot(): objects must have the same number of elements".

(** [v->set_size(n)]: the elements are not initialised by the call and are
    all written before they are read; they are 0 here. *)
Definition set_size (n : Z) : Outcome vec :=
  if n <? 0 then Thrown "Mat::init(): requested size is too large"
  else Ok (replicate (Z.to_nat n) 0%Q).

Section ChoiceProbabilities.

(** [exp] of the C library. *)
Variable exp : Q -> Q.

(** Lines 163-185: the dot products and their maximum. *)
Definition choice_scores (this : DCMTable) (person_index : Z)
    (beta_vector : vec) (num_discrete_choices : Z)
    (choice_probabilities : vec) : Outcome (vec * Q) :=
  for_loop 0 (Z.to_nat num_discrete_choices)
    (fun discrete_choice_index '(choice_probabilities, max_dot_product) =>
       attribute_for_discrete_choice <-
         get_attribute_vector this person_index
           (Z.of_nat discrete_choice_index) ;;
       dot_product <- dot beta_vector attribute_for_discrete_choice ;;
       Ok (<[discrete_choice_index := dot_product]> choice_probabilities,
           std_max max_dot_product dot_product))
    (choice_probabilities, (- DBL_MAX)%Q).

(** Lines 190-200: the unnormalized probabilities and their sum, in exact
    arithmetic ([Binary64.choice_weights] is the loop on doubles, where the
    difference of two infinities is a NaN). *)
Definition choice_weights (num_discrete_choices : Z)
    (choice_probabilities : vec) (max_dot_product : Q)
    : Outcome (vec * Q) :=
  for_loop 0 (Z.to_nat num_discrete_choices)
    (fun discrete_choice_index '(choice_probabilities, normalizing_sum) =>
       p <- at_ choice_probabilities (Z.of_nat discrete_choice_index) ;;
       let adjusted_dot_product := (p - max_dot_product + 1)%Q in
       let unnormalized_probability := exp adjusted_dot_product in
       Ok (<[discrete_choice_index := unnormalized_probability]>
             choice_probabilities,
           (normalizing_sum + unnormalized_probability)%Q))
    (choice_probabilities, 0%Q).

(** Lines 203-207: the normalization. *)
Definition normalize (num_discrete_choices : Z) (choice_probabilities : vec)
    (normalizing_sum : Q) : Outcome vec :=
  for_loop 0 (Z.to_nat num_discrete_choices)
    (fun discrete_choice_index choice_probabilities =>
       p <- at_ choice_probabilities (Z.of_nat discrete_choice_index) ;;
       Ok (<[discrete_choice_index := (p / normalizing_sum)%Q]>
             choice_probabilities))
    choice_probabilities.

Definition choice_probabilities (this : DCMTable) (person_index : Z)
    (beta_vector : vec) : Outcome vec :=
  num_discrete_choices <- num_discrete_choices this person_index ;;
  choice_probabilities <- set_size num_discrete_choices ;;
  scores <- choice_scores this person_index beta_vector
              num_discrete_choices choice_probabilities ;;
  weights <- choice_weights num_discrete_choices scores.1 scores.2 ;;
  normalize num_discrete_choices weights.1 weights.2.

Definition choice_probability (this : DCMTable) (person_index : Z)
    (beta_vector : vec) : Outcome Q :=
  choice_probabilities <-
    choice_probabilities this person_index beta_vector ;;
  k <- get_discrete_choice_index this person_index ;;
  at_ choice_probabilities k.

End ChoiceProbabilities.

(** ** GenerateRandomDataset *)

(** Modelled from the spec: the generator of [core::math] is not part of
    the sources, and its state is not modelled.  [RandInt_range j] is the
    value of the call [RandInt(3, 7)] for person [j], [Random j i] the value
    of the call [Random(0.1, 1.0)] for component [i] of attribute vector
    [j], and [RandInt j n] the value of the call [RandInt(n)] for person
    [j]; properties are stated for every such generator. *)
Record Generator := {
  RandInt_range : nat -> Z;
  Random : nat -> nat -> Q;
  RandInt : nat -> Z -> Z
}.

(** Modelled from the spec: [t->Init(n_attributes, n_entries)], a table of
    [n_entries] points of [n_attributes] components each.  The components
    are not initialised by the call and are written before they are read;
    they are 0 here.  A negative size is refused as by [set_size]. *)
Definition Table_Init (n_attributes n_entries : Z) : Outcome Table :=
  if (n_attributes <? 0) || (n_entries <? 0)
  then Thrown "Mat::init(): requested size is too large"
  else Ok (replicate (Z.to_nat n_entries)
             (replicate (Z.to_nat n_attributes) 0%Q)).

(** [std::vector<int> v(n)] with an [int] size: a negative [n] converts to
    a size that no vector can have. *)
Definition vector_int (n : Z) : Outcome (list Z) :=
  if n <? 0 then Thrown "cannot create std::vector larger than max_size()"
  else Ok (replicate (Z.to_nat n) 0).

(** [v[i] = x], unchecked. *)
Definition store {A} (v : list A) (i : Z) (x : A) : Outcome (list A) :=
  if (0 <=? i) && (i <? Z.of_nat (length v))
  then Ok (<[Z.to_nat i := x]> v)
  else Undefined.

(** [std::accumulate(v.begin(), v.end(), init)] on [int]s. *)
Definition accumulate (v : list Z) (init : Z) : Outcome Z :=
  for_loop 0 (length v)
    (fun j acc => x <- at_ v (Z.of_nat j) ;; int_add acc x)
    init.

Definition GenerateRandomDataset (gen : Generator) (rand : nat -> nat)
    (random_num_people_in random_num_attributes_in : Z)
    (random_attribute_dimensions_in : list Z) (this : DCMTable)
    : Outcome DCMTable :=
  random_num_discrete_choices <- vector_int random_num_people_in ;;
  random_num_discrete_choices <-
    for_loop 0 (Z.to_nat random_num_people_in)
      (fun j v => store v (Z.of_nat j) (RandInt_range gen j))
      random_num_discrete_choices ;;
  total_num_discrete_choices <- accumulate random_num_discrete_choices 0 ;;
  random_attribute_dataset <-
    Table_Init random_num_attributes_in total_num_discrete_choices ;;
  random_attribute_dataset <-
    for_loop 0 (Z.to_nat total_num_discrete_choices)
      (fun j t =>
         point <- get t (Z.of_nat j) ;;
         point <- for_loop 0 (Z.to_nat random_num_attributes_in)
                    (fun i point => store point (Z.of_nat i) (Random gen j i))
                    point ;;
         Ok (<[j := point]> t))
      random_attribute_dataset ;;
  random_num_alternatives_dataset <- Table_Init 1 random_num_people_in ;;
  random_num_alternatives_dataset <-
    for_loop 0 (Z.to_nat random_num_people_in)
      (fun j t =>
         point <- get t (Z.of_nat j) ;;
         n <- at_ random_num_discrete_choices (Z.of_nat j) ;;
         point <- store point 0 (inject_Z n) ;;
         Ok (<[j := point]> t))
      random_num_alternatives_dataset ;;
  random_decisions_dataset <- Table_Init 1 random_num_people_in ;;
  random_decisions_dataset <-
    for_loop 0 (Z.to_nat random_num_people_in)
      (fun j t =>
         point <- get t (Z.of_nat j) ;;
         n <- at_ random_num_discrete_choices (Z.of_nat j) ;;
         k <- int_add (RandInt gen j n) 1 ;;
         point <- store point 0 (inject_Z k) ;;
         Ok (<[j := point]> t))
      random_decisions_dataset ;;
  Init rand random_attribute_dataset random_attribute_dimensions_in
    random_decisions_dataset random_num_alternatives_dataset this.

(** ** The caller's tables

    [Init] receives three pointers and keeps them (lines 295-298); the
    loop of lines 300-306 writes through [decisions_table_].  The memory
    maps an address to the table stored there, and a pointer that is not
    an address of the memory cannot be followed. *)
Abbreviation Memory := (list Table).



(** * The class on binary64 numbers

    The definitions above compute with exact rationals.  [Binary64] is the
    class once more with a [double] as a binary64 number of IEEE 754 (the
    primitive floats): every operation rounds to nearest, overflows to an
    infinity and propagates NaN as on the machine.  The vectors of [int]s,
    the loops and the outcomes are the ones above. *)
Module Binary64.

Abbreviation vec := (list float).
Abbreviation Table := (list vec).

Definition n_entries (t : Table) : Z := Z.of_nat (length t).

Definition get (t : Table) (i : Z) : Outcome vec := at_ t i.

Definition data_at (t : Table) (row col : Z) : Outcome float :=
  point <- at_ t col ;; at_ point row.

(** The integer part of a finite double, rounding toward zero. *)
Definition trunc (x : float) : option Z :=
  match Prim2SF x with
  | S754_zero _ => Some 0
  | S754_finite s m e =>
      let a := Z.shiftl (Zpos m) e in Some (if s then - a else a)
  | _ => None
  end.

(** [static_cast<int>(x)]: undefined for NaN, for an infinity and when the
    integer part is not an [int]. *)
Definition static_cast_int (x : float) : Outcome Z :=
  match trunc x with
  | Some z => if in_int z then Ok z else Undefined
  | None => Undefined
  end.

(** The rational that a finite double stands for. *)
Definition to_Q (x : float) : option Q :=
  match Prim2SF x with
  | S754_zero _ => Some 0%Q
  | S754_finite s m e =>
      let a := (inject_Z (Zpos m) * 2 ^ e)%Q in
      Some (if s then (- a)%Q else a)
  | _ => None
  end.

(** The double [y] stands for the number that [x] stands for, minus 1. *)
Definition decremented_exactly (x y : float) : bool :=
  match to_Q x, to_Q y with
  | Some a, Some b => Qeq_bool b (a - 1)
  | _, _ => false
  end.

(** The double of an [int]. *)
Definition of_int (k : Z) : float :=
  SF2Prim (binary_normalize prec emax k 0 false).

(** The decision [k], passed as a double, is decremented exactly and gives
    the index [k - 1]. *)
Definition decrement_exact (k : Z) : bool :=
  decremented_exactly (of_int k) (of_int k - 1) &&
  match static_cast_int (of_int k - 1) with
  | Ok z => z =? k - 1
  | _ => false
  end.

(** [std::numeric_limits<double>::max()] *)
Definition DBL_MAX : float := 0x1.fffffffffffffp1023%float.

(** [std::max(a, b)]: [(a < b) ? b : a]. *)
Definition std_max (a b : float) : float :=
  if (a <? b)%float then b else a.

Record DCMTable := {
  distribution_ : Distribution;
  attribute_table_ : Table;
  attribute_dimensions_ : list Z;
  decisions_table_ : Table;
  num_alternatives_table_ : Table;
  cumulative_num_discrete_choices_ : list Z;
  shuffled_indices_for_person_ : list Z;
  num_people_per_discrete_choice_ : list Z
}.

Definition num_people_per_discrete_choice (t : DCMTable)
    (discrete_choice_index : Z) : Outcome Z :=
  at_ (num_people_per_discrete_choice_ t) discrete_choice_index.

Definition shuffled_indices_for_person (t : DCMTable) (pos : Z) : Outcome Z :=
  at_ (shuffled_indices_for_person_ t) pos.

Definition num_discrete_choices (t : DCMTable) (person_index : Z) : Outcome Z :=
  x <- data_at (num_alternatives_table_ t) 0 person_index ;;
  static_cast_int x.

Definition total_num_discrete_choices (t : DCMTable) : Z :=
  Z.of_nat (length (num_people_per_discrete_choice_ t)).

Definition get_discrete_choice_index (t : DCMTable) (person_index : Z)
    : Outcome Z :=
  x <- data_at (decisions_table_ t) 0 person_index ;;
  static_cast_int x.

Definition num_people (t : DCMTable) : Z :=
  Z.of_nat (length (cumulative_num_discrete_choices_ t)).

Definition get_attribute_vector (t : DCMTable)
    (person_index discrete_choice_index : Z) : Outcome vec :=
  c <- at_ (cumulative_num_discrete_choices_ t) person_index ;;
  index <- int_add c discrete_choice_index ;;
  get (attribute_table_ t) index.

(** Assignments to single members of [this]. *)
Definition set_tables (attribute_table_in : Table)
    (attribute_dimensions_in : list Z)
    (decisions_table_in num_alternatives_table_in : Table)
    (this : DCMTable) : DCMTable :=
  {| distribution_ := distribution_ this;
     attribute_table_ := attribute_table_in;
     attribute_dimensions_ := attribute_dimensions_in;
     decisions_table_ := decisions_table_in;
     num_alternatives_table_ := num_alternatives_table_in;
     cumulative_num_discrete_choices_ := cumulative_num_discrete_choices_ this;
     shuffled_indices_for_person_ := shuffled_indices_for_person_ this;
     num_people_per_discrete_choice_ := num_people_per_discrete_choice_ this |}.

Definition set_decisions_table (d : Table) (this : DCMTable) : DCMTable :=
  {| distribution_ := distribution_ this;
     attribute_table_ := attribute_table_ this;
     attribute_dimensions_ := attribute_dimensions_ this;
     decisions_table_ := d;
     num_alternatives_table_ := num_alternatives_table_ this;
     cumulative_num_discrete_choices_ := cumulative_num_discrete_choices_ this;
     shuffled_indices_for_person_ := shuffled_indices_for_person_ this;
     num_people_per_discrete_choice_ := num_people_per_discrete_choice_ this |}.

Definition set_distribution (d : Distribution) (this : DCMTable) : DCMTable :=
  {| distribution_ := d;
     attribute_table_ := attribute_table_ this;
     attribute_dimensions_ := attribute_dimensions_ this;
     decisions_table_ := decisions_table_ this;
     num_alternatives_table_ := num_alternatives_table_ this;
     cumulative_num_discrete_choices_ := cumulative_num_discrete_choices_ this;
     shuffled_indices_for_person_ := shuffled_indices_for_person_ this;
     num_people_per_discrete_choice_ := num_people_per_discrete_choice_ this |}.

Definition set_cumulative (c : list Z) (this : DCMTable) : DCMTable :=
  {| distribution_ := distribution_ this;
     attribute_table_ := attribute_table_ this;
     attribute_dimensions_ := attribute_dimensions_ this;
     decisions_table_ := decisions_table_ this;
     num_alternatives_table_ := num_alternatives_table_ this;
     cumulative_num_discrete_choices_ := c;
     shuffled_indices_for_person_ := shuffled_indices_for_person_ this;
     num_people_per_discrete_choice_ := num_people_per_discrete_choice_ this |}.

Definition set_shuffled (s : list Z) (this : DCMTable) : DCMTable :=
  {| distribution_ := distribution_ this;
     attribute_table_ := attribute_table_ this;
     attribute_dimensions_ := attribute_dimensions_ this;
     decisions_table_ := decisions_table_ this;
     num_alternatives_table_ := num_alternatives_table_ this;
     cumulative_num_discrete_choices_ := cumulative_num_discrete_choices_ this;
     shuffled_indices_for_person_ := s;
     num_people_per_discrete_choice_ := num_people_per_discrete_choice_ this |}.

Definition set_per_choice (c : list Z) (this : DCMTable) : DCMTable :=
  {| distribution_ := distribution_ this;
     attribute_table_ := attribute_table_ this;
     attribute_dimensions_ := attribute_dimensions_ this;
     decisions_table_ := decisions_table_ this;
     num_alternatives_table_ := num_alternatives_table_ this;
     cumulative_num_discrete_choices_ := cumulative_num_discrete_choices_ this;
     shuffled_indices_for_person_ := shuffled_indices_for_person_ this;
     num_people_per_discrete_choice_ := c |}.

(** Lines 300-306: [point[0] -= 1.0], a subtraction of doubles. *)
Definition subtract_ones (this : DCMTable) : Outcome DCMTable :=
  d <- for_loop 0 (length (decisions_table_ this))
         (fun i d =>
            point <- get d (Z.of_nat i) ;;
            x <- at_ point 0 ;;
            Ok (<[i := <[0%nat := (x - 1)%float]> point]> d))
         (decisions_table_ this) ;;
  Ok (set_decisions_table d this).

(** Lines 311-320. *)
Definition shuffle_people (rand : nat -> nat) (this : DCMTable) : DCMTable :=
  let n := length (decisions_table_ this) in
  let v := resize n (shuffled_indices_for_person_ this) in
  let v := fold_left (fun v i => <[i := Z.of_nat i]> v) (seq 0 (length v)) v in
  set_shuffled (random_shuffle rand v) this.

(** Lines 326-337. *)
Definition accumulate_choices (this : DCMTable) : Outcome DCMTable :=
  let n := length (decisions_table_ this) in
  let c := resize n (cumulative_num_discrete_choices_ this) in
  c <- (if decide (0 < length c)%nat then Ok (<[0%nat := 0]> c)
        else Undefined) ;;
  c <- for_loop 1 (length c - 1)
         (fun i c =>
            point <- get (num_alternatives_table_ this) (Z.of_nat (i - 1)) ;;
            x <- at_ point 0 ;;
            num_choices_for_current_person <- static_cast_int x ;;
            prev <- at_ c (Z.of_nat (i - 1)) ;;
            s <- int_add prev num_choices_for_current_person ;;
            Ok (<[i := s]> c))
         c ;;
  Ok (set_cumulative c this).

(** Lines 339-356. *)
Definition check_total (this : DCMTable) : Outcome DCMTable :=
  let c := cumulative_num_discrete_choices_ this in
  last_count_vector <-
    get (num_alternatives_table_ this) (Z.of_nat (length c - 1)) ;;
  x <- at_ last_count_vector 0 ;;
  last_count <- static_cast_int x ;;
  last <- at_ c (Z.of_nat (length c - 1)) ;;
  total <- int_add last last_count ;;
  if decide (total <> n_entries (attribute_table_ this))
  then Exit 0 mismatch_message
  else Ok this.

(** Lines 358-365. *)
Definition max_num_alternatives (this : DCMTable) : Outcome Z :=
  for_loop 0 (length (num_alternatives_table_ this))
    (fun i total_num_discrete_choices =>
       point <- get (num_alternatives_table_ this) (Z.of_nat i) ;;
       x <- at_ point 0 ;;
       n <- static_cast_int x ;;
       Ok (Z.max total_num_discrete_choices n))
    0.

(** Lines 358-373. *)
Definition count_people (this : DCMTable) : Outcome DCMTable :=
  total_num_discrete_choices <- max_num_alternatives this ;;
  let v := resize (Z.to_nat total_num_discrete_choices)
             (num_people_per_discrete_choice_ this) in
  let v := replicate (length v) 0 in
  v <- for_loop 0 (length (shuffled_indices_for_person_ this))
         (fun i v =>
            k <- get_discrete_choice_index this (Z.of_nat i) ;;
            b <- at_ v k ;;
            Ok (<[Z.to_nat k := b + 1]> v))
         v ;;
  Ok (set_per_choice v this).

Definition Init (rand : nat -> nat)
    (attribute_table_in : Table) (attribute_dimensions_in : list Z)
    (decisions_table_in num_alternatives_table_in : Table)
    (this : DCMTable) : Outcome DCMTable :=
  let this := set_tables attribute_table_in attribute_dimensions_in
                decisions_table_in num_alternatives_table_in this in
  this <- subtract_ones this ;;
  let this := set_distribution
                (Distribution_Init (attribute_dimensions_ this)) this in
  let this := shuffle_people rand this in
  this <- accumulate_choices this ;;
  this <- check_total this ;;
  count_people this.

(** [arma::dot(a, b)] on doubles.  The order in which the library adds the
    products is not part of the sources; they are added from the first to
    the last here, and the inputs below have vectors of one component,
    where every order gives the same sum. *)
Definition dot (a b : vec) : Outcome float :=
  if decide (length a = length b)
  then Ok (fold_left PrimFloat.add (zip_with PrimFloat.mul a b) 0%float)
  else Thrown "dot(): objects must have the same number of elements".

Definition set_size (n : Z) : Outcome vec :=
  if n <? 0 then Thrown "Mat::init(): requested size is too large"
  else Ok (replicate (Z.to_nat n) 0%float).

(** Line 195: the argument of [exp]. *)
Definition adjusted_dot_product (p max_dot_product : float) : float :=
  (p - max_dot_product + 1)%float.

Section ChoiceProbabilities.

(** [exp] of the C library on the doubles that are not NaN; for a NaN it
    returns a NaN (C99, annex F). *)
Variable exp : float -> float.

Definition libm_exp (x : float) : float :=
  if is_nan x then nan else exp x.

(** Lines 163-185. *)
Definition choice_scores (this : DCMTable) (person_index : Z)
    (beta_vector : vec) (num_discrete_choices : Z)
    (choice_probabilities : vec) : Outcome (vec * float) :=
  for_loop 0 (Z.to_nat num_discrete_choices)
    (fun discrete_choice_index '(choice_probabilities, max_dot_product) =>
       attribute_for_discrete_choice <-
         get_attribute_vector this person_index
           (Z.of_nat discrete_choice_index) ;;
       dot_product <- dot beta_vector attribute_for_discrete_choice ;;
       Ok (<[discrete_choice_index := dot_product]> choice_probabilities,
           std_max max_dot_product dot_product))
    (choice_probabilities, (- DBL_MAX)%float).

(** Lines 190-200. *)
Definition choice_weights (num_discrete_choices : Z)
    (choice_probabilities : vec) (max_dot_product : float)
    : Outcome (vec * float) :=
  for_loop 0 (Z.to_nat num_discrete_choices)
    (fun discrete_choice_index '(choice_probabilities, normalizing_sum) =>
       p <- at_ choice_probabilities (Z.of_nat discrete_choice_index) ;;
       let unnormalized_probability :=
         libm_exp (adjusted_dot_product p max_dot_product) in
       Ok (<[discrete_choice_index := unnormalized_probability]>
             choice_probabilities,
           (normalizing_sum + unnormalized_probability)%float))
    (choice_probabilities, 0%float).

(** Lines 203-207. *)
Definition normalize (num_discrete_choices : Z) (choice_probabilities : vec)
    (normalizing_sum : float) : Outcome vec :=
  for_loop 0 (Z.to_nat num_discrete_choices)
    (fun discrete_choice_index choice_probabilities =>
       p <- at_ choice_probabilities (Z.of_nat discrete_choice_index) ;;
       Ok (<[discrete_choice_index := (p / normalizing_sum)%float]>
             choice_probabilities))
    choice_probabilities.

Definition choice_probabilities (this : DCMTable) (person_index : Z)
    (beta_vector : vec) : Outcome vec :=
  num_discrete_choices <- num_discrete_choices this person_index ;;
  choice_probabilities <- set_size num_discrete_choices ;;
  scores <- choice_scores this person_index beta_vector
              num_discrete_choices choice_probabilities ;;
  weights <- choice_weights num_discrete_choices scores.1 scores.2 ;;
  normalize num_discrete_choices weights.1 weights.2.

Definition choice_probability (this : DCMTable) (person_index : Z)
    (beta_vector : vec) : Outcome float :=
  choice_probabilities <-
    choice_probabilities this person_index beta_vector ;;
  k <- get_discrete_choice_index this person_index ;;
  at_ choice_probabilities k.

End ChoiceProbabilities.

(** The sum of a vector of doubles, from the first to the last. *)
Definition sum (v : vec) : float := fold_left PrimFloat.add v 0%float.


(** A default-constructed table. *)
Definition empty_table : DCMTable :=
  {| distribution_ := Distribution_Init [];
     attribute_table_ := [];
     attribute_dimensions_ := [];
     decisions_table_ := [];
     num_alternatives_table_ := [];
     cumulative_num_discrete_choices_ := [];
     shuffled_indices_for_person_ := [];
     num_people_per_discrete_choice_ := [] |}.

(** The scenario of two people. *)
Definition scenario_attributes : Table :=
  [[1; 0]; [0; 1]; [1; 1]; [0; 0]; [2; 0]]%float.
Definition scenario_decisions : Table := [[1]; [3]]%float.
Definition scenario_alternatives : Table := [[2]; [3]]%float.

Definition scenario_table : DCMTable :=
  {| distribution_ := {| dimensions := [2] |};
     attribute_table_ := scenario_attributes;
     attribute_dimensions_ := [2];
     decisions_table_ := [[0]; [2]]%float;
     num_alternatives_table_ := scenario_alternatives;
     cumulative_num_discrete_choices_ := [0; 2];
     shuffled_indices_for_person_ := [1; 0];
     num_people_per_discrete_choice_ := [1; 0; 1] |}.






End Binary64.

(** ** Notions used to state the properties *)

(** Person [i] chose the discrete choice [k]. *)
Definition chose (this : DCMTable) (k : Z) (i : nat) : bool :=
  match get_discrete_choice_index this (Z.of_nat i) with
  | Ok k' => k' =? k
  | _ => false
  end.

(** The number of people among the first [n] who chose [k]. *)
Definition people_choosing (this : DCMTable) (k : Z) (n : nat) : Z :=
  Z.of_nat (length (List.filter (chose this k) (seq 0 n))).

(** The sum of a vector of ints. *)
Definition sum_int (v : list Z) : Z := foldr Z.add 0 v.

(** The sum of a vector of doubles, in exact arithmetic. *)
Definition sum_Q (v : vec) : Q := foldr Qplus 0%Q v.

(** The decision of person [p], as passed to [Init], is one of
    1..[num_discrete_choices p]. *)
Definition decision_in_range (st : DCMTable) (p : nat) (point : vec) : bool :=
  match point !! 0%nat, num_discrete_choices st (Z.of_nat p) with
  | Some x, Ok n => Qle_bool 1 x && Qle_bool x (inject_Z n)
  | _, _ => false
  end.

Definition decisions_in_range (decisions_table : Table) (st : DCMTable)
    : bool :=
  forallb (fun pq => decision_in_range st pq.1 pq.2)
    (imap pair decisions_table).

(** The state after lines 295-337, in terms of the tables passed in. *)
Record indexed (attribute_table decisions_table num_alternatives_table : Table)
    (t : DCMTable) : Prop := {
  indexed_attributes : attribute_table_ t = attribute_table;
  indexed_alternatives : num_alternatives_table_ t = num_alternatives_table;
  indexed_decisions_length :
    length (decisions_table_ t) = length decisions_table;
  indexed_decisions :
    forall i point, decisions_table !! i = Some point ->
      exists x, point !! 0%nat = Some x /\
        decisions_table_ t !! i = Some (<[0%nat := (x - 1)%Q]> point);
  indexed_shuffled :
    shuffled_indices_for_person_ t
    ≡ₚ Z.of_nat <$> seq 0 (length decisions_table);
  indexed_length :
    length (cumulative_num_discrete_choices_ t) = length decisions_table;
  indexed_first : cumulative_num_discrete_choices_ t !! 0%nat = Some 0;
  indexed_next :
    forall i, (S i < length decisions_table)%nat ->
      exists ci m,
        cumulative_num_discrete_choices_ t !! i = Some ci /\
        num_discrete_choices t (Z.of_nat i) = Ok m /\
        cumulative_num_discrete_choices_ t !! S i = Some (ci + m)
}.

(** The input contract of [Init]: at least one person, one alternatives
    entry per person, every decision in 1..[counts p] where [counts p] is
    that person's number of alternatives, and as many attribute vectors as
    the counts add up to. *)
Definition valid_input (attribute_table decisions_table
    num_alternatives_table : Table) : Prop :=
  (0 < length decisions_table)%nat /\
  n_entries attribute_table <= INT_MAX /\
  exists counts : list Z,
    Forall2 (fun point n =>
               exists x, point !! 0%nat = Some x /\ static_cast_int x = Ok n)
      num_alternatives_table counts /\
    Forall2 (fun point n =>
               exists x, point !! 0%nat = Some x /\
                         (1 <= x)%Q /\ (x <= inject_Z n)%Q)
      decisions_table counts /\
    sum_int counts = n_entries attribute_table.

(** ** Concrete inputs *)

(** A default-constructed table. *)
Definition empty_table : DCMTable :=
  {| distribution_ := Distribution_Init [];
     attribute_table_ := [];
     attribute_dimensions_ := [];
     decisions_table_ := [];
     num_alternatives_table_ := [];
     cumulative_num_discrete_choices_ := [];
     shuffled_indices_for_person_ := [];
     num_people_per_discrete_choice_ := [] |}.

(** The scenario of two people: person 0 has the alternatives (1,0) and
    (0,1) and chose the first; person 1 has the alternatives (1,1), (0,0)
    and (2,0) and chose the third. *)
Definition scenario_attributes : Table :=
  [[1; 0]; [0; 1]; [1; 1]; [0; 0]; [2; 0]]%Q.
Definition scenario_decisions : Table := [[1]; [3]]%Q.
Definition scenario_alternatives : Table := [[2]; [3]]%Q.

Definition scenario (rand : nat -> nat) : Outcome DCMTable :=
  Init rand scenario_attributes [2] scenario_decisions scenario_alternatives
    empty_table.

(** The table that [Init] builds for the scenario when the generator
    returns 0 at every call. *)
Definition scenario_table : DCMTable :=
  {| distribution_ := {| dimensions := [2] |};
     attribute_table_ := scenario_attributes;
     attribute_dimensions_ := [2];
     decisions_table_ := [[0]; [2]]%Q;
     num_alternatives_table_ := scenario_alternatives;
     cumulative_num_discrete_choices_ := [0; 2];
     shuffled_indices_for_person_ := [1; 0];
     num_people_per_discrete_choice_ := [1; 0; 1] |}.

(** The state of the scenario before the check of the total. *)
Definition scenario_index : DCMTable := set_per_choice [] scenario_table.

(** One person with two discrete choices and two attribute vectors, whose
    decision is passed as 0: the totals agree, and the decision becomes
    the index -1. *)
Definition zero_decision_attributes : Table := [[1]; [1]]%Q.
Definition zero_decision_decisions : Table := [[0]]%Q.
Definition zero_decision_alternatives : Table := [[2]]%Q.

(** The state of that input before the check of the total. *)
Definition zero_decision_index : DCMTable :=
  {| distribution_ := {| dimensions := [1] |};
     attribute_table_ := zero_decision_attributes;
     attribute_dimensions_ := [1];
     decisions_table_ := [[-1]]%Q;
     num_alternatives_table_ := zero_decision_alternatives;
     cumulative_num_discrete_choices_ := [0];
     shuffled_indices_for_person_ := [0];
     num_people_per_discrete_choice_ := [] |}.

(** The scenario with an attribute vector missing. *)
Definition short_attributes : Table := [[1; 0]; [0; 1]; [1; 1]; [0; 0]]%Q.

(** A rational stand-in for [exp], used to run the definitions: 2 to the
    power of the integer part of the argument. *)
Definition exp2 (x : Q) : Q := (2 ^ Qfloor x)%Q.

(** ** Notions used by the further properties *)

(** The number of discrete choices of person [p], 0 when the accessor is
    not defined. *)
Definition count_at (st : DCMTable) (p : nat) : Z :=
  match num_discrete_choices st (Z.of_nat p) with
  | Ok n => n
  | _ => 0
  end.

(** The numbers of discrete choices of all the people, in order. *)
Definition counts (st : DCMTable) : list Z :=
  count_at st <$> seq 0 (Z.to_nat (num_people st)).

(** No person has a negative number of discrete choices. *)
Definition counts_nonnegative (st : DCMTable) : bool :=
  forallb (fun n => 0 <=? n) (counts st).

(** Every attribute vector has as many components as [beta_vector]. *)
Definition attributes_match (st : DCMTable) (beta_vector : vec) : bool :=
  forallb (fun point => Nat.eqb (length point) (length beta_vector))
    (attribute_table_ st).

(** Two outcomes of the same kind, with related results. *)
Definition same_outcome {A} (R : A -> A -> Prop) (o o' : Outcome A) : Prop :=
  match o, o' with
  | Ok a, Ok a' => R a a'
  | Exit s e, Exit s' e' => s = s' /\ e = e'
  | Thrown w, Thrown w' => w = w'
  | Undefined, Undefined => True
  | _, _ => False
  end.

(** A table whose only person has no discrete choice. *)
Definition no_choice_table : DCMTable :=
  {| distribution_ := {| dimensions := [1] |};
     attribute_table_ := [];
     attribute_dimensions_ := [1];
     decisions_table_ := [[0]]%Q;
     num_alternatives_table_ := [[0]]%Q;
     cumulative_num_discrete_choices_ := [0];
     shuffled_indices_for_person_ := [0];
     num_people_per_discrete_choice_ := [] |}.

(** The numbers of discrete choices that [GenerateRandomDataset] draws for
    [n] people. *)
Definition drawn_counts (gen : Generator) (n : nat) : list Z :=
  RandInt_range gen <$> seq 0 n.

(** The decision drawn for each of [n] people is an index below the number
    of discrete choices drawn for that person. *)
Definition draws_in_range (gen : Generator) (n : nat) : bool :=
  forallb
    (fun j =>
       let c := RandInt_range gen j in
       (0 <=? RandInt gen j c) && (RandInt gen j c <? c))
    (seq 0 n).

(** The three tables that [GenerateRandomDataset] passes to [Init]. *)
Definition drawn_attributes (gen : Generator) (n_attributes total : nat)
    : Table :=
  (fun j => Random gen j <$> seq 0 n_attributes) <$> seq 0 total.

Definition drawn_alternatives (gen : Generator) (n : nat) : Table :=
  (fun j => [inject_Z (RandInt_range gen j)]) <$> seq 0 n.

Definition drawn_decisions (gen : Generator) (n : nat) : Table :=
  (fun j => [inject_Z (RandInt gen j (RandInt_range gen j) + 1)]) <$> seq 0 n.

(** A generator to run the definitions: person [j] has [3 + j] discrete
    choices and chooses the one of index [j]. *)
Definition counting_generator : Generator :=
  {| RandInt_range := fun j => 3 + Z.of_nat j;
     Random := fun j i => inject_Z (Z.of_nat (10 * j + i));
     RandInt := fun j n => Z.of_nat j mod n |}.

(** The table that [GenerateRandomDataset] builds for two people with two
    attributes from [counting_generator]. *)
Definition counting_table : DCMTable :=
  {| distribution_ := {| dimensions := [2] |};
     attribute_table_ :=
       [[0; 1]; [10; 11]; [20; 21]; [30; 31]; [40; 41]; [50; 51];
        [60; 61]]%Q;
     attribute_dimensions_ := [2];
     decisions_table_ := [[0]; [1]]%Q;
     num_alternatives_table_ := [[3]; [4]]%Q;
     cumulative_num_discrete_choices_ := [0; 3];
     shuffled_indices_for_person_ := [1; 0];
     num_people_per_discrete_choice_ := [1; 1; 0; 0] |}.

(** * Properties *)

(** ** The outcome monad and loops *)

Lemma bind_Ok {A B} (m : Outcome A) (k : A -> Outcome B) (b : B) :
  bind m k = Ok b <-> exists a, m = Ok a /\ k a = Ok b.
Proof.
  split.
  - destruct m as [a | | |]; simpl; intros H; try discriminate. eauto.
  - intros (a & -> & H). exact H.
Qed.

Lemma bind_Exit {A B} (m : Outcome A) (k : A -> Outcome B) s e :
  bind m k = Exit s e <->
  m = Exit s e \/ exists a, m = Ok a /\ k a = Exit s e.
Proof.
  split.
  - destruct m as [a | | |]; simpl; intros H; try discriminate.
    + right. exists a. split; [reflexivity | exact H].
    + left. by injection H as -> ->.
  - intros [-> | (a & -> & H)]; [reflexivity | exact H].
Qed.

(** Splits every successful [bind] among the hypotheses. *)
Ltac inv_Ok :=
  repeat match goal with
  | H : bind _ _ = Ok _ |- _ =>
      let a := fresh "a" in
      let Ha := fresh "Ha" in
      apply bind_Ok in H; destruct H as (a & Ha & H)
  | H : Ok _ = Ok _ |- _ => injection H as H
  | H : Undefined = Ok _ |- _ => discriminate H
  | H : Exit _ _ = Ok _ |- _ => discriminate H
  | H : Thrown _ = Ok _ |- _ => discriminate H
  end.

(** Invariants of a [for] loop that ends normally. *)
Lemma for_loop_invariant {St} (Inv : nat -> St -> Prop)
    (body : nat -> St -> Outcome St) (count lo : nat) (s s' : St) :
  Inv lo s ->
  (forall i x y, (lo <= i < lo + count)%nat ->
     Inv i x -> body i x = Ok y -> Inv (S i) y) ->
  for_loop lo count body s = Ok s' ->
  Inv (lo + count)%nat s'.
Proof.
  revert lo s. induction count as [| count IH]; intros lo s Hs Hstep Hrun.
  - simpl in Hrun. inv_Ok. subst. by rewrite Nat.add_0_r.
  - simpl in Hrun. inv_Ok.
    replace (lo + S count)%nat with (S lo + count)%nat by lia.
    apply (IH (S lo) a); [| | done].
    + apply (Hstep lo s); [lia | done | done].
    + intros i x y Hi. apply Hstep. lia.
Qed.

(** A loop whose body is defined under the invariant ends normally. *)
Lemma for_loop_total {St} (Inv : nat -> St -> Prop)
    (body : nat -> St -> Outcome St) (count lo : nat) (s : St) :
  Inv lo s ->
  (forall i x, (lo <= i < lo + count)%nat -> Inv i x ->
     exists y, body i x = Ok y /\ Inv (S i) y) ->
  exists s', for_loop lo count body s = Ok s' /\ Inv (lo + count)%nat s'.
Proof.
  revert lo s. induction count as [| count IH]; intros lo s Hs Hstep.
  - exists s. simpl. by rewrite Nat.add_0_r.
  - destruct (Hstep lo s) as (y & Hy & Hinv); [lia | done |].
    destruct (IH (S lo) y) as (s' & Hrun & Hs'); [done | |].
    + intros i x Hi. apply Hstep. lia.
    + exists s'. simpl. rewrite Hy. simpl.
      by replace (lo + S count)%nat with (S lo + count)%nat by lia.
Qed.

(** A loop never ends the process unless its body does. *)
Lemma for_loop_no_Exit {St} (body : nat -> St -> Outcome St)
    (count lo : nat) (s : St) st e :
  (forall i x, body i x <> Exit st e) ->
  for_loop lo count body s <> Exit st e.
Proof.
  intros Hbody. revert lo s.
  induction count as [| count IH]; intros lo s; simpl; [done |].
  intros H. apply bind_Exit in H as [H | (a & _ & H)].
  - by apply (Hbody lo s).
  - by apply (IH (S lo) a).
Qed.

(** ** Vectors and scalars *)

Lemma at_Ok {A} (v : list A) (i : Z) (x : A) :
  at_ v i = Ok x <-> 0 <= i /\ v !! Z.to_nat i = Some x.
Proof.
  unfold at_. destruct (Z.ltb_spec i 0).
  - split; [done | lia].
  - destruct (v !! Z.to_nat i) as [y |]; split.
    + intros [= ->]. done.
    + intros [_ [= ->]]. done.
    + done.
    + intros [_ [=]].
Qed.

Lemma at_of_nat {A} (v : list A) (i : nat) (x : A) :
  at_ v (Z.of_nat i) = Ok x <-> v !! i = Some x.
Proof. rewrite at_Ok, Nat2Z.id. split; [by intros [_ ?] | split; [lia | done]]. Qed.

Lemma at_0 {A} (v : list A) (x : A) :
  at_ v 0 = Ok x <-> v !! 0%nat = Some x.
Proof. apply (at_of_nat v 0%nat). Qed.

Lemma at_no_Exit {A} (v : list A) (i : Z) s e : at_ v i <> Exit s e.
Proof. unfold at_. destruct (i <? 0); [done |]. by destruct (v !! Z.to_nat i). Qed.

Lemma get_Ok (t : Table) (i : nat) (point : vec) :
  get t (Z.of_nat i) = Ok point <-> t !! i = Some point.
Proof. apply at_of_nat. Qed.

Lemma in_int_spec (z : Z) : in_int z = true <-> INT_MIN <= z <= INT_MAX.
Proof. unfold in_int. rewrite andb_true_iff, !Z.leb_le. done. Qed.

Lemma int_add_Ok (a b c : Z) :
  int_add a b = Ok c <-> c = a + b /\ INT_MIN <= a + b <= INT_MAX.
Proof.
  unfold int_add. rewrite <- in_int_spec.
  destruct (in_int (a + b)); split; try done.
  - by intros [= <-].
  - by intros [-> _].
  - by intros [_ ?].
Qed.

Lemma static_cast_int_Ok (x : Q) (z : Z) :
  static_cast_int x = Ok z <-> z = trunc x /\ INT_MIN <= trunc x <= INT_MAX.
Proof.
  unfold static_cast_int. rewrite <- in_int_spec.
  destruct (in_int (trunc x)); split; try done.
  - by intros [= <-].
  - by intros [-> _].
  - by intros [_ ?].
Qed.

Lemma data_at_Ok (t : Table) (col : Z) (x : Q) :
  data_at t 0 col = Ok x <->
  exists point, 0 <= col /\ t !! Z.to_nat col = Some point /\
                point !! 0%nat = Some x.
Proof.
  unfold data_at. rewrite bind_Ok. split.
  - intros (point & Hp & Hx). apply at_Ok in Hp as [? ?].
    apply at_Ok in Hx as [_ Hx]. eauto.
  - intros (point & ? & ? & ?). exists point. rewrite !at_Ok. done.
Qed.

(** ** The shuffle *)

Lemma insert_Permutation (v : list Z) (j : nat) (a b : Z) :
  v !! j = Some b -> b :: <[j := a]> v ≡ₚ a :: v.
Proof.
  revert j. induction v as [| x v IH]; intros [| j]; simpl; try done.
  - intros [= ->]. apply Permutation_swap.
  - intros Hj. rewrite (Permutation_swap x b), (IH j Hj). apply Permutation_swap.
Qed.

Lemma iter_swap_Permutation (v : list Z) (i j : nat) : iter_swap v i j ≡ₚ v.
Proof.
  unfold iter_swap.
  destruct (v !! i) as [a |] eqn:Hi; [| done].
  destruct (v !! j) as [b |] eqn:Hj; [| done].
  destruct (decide (i = j)) as [-> | Hne].
  - rewrite list_insert_insert_eq. replace b with a by congruence.
    by rewrite list_insert_id.
  - apply (Permutation_cons_inv (a := a)).
    rewrite insert_Permutation.
    + by apply insert_Permutation.
    + by rewrite list_lookup_insert_ne.
Qed.

Lemma random_shuffle_Permutation (rand : nat -> nat) (v : list Z) :
  random_shuffle rand v ≡ₚ v.
Proof.
  unfold random_shuffle. generalize (seq 1 (length v - 1)). intros steps.
  revert v. induction steps as [| i steps IH]; intros v; simpl; [done |].
  rewrite IH. case_decide; [done | apply iter_swap_Permutation].
Qed.

Lemma length_resize (n : nat) (v : list Z) : length (resize n v) = n.
Proof. unfold resize. rewrite length_app, length_take, length_replicate. lia. Qed.

Lemma fill_indices_app (pre rest : list Z) :
  pre = Z.of_nat <$> seq 0 (length pre) ->
  fold_left (fun v i => <[i := Z.of_nat i]> v)
    (seq (length pre) (length rest)) (pre ++ rest)
  = Z.of_nat <$> seq 0 (length pre + length rest).
Proof.
  revert pre. induction rest as [| x rest IH]; intros pre Hpre; simpl.
  - by rewrite Nat.add_0_r, app_nil_r.
  - rewrite insert_app_r_alt, Nat.sub_diag by lia. simpl.
    replace (pre ++ Z.of_nat (length pre) :: rest)
      with ((pre ++ [Z.of_nat (length pre)]) ++ rest)
      by (by rewrite <- app_assoc).
    replace (S (length pre)) with (length (pre ++ [Z.of_nat (length pre)]))
      by (rewrite length_app; simpl; lia).
    rewrite IH.
    + f_equal. f_equal. rewrite length_app. simpl. lia.
    + rewrite length_app. simpl. rewrite Nat.add_1_r, seq_S, fmap_app.
      simpl. by rewrite <- Hpre.
Qed.

Lemma fill_indices (v : list Z) :
  fold_left (fun v i => <[i := Z.of_nat i]> v) (seq 0 (length v)) v
  = Z.of_nat <$> seq 0 (length v).
Proof. apply (fill_indices_app [] v). done. Qed.

(** ** The phases of [Init] *)

Lemma subtract_ones_Ok (this this' : DCMTable) :
  subtract_ones this = Ok this' ->
  exists d, this' = set_decisions_table d this /\
    length d = length (decisions_table_ this) /\
    forall i point, decisions_table_ this !! i = Some point ->
      exists x, point !! 0%nat = Some x /\
                d !! i = Some (<[0%nat := (x - 1)%Q]> point).
Proof.
  unfold subtract_ones. intros H. inv_Ok. subst this'. rename a into d.
  exists d. split; [done |].
  set (d0 := decisions_table_ this) in *.
  pose (Inv := fun (k : nat) (d : Table) =>
    length d = length d0 /\
    (forall i point, (i < k)%nat -> d0 !! i = Some point ->
       exists x, point !! 0%nat = Some x /\
                 d !! i = Some (<[0%nat := (x - 1)%Q]> point)) /\
    (forall i, (k <= i)%nat -> d !! i = d0 !! i)).
  assert (Inv (0 + length d0)%nat d) as (Hlen & Hdone & _).
  { eapply (for_loop_invariant Inv); [| | exact Ha].
    - split; [done |]. split; [intros; lia | done].
    - clear. intros i d d' Hi (Hlen & Hdone & Hrest) Hbody. inv_Ok.
      rename a into point. rename a0 into x. subst d'.
      apply get_Ok in Ha. apply at_0 in Ha0.
      split; [| split].
      + by rewrite length_insert.
      + intros j q Hj Hq. destruct (decide (j = i)) as [-> | Hne].
        * rewrite Hrest in Ha by lia. replace q with point by congruence.
          exists x. split; [done |]. apply list_lookup_insert_eq.
          apply lookup_lt_Some in Hq. lia.
        * rewrite list_lookup_insert_ne by done. apply Hdone; [lia | done].
      + intros j Hj. rewrite list_lookup_insert_ne by lia. apply Hrest. lia. }
  split; [done |]. intros i point Hi. apply Hdone; [| done].
  apply lookup_lt_Some in Hi. simpl. lia.
Qed.

Lemma accumulate_choices_Ok (this this' : DCMTable) :
  accumulate_choices this = Ok this' ->
  exists c, this' = set_cumulative c this /\
    length c = length (decisions_table_ this) /\
    c !! 0%nat = Some 0 /\
    forall i, (S i < length c)%nat ->
      exists ci point x m,
        c !! i = Some ci /\
        num_alternatives_table_ this !! i = Some point /\
        point !! 0%nat = Some x /\
        static_cast_int x = Ok m /\
        INT_MIN <= ci + m <= INT_MAX /\
        c !! S i = Some (ci + m).
Proof.
  unfold accumulate_choices. intros H. inv_Ok. subst this'.
  rename a into c0. rename a0 into c. exists c. split; [done |].
  case_decide as Hpos; [| done]. inv_Ok. rewrite length_resize in Hpos.
  set (n := length (decisions_table_ this)) in *.
  set (alts := num_alternatives_table_ this) in *.
  assert (length c0 = n) as Hlen0.
  { rewrite <- Ha. by rewrite length_insert, length_resize. }
  assert (c0 !! 0%nat = Some 0) as Hzero.
  { rewrite <- Ha. apply list_lookup_insert_eq. rewrite length_resize. lia. }
  clear Ha.
  pose (Inv := fun (k : nat) (c : list Z) =>
    length c = n /\ c !! 0%nat = Some 0 /\
    forall i, (S i < k)%nat ->
      exists ci point x m,
        c !! i = Some ci /\ alts !! i = Some point /\
        point !! 0%nat = Some x /\ static_cast_int x = Ok m /\
        INT_MIN <= ci + m <= INT_MAX /\
        c !! S i = Some (ci + m)).
  assert (Inv (1 + (length c0 - 1))%nat c) as (Hlen & Hz & Hsteps).
  { eapply (for_loop_invariant Inv); [| | exact Ha0].
    - split; [done |]. split; [done |]. intros i Hi; lia.
    - clear -Hlen0. intros i c1 c2 Hi (Hlen & Hz & Hsteps) Hbody. inv_Ok.
      rename a into point, a0 into x, a1 into m, a2 into prev, a3 into s.
      subst c2. apply get_Ok in Ha. apply at_0 in Ha0.
      apply at_of_nat in Ha2. apply int_add_Ok in Ha3 as [-> Hrange].
      split; [| split].
      + by rewrite length_insert.
      + rewrite list_lookup_insert_ne by lia. done.
      + intros j Hj. destruct (decide (S j = i)) as [<- | Hne].
        * exists prev, point, x, m. simpl in Ha, Ha2.
          rewrite Nat.sub_0_r in Ha, Ha2.
          rewrite list_lookup_insert_ne by lia.
          rewrite list_lookup_insert_eq by lia. done.
        * destruct (Hsteps j) as (ci & q & y & k & ? & ? & ? & ? & ? & ?);
            [lia |].
          exists ci, q, y, k. rewrite !list_lookup_insert_ne by lia. done. }
  split; [done |]. split; [done |]. intros i Hi. apply Hsteps. lia.
Qed.

Lemma num_discrete_choices_Ok (this : DCMTable) (p m : Z) :
  num_discrete_choices this p = Ok m <->
  exists point x, 0 <= p /\
    num_alternatives_table_ this !! Z.to_nat p = Some point /\
    point !! 0%nat = Some x /\ static_cast_int x = Ok m.
Proof.
  unfold num_discrete_choices. rewrite bind_Ok. split.
  - intros (x & Hx & Hm). apply data_at_Ok in Hx as (point & ? & ? & ?).
    by exists point, x.
  - intros (point & x & ? & ? & ? & ?). exists x. split; [| done].
    apply data_at_Ok. by exists point.
Qed.

Lemma get_discrete_choice_index_Ok (this : DCMTable) (p k : Z) :
  get_discrete_choice_index this p = Ok k <->
  exists point x, 0 <= p /\
    decisions_table_ this !! Z.to_nat p = Some point /\
    point !! 0%nat = Some x /\ static_cast_int x = Ok k.
Proof.
  unfold get_discrete_choice_index. rewrite bind_Ok. split.
  - intros (x & Hx & Hm). apply data_at_Ok in Hx as (point & ? & ? & ?).
    by exists point, x.
  - intros (point & x & ? & ? & ? & ?). exists x. split; [| done].
    apply data_at_Ok. by exists point.
Qed.

Lemma check_total_eval (this : DCMTable) (last m : Z) :
  at_ (cumulative_num_discrete_choices_ this) (num_people this - 1) = Ok last ->
  num_discrete_choices this (num_people this - 1) = Ok m ->
  in_int (last + m) = true ->
  check_total this =
    if decide (last + m <> n_entries (attribute_table_ this))
    then Exit 0 mismatch_message else Ok this.
Proof.
  unfold num_people. intros Hlast Hm Hint.
  apply at_Ok in Hlast as [Hpos Hlast].
  apply num_discrete_choices_Ok in Hm as (point & x & _ & Hpoint & Hx & Hm).
  replace (Z.to_nat (Z.of_nat (length (cumulative_num_discrete_choices_ this)) - 1))
    with (length (cumulative_num_discrete_choices_ this) - 1)%nat
    in Hlast, Hpoint by lia.
  apply get_Ok in Hpoint. unfold check_total. rewrite Hpoint. simpl.
  apply at_0 in Hx. rewrite Hx. simpl. rewrite Hm. simpl.
  apply at_of_nat in Hlast. rewrite Hlast. simpl.
  unfold int_add. rewrite Hint. simpl. done.
Qed.

Lemma check_total_Ok (this this' : DCMTable) :
  check_total this = Ok this' ->
  this' = this /\
  exists last m,
    cumulative_num_discrete_choices_ this
      !! (length (cumulative_num_discrete_choices_ this) - 1)%nat = Some last /\
    num_discrete_choices this
      (Z.of_nat (length (cumulative_num_discrete_choices_ this) - 1)) = Ok m /\
    last + m = n_entries (attribute_table_ this).
Proof.
  unfold check_total. intros H. inv_Ok.
  rename a into point, a0 into x, a1 into m, a2 into last, a3 into total.
  case_decide as Hne; [done |]. inv_Ok. split; [done |].
  apply get_Ok in Ha. apply at_0 in Ha0.
  apply at_of_nat in Ha2. apply int_add_Ok in Ha3 as [-> _].
  exists last, m. split; [done |]. split.
  - apply num_discrete_choices_Ok. exists point, x.
    rewrite Nat2Z.id. split; [lia | done].
  - destruct (decide (last + m = n_entries (attribute_table_ this))); [done |].
    by destruct Hne.
Qed.

(** *** Counting *)

Lemma max_num_alternatives_Ok (this : DCMTable) (T : Z) :
  max_num_alternatives this = Ok T ->
  0 <= T /\
  (forall i point, num_alternatives_table_ this !! i = Some point ->
     exists m, num_discrete_choices this (Z.of_nat i) = Ok m /\ m <= T) /\
  (T = 0 \/ exists i, (i < length (num_alternatives_table_ this))%nat /\
                      num_discrete_choices this (Z.of_nat i) = Ok T).
Proof.
  unfold max_num_alternatives. intros H.
  set (alts := num_alternatives_table_ this) in *.
  pose (Inv := fun (k : nat) (T : Z) =>
    0 <= T /\
    (forall i point, (i < k)%nat -> alts !! i = Some point ->
       exists m, num_discrete_choices this (Z.of_nat i) = Ok m /\ m <= T) /\
    (T = 0 \/ exists i, (i < k)%nat /\
                        num_discrete_choices this (Z.of_nat i) = Ok T)).
  assert (Inv (0 + length alts)%nat T) as (Hpos & Hall & Hsome).
  { eapply (for_loop_invariant Inv); [| | exact H].
    - split; [done |]. split; [intros; lia | by left].
    - clear. intros i T T' Hi (Hpos & Hall & Hsome) Hbody. inv_Ok.
      rename a into point, a0 into x, a1 into n. subst T'.
      apply get_Ok in Ha. apply at_0 in Ha0.
      assert (num_discrete_choices this (Z.of_nat i) = Ok n) as Hn.
      { apply num_discrete_choices_Ok. exists point, x.
        rewrite Nat2Z.id. split; [lia | done]. }
      split; [lia |]. split.
      + intros j q Hj Hq. destruct (decide (j = i)) as [-> | Hne].
        * exists n. split; [done | lia].
        * destruct (Hall j q) as (m & ? & ?); [lia | done |].
          exists m. split; [done | lia].
      + destruct (Z.max_spec T n) as [[? ->] | [? ->]].
        * right. exists i. split; [lia | done].
        * destruct Hsome as [-> | (j & ? & ?)]; [by left |].
          right. exists j. split; [lia | done]. }
  split; [done |]. split; [| done].
  intros i point Hi. apply (Hall i point); [| done].
  apply lookup_lt_Some in Hi. simpl. lia.
Qed.

Lemma people_choosing_S (this : DCMTable) (k : Z) (n : nat) :
  people_choosing this k (S n) =
  people_choosing this k n + (if chose this k n then 1 else 0).
Proof.
  unfold people_choosing. rewrite seq_S, List.filter_app, length_app. simpl.
  destruct (chose this k n); simpl; lia.
Qed.

Lemma sum_int_insert (v : list Z) (k : nat) (a b : Z) :
  v !! k = Some a -> sum_int (<[k := b]> v) = sum_int v - a + b.
Proof.
  revert k. induction v as [| x v IH]; intros [| k]; simpl; try done.
  - intros [= ->]. lia.
  - intros Hk. rewrite (IH k Hk). lia.
Qed.

Lemma sum_int_replicate (n : nat) : sum_int (replicate n 0) = 0.
Proof. induction n as [| n IH]; simpl; [done | by rewrite IH]. Qed.

Lemma chose_true (this : DCMTable) (k : Z) (i : nat) :
  chose this k i = true <-> get_discrete_choice_index this (Z.of_nat i) = Ok k.
Proof.
  unfold chose.
  destruct (get_discrete_choice_index this (Z.of_nat i)) as [k' | | |];
    try (split; [discriminate | discriminate]).
  rewrite Z.eqb_eq. split; [by intros -> | by intros [= ->]].
Qed.

Lemma count_people_Ok (this this' : DCMTable) :
  count_people this = Ok this' ->
  exists T v,
    max_num_alternatives this = Ok T /\
    this' = set_per_choice v this /\
    length v = Z.to_nat T /\
    (forall k, (k < length v)%nat ->
       v !! k = Some (people_choosing this (Z.of_nat k)
                        (length (shuffled_indices_for_person_ this)))) /\
    sum_int v = Z.of_nat (length (shuffled_indices_for_person_ this)) /\
    (forall i, (i < length (shuffled_indices_for_person_ this))%nat ->
       exists k, get_discrete_choice_index this (Z.of_nat i) = Ok k /\
                 0 <= k < T).
Proof.
  unfold count_people. intros H. inv_Ok. rename a into T, a0 into v.
  subst this'. exists T, v. split; [done |]. split; [done |].
  set (n := length (shuffled_indices_for_person_ this)) in *.
  rewrite length_resize in Ha0.
  pose (Inv := fun (j : nat) (v : list Z) =>
    length v = Z.to_nat T /\
    (forall k, (k < length v)%nat ->
       v !! k = Some (people_choosing this (Z.of_nat k) j)) /\
    sum_int v = Z.of_nat j /\
    (forall i, (i < j)%nat ->
       exists k, get_discrete_choice_index this (Z.of_nat i) = Ok k /\
                 0 <= k < T)).
  assert (Inv (0 + n)%nat v) as (Hlen & Hv & Hsum & Hidx).
  { eapply (for_loop_invariant Inv); [| | exact Ha0].
    - split; [by rewrite length_replicate |]. split; [| split].
      + intros k Hk. rewrite length_replicate in Hk.
        by rewrite lookup_replicate_2.
      + apply sum_int_replicate.
      + intros; lia.
    - clear. intros i v v' Hi (Hlen & Hv & Hsum & Hidx) Hbody. inv_Ok.
      rename a into k, a0 into b. subst v'.
      apply at_Ok in Ha0 as [Hk Hb].
      assert (Z.to_nat k < length v)%nat as Hlt by (by eapply lookup_lt_Some).
      split; [by rewrite length_insert |]. split; [| split].
      + intros j Hj. rewrite length_insert in Hj.
        rewrite people_choosing_S. destruct (decide (j = Z.to_nat k)) as [-> | Hne].
        * rewrite list_lookup_insert_eq by done.
          rewrite (Hv _ Hlt) in Hb. injection Hb as <-.
          replace (chose this (Z.of_nat (Z.to_nat k)) i) with true; [done |].
          symmetry. apply chose_true. by rewrite Z2Nat.id.
        * rewrite list_lookup_insert_ne by done. rewrite (Hv _ Hj).
          replace (chose this (Z.of_nat j) i) with false;
            [by rewrite Z.add_0_r |].
          symmetry. apply not_true_is_false. rewrite chose_true, Ha.
          intros [= ->]. lia.
      + rewrite (sum_int_insert _ _ b) by done. lia.
      + intros j Hj. destruct (decide (j = i)) as [-> | Hne].
        * exists k. split; [done | lia].
        * apply Hidx. lia. }
  split; [done |]. split; [done |]. split; [done |]. done.
Qed.

Lemma count_people_total (this : DCMTable) (T : Z) :
  max_num_alternatives this = Ok T ->
  (forall i, (i < length (shuffled_indices_for_person_ this))%nat ->
     exists k, get_discrete_choice_index this (Z.of_nat i) = Ok k /\
               0 <= k < T) ->
  exists this', count_people this = Ok this'.
Proof.
  intros HT Hidx. unfold count_people. rewrite HT. simpl.
  rewrite length_resize.
  destruct (for_loop_total (fun _ v => length v = Z.to_nat T)
    (fun i v =>
       k <- get_discrete_choice_index this (Z.of_nat i) ;;
       b <- at_ v k ;; Ok (<[Z.to_nat k := b + 1]> v))
    (length (shuffled_indices_for_person_ this)) 0
    (replicate (Z.to_nat T) 0)) as (v & Hrun & _).
  - by rewrite length_replicate.
  - intros i v Hi Hlen. destruct (Hidx i) as (k & Hk & Hrange); [lia |].
    rewrite Hk. simpl.
    destruct (lookup_lt_is_Some_2 v (Z.to_nat k)) as [b Hb]; [lia |].
    assert (at_ v k = Ok b) as -> by (apply at_Ok; split; [lia | done]).
    simpl. eexists. split; [done |]. by rewrite length_insert.
  - rewrite Hrun. simpl. by eexists.
Qed.

Lemma count_people_no_Exit (this : DCMTable) s e :
  count_people this <> Exit s e.
Proof.
  assert (forall x, static_cast_int x <> @Exit Z s e) as Hcast.
  { intros x. unfold static_cast_int. by case (in_int _). }
  assert (forall p, get_discrete_choice_index this p <> Exit s e) as Hidx.
  { intros p H. apply bind_Exit in H as [H | (x & _ & H)].
    - apply bind_Exit in H as [H | (y & _ & H)]; by apply at_no_Exit in H.
    - by apply Hcast in H. }
  unfold count_people. intros H.
  apply bind_Exit in H as [H | (T & _ & H)].
  - revert H. apply for_loop_no_Exit. intros i T H.
    apply bind_Exit in H as [H | (point & _ & H)].
    { by apply at_no_Exit in H. }
    apply bind_Exit in H as [H | (x & _ & H)]; [by apply at_no_Exit in H |].
    apply bind_Exit in H as [H | (n & _ & H)]; [by apply Hcast in H | done].
  - apply bind_Exit in H as [H | (v & _ & H)]; [| done].
    revert H. apply for_loop_no_Exit. intros i v H.
    apply bind_Exit in H as [H | (k & _ & H)]; [by apply Hidx in H |].
    apply bind_Exit in H as [H | (b & _ & H)]; [by apply at_no_Exit in H | done].
Qed.

(** *** What [Init] establishes *)

Lemma Init_index_Ok (rand : nat -> nat) (attr : Table) (dims : list Z)
    (dec alts : Table) (this t : DCMTable) :
  Init_index rand attr dims dec alts this = Ok t -> indexed attr dec alts t.
Proof.
  unfold Init_index. intros H. inv_Ok. rename a into t0.
  apply subtract_ones_Ok in Ha as (d & -> & Hlen & Hd). simpl in Hlen, Hd.
  apply accumulate_choices_Ok in H as (c & -> & Hc & Hzero & Hnext).
  simpl in Hc, Hnext. split; simpl; try done.
  - rewrite random_shuffle_Permutation, fill_indices, length_resize.
    by rewrite Hlen.
  - by rewrite Hc.
  - intros i Hi. destruct (Hnext i) as (ci & point & x & m & ? & ? & ? & ? & _ & ?);
      [lia |].
    exists ci, m. split; [done |]. split; [| done].
    apply num_discrete_choices_Ok. exists point, x. rewrite Nat2Z.id.
    split; [lia | done].
Qed.

Lemma Init_Ok (rand : nat -> nat) (attr : Table) (dims : list Z)
    (dec alts : Table) (this st : DCMTable) :
  Init rand attr dims dec alts this = Ok st ->
  exists t,
    Init_index rand attr dims dec alts this = Ok t /\
    check_total t = Ok t /\
    count_people t = Ok st /\
    indexed attr dec alts st.
Proof.
  unfold Init. intros H. inv_Ok. rename a into t, a0 into t'.
  destruct (check_total_Ok _ _ Ha0) as [-> _].
  exists t. split; [done |]. split; [done |]. split; [done |].
  destruct (count_people_Ok _ _ H) as (T & v & _ & -> & _).
  apply Init_index_Ok in Ha. destruct Ha. by split.
Qed.

Lemma indexed_num_people (attr dec alts : Table) (t : DCMTable) :
  indexed attr dec alts t -> num_people t = n_entries dec.
Proof. intros H. unfold num_people, n_entries. by rewrite (indexed_length _ _ _ _ H). Qed.

(** *** [Init] on valid input *)

Lemma sum_int_app (u v : list Z) : sum_int (u ++ v) = sum_int u + sum_int v.
Proof. induction u as [| x u IH]; simpl; [done | rewrite IH; lia]. Qed.

Lemma sum_int_take (v : list Z) (i : nat) :
  Forall (fun n => 0 <= n) v -> 0 <= sum_int (take i v) <= sum_int v.
Proof.
  intros Hv. rewrite <- (take_drop i v) at 3. rewrite sum_int_app.
  assert (forall u, Forall (fun n => 0 <= n) u -> 0 <= sum_int u) as Hpos.
  { induction 1; simpl; lia. }
  pose proof (Hpos (take i v) ltac:(by apply Forall_take)).
  pose proof (Hpos (drop i v) ltac:(by apply Forall_drop)). lia.
Qed.

Lemma subtract_ones_total (this : DCMTable) :
  (forall point, point ∈ decisions_table_ this -> point <> []) ->
  exists this', subtract_ones this = Ok this'.
Proof.
  intros Hne. unfold subtract_ones.
  set (d0 := decisions_table_ this) in *.
  destruct (for_loop_total
    (fun k (d : Table) =>
       length d = length d0 /\ forall i, (k <= i)%nat -> d !! i = d0 !! i)
    (fun i d =>
       point <- get d (Z.of_nat i) ;;
       x <- at_ point 0 ;;
       Ok (<[i := <[0%nat := (x - 1)%Q]> point]> d))
    (length d0) 0 d0) as (d & Hrun & _).
  - done.
  - intros i d Hi [Hlen Hrest].
    destruct (lookup_lt_is_Some_2 d0 i) as [point Hpoint]; [lia |].
    assert (get d (Z.of_nat i) = Ok point) as ->
      by (apply get_Ok; by rewrite Hrest).
    simpl. destruct point as [| x point].
    { exfalso. eapply Hne; [| done]. by eapply list_elem_of_lookup_2. }
    simpl. eexists. split; [done |]. split; [by rewrite length_insert |].
    intros j Hj. rewrite list_lookup_insert_ne by lia. apply Hrest. lia.
  - rewrite Hrun. simpl. by eexists.
Qed.

Lemma accumulate_choices_total (this : DCMTable) (counts : list Z) :
  (0 < length (decisions_table_ this))%nat ->
  length counts = length (decisions_table_ this) ->
  Forall2 (fun point n =>
             exists x, point !! 0%nat = Some x /\ static_cast_int x = Ok n)
    (num_alternatives_table_ this) counts ->
  Forall (fun n => 0 <= n) counts ->
  sum_int counts <= INT_MAX ->
  exists c,
    accumulate_choices this = Ok (set_cumulative c this) /\
    length c = length counts /\
    forall i, (i < length c)%nat -> c !! i = Some (sum_int (take i counts)).
Proof.
  intros Hpos Hlen Halts Hcounts Hmax. unfold accumulate_choices.
  set (n := length (decisions_table_ this)) in *.
  rewrite length_resize. rewrite decide_True by done. simpl.
  rewrite length_insert, length_resize.
  destruct (for_loop_total
    (fun k (c : list Z) =>
       length c = n /\
       forall i, (i < k)%nat -> c !! i = Some (sum_int (take i counts)))
    (fun i c =>
       point <- get (num_alternatives_table_ this) (Z.of_nat (i - 1)) ;;
       x <- at_ point 0 ;;
       num_choices_for_current_person <- static_cast_int x ;;
       prev <- at_ c (Z.of_nat (i - 1)) ;;
       s <- int_add prev num_choices_for_current_person ;;
       Ok (<[i := s]> c))
    (n - 1) 1
    (<[0%nat := 0]> (resize n (cumulative_num_discrete_choices_ this))))
    as (c & Hrun & Hc & Hsums).
  - split; [by rewrite length_insert, length_resize |].
    intros i Hi. replace i with 0%nat by lia.
    rewrite list_lookup_insert_eq by (rewrite length_resize; lia). done.
  - intros i c Hi [Hc Hsums].
    destruct (lookup_lt_is_Some_2 counts (i - 1)) as [m Hm]; [lia |].
    destruct (Forall2_lookup_r _ _ _ _ _ Halts Hm)
      as (point & Hpoint & x & Hx & Hcast).
    apply get_Ok in Hpoint. rewrite Hpoint. simpl.
    apply at_0 in Hx. rewrite Hx. simpl. rewrite Hcast. simpl.
    assert (at_ c (Z.of_nat (i - 1)) = Ok (sum_int (take (i - 1) counts)))
      as -> by (apply at_of_nat, Hsums; lia).
    simpl.
    assert (sum_int (take (i - 1) counts) + m = sum_int (take i counts))
      as Hstep.
    { replace i with (S (i - 1)) at 2 by lia.
      rewrite (take_S_r _ _ _ Hm), sum_int_app. simpl. lia. }
    pose proof (sum_int_take counts i Hcounts).
    assert (int_add (sum_int (take (i - 1) counts)) m
            = Ok (sum_int (take i counts))) as ->.
    { apply int_add_Ok. split; [done |]. rewrite Hstep.
      unfold INT_MIN, INT_MAX in *. lia. }
    simpl. eexists. split; [done |]. split; [by rewrite length_insert |].
    intros j Hj. destruct (decide (j = i)) as [-> | Hne].
    + rewrite list_lookup_insert_eq by lia. done.
    + rewrite list_lookup_insert_ne by done. apply Hsums. lia.
  - exists c. rewrite Hrun. simpl. split; [done |]. split; [lia |].
    intros i Hi. apply Hsums. lia.
Qed.

Lemma max_num_alternatives_total (this : DCMTable) (counts : list Z) :
  Forall2 (fun point n =>
             exists x, point !! 0%nat = Some x /\ static_cast_int x = Ok n)
    (num_alternatives_table_ this) counts ->
  exists T, max_num_alternatives this = Ok T.
Proof.
  intros Halts. unfold max_num_alternatives.
  destruct (for_loop_total (fun _ (_ : Z) => True)
    (fun i total_num_discrete_choices =>
       point <- get (num_alternatives_table_ this) (Z.of_nat i) ;;
       x <- at_ point 0 ;;
       n <- static_cast_int x ;;
       Ok (Z.max total_num_discrete_choices n))
    (length (num_alternatives_table_ this)) 0 0) as (T & Hrun & _).
  - done.
  - intros i T Hi _.
    destruct (lookup_lt_is_Some_2 (num_alternatives_table_ this) i)
      as [point Hpoint]; [lia |].
    destruct (Forall2_lookup_l _ _ _ _ _ Halts Hpoint)
      as (m & _ & x & Hx & Hcast).
    apply get_Ok in Hpoint. rewrite Hpoint. simpl.
    apply at_0 in Hx. rewrite Hx. simpl. rewrite Hcast. simpl. by eexists.
  - by exists T.
Qed.

Lemma trunc_sub_one (x : Q) : (1 <= x)%Q -> trunc (x - 1) = trunc x - 1.
Proof.
  destruct x as [a d]. unfold Qle, trunc. simpl. intros H.
  rewrite Pos.mul_1_r. rewrite !Z.quot_div_nonneg by lia.
  rewrite Z.mul_1_r, Z.div_add by lia. lia.
Qed.

Lemma trunc_bounds (x : Q) (n : Z) :
  (1 <= x)%Q -> (x <= inject_Z n)%Q -> 1 <= trunc x <= n.
Proof.
  destruct x as [a d]. unfold Qle, trunc. simpl. intros H1 Hn.
  rewrite Z.quot_div_nonneg by lia. split.
  - apply Z.div_le_lower_bound; lia.
  - apply Z.div_le_upper_bound; lia.
Qed.

(** [Init] completes on every valid input, whatever the generator returns
    and whatever the table held before. *)
Lemma Init_total (rand : nat -> nat) (attr : Table) (dims : list Z)
    (dec alts : Table) (this : DCMTable) :
  valid_input attr dec alts ->
  exists st, Init rand attr dims dec alts this = Ok st.
Proof.
  intros (Hpos & Hmax & counts & Halts & Hdec & Hsum).
  pose proof (Forall2_length _ _ _ Halts) as Hlen_alts.
  pose proof (Forall2_length _ _ _ Hdec) as Hlen_dec.
  assert (Forall (fun n => 1 <= n) counts) as Hone.
  { apply Forall_lookup. intros i n Hn.
    destruct (Forall2_lookup_r _ _ _ _ _ Hdec Hn) as (_ & _ & x & _ & H1 & Hx).
    pose proof (Qle_trans _ _ _ H1 Hx) as H1n.
    unfold Qle in H1n. simpl in H1n. lia. }
  assert (Forall (fun n => 0 <= n) counts) as Hnonneg.
  { eapply Forall_impl; [exact Hone |]. simpl. intros; lia. }
  (* lines 295-306 *)
  destruct (subtract_ones_total (set_tables attr dims dec alts this))
    as (t0 & Ht0).
  { simpl. intros point Hin ->.
    apply list_elem_of_lookup_1 in Hin as (i & Hi).
    by destruct (Forall2_lookup_l _ _ _ _ _ Hdec Hi) as (_ & _ & x & ? & _). }
  destruct (subtract_ones_Ok _ _ Ht0) as (d & -> & Hlen_d & _).
  simpl in Hlen_d.
  (* lines 308-337 *)
  destruct (accumulate_choices_total
    (shuffle_people rand
       (set_distribution (Distribution_Init dims)
          (set_decisions_table d (set_tables attr dims dec alts this))))
    counts) as (c & Hacc & Hlen_c & Hsums); simpl; try done; try lia.
  set (t := set_cumulative c _) in Hacc.
  assert (Init_index rand attr dims dec alts this = Ok t) as Hindex.
  { unfold Init_index. rewrite Ht0. simpl. exact Hacc. }
  pose proof (Init_index_Ok _ _ _ _ _ _ _ Hindex) as Ht.
  (* lines 339-356 *)
  set (n := length dec) in *.
  destruct (lookup_lt_is_Some_2 counts (n - 1)) as [m Hm]; [lia |].
  destruct (Forall2_lookup_r _ _ _ _ _ Halts Hm)
    as (point & Hpoint & x & Hx & Hcast).
  assert (sum_int (take (n - 1) counts) + m = n_entries attr) as Htotal.
  { rewrite <- Hsum. rewrite <- (firstn_all counts) at 2.
    replace (length counts) with (S (n - 1)) by lia.
    rewrite (take_S_r _ _ _ Hm), sum_int_app. simpl. lia. }
  assert (check_total t = Ok t) as Hcheck.
  { rewrite (check_total_eval t (sum_int (take (n - 1) counts)) m).
    - rewrite (indexed_attributes _ _ _ _ Ht), Htotal.
      by rewrite decide_False by (by intros ?).
    - unfold num_people. simpl. rewrite Hlen_c.
      replace (Z.of_nat (length counts) - 1) with (Z.of_nat (n - 1)) by lia.
      apply at_of_nat, Hsums. lia.
    - unfold num_people. simpl. rewrite Hlen_c.
      replace (Z.of_nat (length counts) - 1) with (Z.of_nat (n - 1)) by lia.
      apply num_discrete_choices_Ok. exists point, x. rewrite Nat2Z.id.
      split; [lia | done].
    - apply in_int_spec. rewrite Htotal. unfold n_entries, INT_MIN in *. lia. }
  (* lines 358-373 *)
  destruct (max_num_alternatives_total t counts Halts) as (T & HT).
  destruct (count_people_total t T HT) as (st & Hst).
  { intros i Hi.
    rewrite (indexed_shuffled _ _ _ _ Ht), length_fmap, length_seq in Hi.
    destruct (lookup_lt_is_Some_2 dec i) as [q Hq]; [done |].
    destruct (Forall2_lookup_l _ _ _ _ _ Hdec Hq)
      as (k & Hk & y & Hy & H1 & Hyk).
    destruct (indexed_decisions _ _ _ _ Ht i q Hq) as (y' & Hy' & Hnew).
    replace y' with y in * by congruence.
    destruct (Forall2_lookup_r _ _ _ _ _ Halts Hk)
      as (a & Ha & z & Hz & Hcastz).
    destruct (max_num_alternatives_Ok _ _ HT) as (_ & Hall & _).
    destruct (Hall i a Ha) as (k' & Hk' & Hle).
    assert (num_discrete_choices t (Z.of_nat i) = Ok k) as Hki.
    { apply num_discrete_choices_Ok. exists a, z. rewrite Nat2Z.id.
      split; [lia | done]. }
    rewrite Hki in Hk'. injection Hk' as <-.
    pose proof (trunc_bounds y k H1 Hyk).
    pose proof (trunc_sub_one y H1).
    apply static_cast_int_Ok in Hcastz as [-> Hrange].
    exists (trunc (y - 1)). split; [| lia].
    apply get_discrete_choice_index_Ok.
    exists (<[0%nat := (y - 1)%Q]> q), (y - 1)%Q. rewrite Nat2Z.id.
    split; [lia |]. split; [done |]. split.
    - apply list_lookup_insert_eq. by eapply lookup_lt_Some.
    - apply static_cast_int_Ok. split; [done |].
      unfold INT_MIN, INT_MAX in *. lia. }
  exists st. unfold Init. rewrite Hindex. simpl. rewrite Hcheck. simpl.
  exact Hst.
Qed.

Lemma decisions_in_range_lookup (dec : Table) (st : DCMTable) (p : nat)
    (point : vec) :
  decisions_in_range dec st = true ->
  dec !! p = Some point ->
  exists x n, point !! 0%nat = Some x /\
    num_discrete_choices st (Z.of_nat p) = Ok n /\
    (1 <= x)%Q /\ (x <= inject_Z n)%Q.
Proof.
  unfold decisions_in_range. rewrite forallb_forall. intros Hall Hp.
  specialize (Hall (p, point)). unfold decision_in_range in Hall. simpl in Hall.
  destruct (point !! 0%nat) as [x |].
  2: { discriminate Hall. apply list_elem_of_In.
       apply list_elem_of_lookup. exists p. by rewrite list_lookup_imap, Hp. }
  destruct (num_discrete_choices st (Z.of_nat p)) as [n | | |].
  2-4: discriminate Hall; apply list_elem_of_In;
       apply list_elem_of_lookup; exists p; by rewrite list_lookup_imap, Hp.
  exists x, n. rewrite <- !Qle_bool_iff. apply andb_true_iff in Hall; [done |].
  apply list_elem_of_In. apply list_elem_of_lookup. exists p.
  by rewrite list_lookup_imap, Hp.
Qed.

(** The scenario is a valid input. *)
Example scenario_valid_input :
  valid_input scenario_attributes scenario_decisions scenario_alternatives.
Proof.
  split; [simpl; lia |]. split; [by vm_compute |]. exists [2; 3].
  split; [| split; [| reflexivity]].
  - repeat constructor; eexists; (split; [reflexivity | by vm_compute]).
  - repeat constructor; eexists;
      (split; [reflexivity | split; by vm_compute]).
Qed.

(** ** Choice probabilities *)

Lemma std_max_l (a b : Q) : (a <= std_max a b)%Q.
Proof.
  unfold std_max. destruct (Qcompare_spec a b) as [H | H | H].
  - apply Qle_refl.
  - by apply Qlt_le_weak.
  - apply Qle_refl.
Qed.

Lemma std_max_r (a b : Q) : (b <= std_max a b)%Q.
Proof.
  unfold std_max. destruct (Qcompare_spec a b) as [H | H | H].
  - rewrite H. apply Qle_refl.
  - apply Qle_refl.
  - by apply Qlt_le_weak.
Qed.

Lemma std_max_cases (a b : Q) : std_max a b = a \/ std_max a b = b.
Proof. unfold std_max. destruct (a ?= b)%Q; auto. Qed.

Lemma set_size_Ok (n : Z) (v : vec) :
  set_size n = Ok v <-> 0 <= n /\ v = replicate (Z.to_nat n) 0%Q.
Proof.
  unfold set_size. destruct (Z.ltb_spec n 0); split.
  - done.
  - intros [? _]. lia.
  - by intros [= <-].
  - by intros [_ ->].
Qed.

Lemma choice_scores_Ok (this : DCMTable) (p : Z) (beta : vec) (n : Z)
    (v scores : vec) (m : Q) :
  length v = Z.to_nat n ->
  choice_scores this p beta n v = Ok (scores, m) ->
  length scores = Z.to_nat n /\
  (forall a s, scores !! a = Some s ->
     (exists attr, get_attribute_vector this p (Z.of_nat a) = Ok attr /\
                   dot beta attr = Ok s) /\
     (s <= m)%Q) /\
  (m = (- DBL_MAX)%Q \/ exists a, scores !! a = Some m).
Proof.
  unfold choice_scores. intros Hv H.
  pose (Inv := fun (k : nat) (sm : vec * Q) =>
    length sm.1 = Z.to_nat n /\
    (forall a s, (a < k)%nat -> sm.1 !! a = Some s ->
       (exists attr, get_attribute_vector this p (Z.of_nat a) = Ok attr /\
                     dot beta attr = Ok s) /\
       (s <= sm.2)%Q) /\
    (sm.2 = (- DBL_MAX)%Q \/ exists a, (a < k)%nat /\ sm.1 !! a = Some sm.2)).
  assert (Inv (0 + Z.to_nat n)%nat (scores, m)) as (Hlen & Hall & Hmax).
  { eapply (for_loop_invariant Inv); [| | exact H].
    - split; [done |]. split; [intros; lia | by left].
    - clear. intros i [cp mx] [cp' mx'] Hi (Hlen & Hall & Hmax) Hbody.
      simpl in *. inv_Ok. rename a into attr, a0 into d. simplify_eq.
      unfold Inv. simpl.
      split; [by rewrite length_insert |]. split.
      + intros a s Ha1 Hs. destruct (decide (a = i)) as [-> | Hne].
        * rewrite list_lookup_insert_eq in Hs by lia. injection Hs as <-.
          split; [by exists attr | apply std_max_r].
        * rewrite list_lookup_insert_ne in Hs by done.
          destruct (Hall a s) as [? ?]; [lia | done |]. split; [done |].
          eapply Qle_trans; [done | apply std_max_l].
      + destruct (std_max_cases mx d) as [-> | ->].
        * destruct Hmax as [-> | (a & ? & ?)]; [by left |]. right.
          exists a. split; [lia |]. rewrite list_lookup_insert_ne by lia. done.
        * right. exists i. split; [lia |].
          rewrite list_lookup_insert_eq by lia. done. }
  simpl in *. split; [done |]. split.
  - intros a s Hs. apply Hall; [| done]. apply lookup_lt_Some in Hs. lia.
  - destruct Hmax as [? | (a & _ & ?)]; [by left | right; by exists a].
Qed.

Section ChoiceProbabilitiesFacts.

Variable exp : Q -> Q.

Lemma choice_weights_total (n : Z) (scores : vec) (m : Q) :
  length scores = Z.to_nat n ->
  exists weights sum,
    choice_weights exp n scores m = Ok (weights, sum) /\
    length weights = length scores /\
    (forall a s, scores !! a = Some s ->
       weights !! a = Some (exp (s - m + 1)%Q)) /\
    sum = fold_left Qplus weights 0%Q.
Proof.
  intros Hn. unfold choice_weights. rewrite <- Hn.
  pose (Inv := fun (k : nat) (wz : vec * Q) =>
    length wz.1 = length scores /\
    (forall a s, (a < k)%nat -> scores !! a = Some s ->
       wz.1 !! a = Some (exp (s - m + 1)%Q)) /\
    (forall a, (k <= a)%nat -> wz.1 !! a = scores !! a) /\
    wz.2 = fold_left Qplus (take k wz.1) 0%Q).
  destruct (for_loop_total Inv
    (fun discrete_choice_index '(choice_probabilities, normalizing_sum) =>
       p <- at_ choice_probabilities (Z.of_nat discrete_choice_index) ;;
       let adjusted_dot_product := (p - m + 1)%Q in
       let unnormalized_probability := exp adjusted_dot_product in
       Ok (<[discrete_choice_index := unnormalized_probability]>
             choice_probabilities,
           (normalizing_sum + unnormalized_probability)%Q))
    (length scores) 0 (scores, 0%Q))
    as ([weights sum] & Hrun & Hlen & Hw & _ & Hsum).
  - split; [done |]. split; [intros; lia |]. split; [done |]. by rewrite take_0.
  - intros i [w z] Hi (Hlen & Hw & Hrest & Hz). simpl in *.
    destruct (lookup_lt_is_Some_2 scores i) as [s Hs]; [lia |].
    assert (w !! i = Some s) as Hwi by (by rewrite Hrest).
    apply at_of_nat in Hwi as Hat. rewrite Hat. simpl.
    eexists. split; [done |]. unfold Inv. simpl.
    split; [by rewrite length_insert |]. split; [| split].
    + intros a s' Ha Hs'. destruct (decide (a = i)) as [-> | Hne].
      * rewrite list_lookup_insert_eq by lia. by replace s' with s by congruence.
      * rewrite list_lookup_insert_ne by done. apply Hw; [lia | done].
    + intros a Ha. rewrite list_lookup_insert_ne by lia. apply Hrest. lia.
    + rewrite (take_S_r _ _ (exp (s - m + 1)%Q))
        by (apply list_lookup_insert_eq; lia).
      rewrite take_insert_ge by lia. rewrite fold_left_app. simpl.
      by rewrite Hz.
  - exists weights, sum. simpl in *. split; [done |]. split; [done |].
    split.
    + intros a s Hs. apply Hw; [| done]. apply lookup_lt_Some in Hs. lia.
    + rewrite Hsum, firstn_all2 by lia. done.
Qed.

Lemma normalize_total (n : Z) (weights : vec) (sum : Q) :
  length weights = Z.to_nat n ->
  normalize n weights sum = Ok ((fun w => (w / sum)%Q) <$> weights).
Proof.
  intros Hn. unfold normalize. rewrite <- Hn.
  pose (Inv := fun (k : nat) (v : vec) =>
    length v = length weights /\
    (forall a w, (a < k)%nat -> weights !! a = Some w ->
       v !! a = Some (w / sum)%Q) /\
    (forall a, (k <= a)%nat -> v !! a = weights !! a)).
  destruct (for_loop_total Inv
    (fun discrete_choice_index choice_probabilities =>
       p <- at_ choice_probabilities (Z.of_nat discrete_choice_index) ;;
       Ok (<[discrete_choice_index := (p / sum)%Q]> choice_probabilities))
    (length weights) 0 weights) as (v & Hrun & Hlen & Hv & _).
  - split; [done |]. split; [intros; lia | done].
  - intros i v Hi (Hlen & Hv & Hrest).
    destruct (lookup_lt_is_Some_2 weights i) as [w Hw]; [lia |].
    assert (v !! i = Some w) as Hvi by (by rewrite Hrest).
    apply at_of_nat in Hvi as Hat. rewrite Hat. simpl.
    eexists. split; [done |].
    split; [by rewrite length_insert |]. split.
    + intros a w' Ha Hw'. destruct (decide (a = i)) as [-> | Hne].
      * rewrite list_lookup_insert_eq by lia. by replace w' with w by congruence.
      * rewrite list_lookup_insert_ne by done. apply Hv; [lia | done].
    + intros a Ha. rewrite list_lookup_insert_ne by lia. apply Hrest. lia.
  - rewrite Hrun. f_equal. apply list_eq. intros a.
    rewrite list_lookup_fmap. destruct (weights !! a) as [w |] eqn:Hw; simpl.
    + apply Hv; [| done]. apply lookup_lt_Some in Hw. lia.
    + apply lookup_ge_None. apply lookup_ge_None in Hw. lia.
Qed.

End ChoiceProbabilitiesFacts.

Lemma choice_probabilities_Ok (exp : Q -> Q) (this : DCMTable) (p : Z)
    (beta probs : vec) :
  choice_probabilities exp this p beta = Ok probs ->
  exists n scores m weights sum,
    num_discrete_choices this p = Ok n /\ 0 <= n /\
    choice_scores this p beta n (replicate (Z.to_nat n) 0%Q)
      = Ok (scores, m) /\
    length scores = Z.to_nat n /\
    choice_weights exp n scores m = Ok (weights, sum) /\
    length weights = Z.to_nat n /\
    (forall a s, scores !! a = Some s ->
       weights !! a = Some (exp (s - m + 1)%Q)) /\
    sum = fold_left Qplus weights 0%Q /\
    probs = (fun w => (w / sum)%Q) <$> weights.
Proof.
  unfold choice_probabilities. intros H. inv_Ok.
  rename a into n, a0 into v. destruct a1 as [scores m].
  destruct a2 as [weights sum]. simpl in *.
  apply set_size_Ok in Ha0 as [Hn ->].
  destruct (choice_scores_Ok _ _ _ _ _ _ _ (length_replicate _ _) Ha1)
    as (Hlen & _).
  destruct (choice_weights_total exp n scores m Hlen)
    as (w & z & Hw & Hlenw & Hexp & Hsum).
  rewrite Ha2 in Hw. injection Hw as <- <-.
  rewrite normalize_total in H by congruence. injection H as <-.
  exists n, scores, m, weights, sum. rewrite Hlenw. done.
Qed.

Lemma choice_probabilities_length (exp : Q -> Q) (this : DCMTable) (p : Z)
    (beta probs : vec) (n : Z) :
  choice_probabilities exp this p beta = Ok probs ->
  num_discrete_choices this p = Ok n ->
  0 <= n /\ length probs = Z.to_nat n.
Proof.
  intros H Hn.
  apply choice_probabilities_Ok in H
    as (n' & scores & m & weights & sum & Hn' & Hpos & _ & _ & _ & Hlen & _ & _ & ->).
  rewrite Hn in Hn'. injection Hn' as <-.
  split; [done |]. by rewrite length_fmap.
Qed.

(** ** The probabilities in exact arithmetic *)

Lemma fold_left_Qplus (v : vec) (a : Q) :
  (fold_left Qplus v a == a + sum_Q v)%Q.
Proof.
  revert a. induction v as [| x v IH]; intros a; simpl.
  - ring.
  - rewrite IH. unfold sum_Q. simpl. ring.
Qed.

Lemma sum_Q_div (v : vec) (z : Q) :
  (sum_Q ((fun w => w / z) <$> v) == sum_Q v / z)%Q.
Proof.
  induction v as [| x v IH]; unfold sum_Q in *; simpl.
  - unfold Qdiv. ring.
  - rewrite IH. unfold Qdiv. ring.
Qed.

Lemma sum_Q_pos (v : vec) :
  v <> [] -> (forall x, x ∈ v -> (0 < x)%Q) -> (0 < sum_Q v)%Q.
Proof.
  induction v as [| x v IH]; [done |]. intros _ Hpos. unfold sum_Q. simpl.
  assert (0 < x)%Q as Hx by (apply Hpos; left).
  destruct v as [| y v].
  - simpl. lra.
  - assert (0 < sum_Q (y :: v))%Q as Hv.
    { apply IH; [done |]. intros z Hz. apply Hpos. by right. }
    unfold sum_Q in Hv. simpl in *. lra.
Qed.

(** With exact arithmetic and a positive [exp], the result of
    [choice_probabilities] for a person with at least one discrete choice
    has one entry per discrete choice, no negative entry, and sum 1. *)
Lemma choice_probabilities_exact (exp : Q -> Q) (this : DCMTable) (p : Z)
    (beta probs : vec) (n : Z) :
  (forall x, (0 < exp x)%Q) ->
  choice_probabilities exp this p beta = Ok probs ->
  num_discrete_choices this p = Ok n ->
  0 < n ->
  length probs = Z.to_nat n /\
  (forall x, x ∈ probs -> (0 <= x)%Q) /\
  (sum_Q probs == 1)%Q.
Proof.
  intros Hexp Hprobs Hn Hpos.
  destruct (choice_probabilities_length _ _ _ _ _ _ Hprobs Hn) as [_ Hlen].
  split; [done |].
  apply choice_probabilities_Ok in Hprobs
    as (n' & scores & m & weights & sum & Hn' & _ & _ & Hlens & _ & Hlenw
        & Hweights & Hsum & ->).
  rewrite Hn in Hn'. injection Hn' as <-.
  assert (forall x, x ∈ weights -> (0 < x)%Q) as Hwpos.
  { intros x Hx. apply list_elem_of_lookup_1 in Hx as (a & Ha).
    destruct (lookup_lt_is_Some_2 scores a) as [s Hsa].
    { apply lookup_lt_Some in Ha. lia. }
    rewrite (Hweights a s Hsa) in Ha. injection Ha as <-. apply Hexp. }
  assert (0 < sum)%Q as Hsumpos.
  { rewrite Hsum, fold_left_Qplus, Qplus_0_l. apply sum_Q_pos; [| done].
    intros ->. simpl in Hlenw. lia. }
  split.
  - intros x Hx. apply list_elem_of_fmap in Hx as (w & -> & Hw0).
    apply Qlt_le_weak, Qlt_shift_div_l; [done |]. rewrite Qmult_0_l.
    by apply Hwpos.
  - rewrite sum_Q_div.
    assert (sum == sum_Q weights)%Q as <-
      by (by rewrite Hsum at 1; rewrite fold_left_Qplus, Qplus_0_l).
    apply Qmult_inv_r. intros Hz. rewrite Hz in Hsumpos.
    by apply Qlt_irrefl in Hsumpos.
Qed.

(** * The claims *)

(** C1. [total_num_discrete_choices] is the number of buckets of
    [num_people_per_discrete_choice_], which after a successful [Init] is
    the largest number of discrete choices that the alternatives table
    gives to a person (0 when none is positive); it is not, in general,
    the number of entries of the attribute table. *)
Theorem total_num_discrete_choices_is_bucket_count (rand : nat -> nat)
    (attr : Table) (dims : list Z) (dec alts : Table) (this st : DCMTable) :
  Init rand attr dims dec alts this = Ok st ->
  let total := total_num_discrete_choices st in
  total = Z.of_nat (length (num_people_per_discrete_choice_ st)) /\
  0 <= total /\
  (forall p n, num_discrete_choices st p = Ok n -> n <= total) /\
  (total = 0 \/ exists p, num_discrete_choices st p = Ok total).
Proof.
  intros H. apply Init_Ok in H as (t & _ & _ & Hcount & _). simpl.
  apply count_people_Ok in Hcount as (T & v & HT & -> & Hlen & _).
  apply max_num_alternatives_Ok in HT as (Hpos & Hall & Hsome).
  unfold total_num_discrete_choices. simpl. rewrite Hlen, Z2Nat.id by done.
  split; [done |]. split; [done |]. split.
  - intros p n Hn.
    destruct (proj1 (num_discrete_choices_Ok _ _ _) Hn)
      as (point & x & Hp & Hpoint & _).
    destruct (Hall _ _ Hpoint) as (m & Hm & Hle).
    rewrite Z2Nat.id in Hm by done.
    change (num_discrete_choices t p = Ok n) in Hn. congruence.
  - destruct Hsome as [-> | (i & _ & Hi)]; [by left |]. right. by exists (Z.of_nat i).
Qed.

(** [total_num_discrete_choices_is_bucket_count] on the scenario. *)
Lemma total_num_discrete_choices_is_bucket_count_witness :
  scenario (fun _ => 0%nat) = Ok scenario_table /\
  (total_num_discrete_choices scenario_table
     = Z.of_nat (length (num_people_per_discrete_choice_ scenario_table)) /\
   0 <= total_num_discrete_choices scenario_table /\
   (forall p n, num_discrete_choices scenario_table p = Ok n ->
      n <= total_num_discrete_choices scenario_table) /\
   (total_num_discrete_choices scenario_table = 0 \/
    exists p, num_discrete_choices scenario_table p
              = Ok (total_num_discrete_choices scenario_table))).
Proof.
  split; [vm_compute; reflexivity |].
  apply (total_num_discrete_choices_is_bucket_count (fun _ => 0%nat)
           scenario_attributes [2] scenario_decisions scenario_alternatives
           empty_table).
  vm_compute. reflexivity.
Defined.

(** C1, as stated, fails on the scenario: [Init] succeeds, the attribute
    table has 5 entries, the two people have 2 + 3 = 5 discrete choices, and
    [total_num_discrete_choices] is 3. *)
Lemma total_num_discrete_choices_not_row_count :
  scenario (fun _ => 0%nat) = Ok scenario_table /\
  n_entries (attribute_table_ scenario_table) = 5 /\
  num_discrete_choices scenario_table 0 = Ok 2 /\
  num_discrete_choices scenario_table 1 = Ok 3 /\
  total_num_discrete_choices scenario_table = 3 /\
  total_num_discrete_choices scenario_table
    <> n_entries (attribute_table_ scenario_table).
Proof. vm_compute. repeat split; done. Qed.

(** C3. After a successful [Init] the cumulative offsets start at 0, the
    offset of person [p] plus that person's number of discrete choices is
    the offset of person [p + 1] for every [p < num_people - 1], and the
    offset of the last person plus that person's number of discrete choices
    is the number of entries of the attribute table. *)
Theorem Init_cumulative_offsets (rand : nat -> nat) (attr : Table)
    (dims : list Z) (dec alts : Table) (this st : DCMTable) :
  Init rand attr dims dec alts this = Ok st ->
  let cumulative := cumulative_num_discrete_choices_ st in
  num_people st = n_entries dec /\
  at_ cumulative 0 = Ok 0 /\
  (forall p, 0 <= p < num_people st - 1 ->
     exists c n,
       at_ cumulative p = Ok c /\
       num_discrete_choices st p = Ok n /\
       at_ cumulative (p + 1) = Ok (c + n)) /\
  (exists c n,
     at_ cumulative (num_people st - 1) = Ok c /\
     num_discrete_choices st (num_people st - 1) = Ok n /\
     c + n = n_entries attr).
Proof.
  intros H. apply Init_Ok in H as (t & _ & Hcheck & Hcount & Hst). simpl.
  pose proof (indexed_num_people _ _ _ _ Hst) as Hn.
  split; [done |]. split; [by apply at_0, (indexed_first _ _ _ _ Hst) |].
  split.
  - intros p Hp. unfold n_entries in Hn.
    destruct (indexed_next _ _ _ _ Hst (Z.to_nat p)) as (c & n & Hc & Hm & Hc');
      [lia |].
    rewrite Z2Nat.id in Hm by lia. exists c, n.
    split; [apply at_Ok; split; [lia | done] |]. split; [done |].
    apply at_Ok. split; [lia |].
    by replace (Z.to_nat (p + 1)) with (S (Z.to_nat p)) by lia.
  - apply check_total_Ok in Hcheck as (_ & last & m & Hlast & Hm & Hsum).
    apply count_people_Ok in Hcount as (T & v & _ & -> & _).
    simpl in *. unfold num_people. simpl.
    assert (0 < length (cumulative_num_discrete_choices_ t))%nat.
    { apply lookup_lt_Some in Hlast. lia. }
    replace (Z.of_nat (length (cumulative_num_discrete_choices_ t)) - 1)
      with (Z.of_nat (length (cumulative_num_discrete_choices_ t) - 1)) by lia.
    exists last, m. rewrite at_of_nat.
    rewrite <- (indexed_attributes _ _ _ _ Hst). done.
Qed.

(** [Init_cumulative_offsets] on the scenario of two people. *)
Lemma Init_cumulative_offsets_witness :
  scenario (fun _ => 0%nat) = Ok scenario_table /\
  (num_people scenario_table = n_entries scenario_decisions /\
   at_ (cumulative_num_discrete_choices_ scenario_table) 0 = Ok 0 /\
   (forall p, 0 <= p < num_people scenario_table - 1 ->
      exists c n,
        at_ (cumulative_num_discrete_choices_ scenario_table) p = Ok c /\
        num_discrete_choices scenario_table p = Ok n /\
        at_ (cumulative_num_discrete_choices_ scenario_table) (p + 1)
          = Ok (c + n)) /\
   (exists c n,
      at_ (cumulative_num_discrete_choices_ scenario_table)
        (num_people scenario_table - 1) = Ok c /\
      num_discrete_choices scenario_table (num_people scenario_table - 1)
        = Ok n /\
      c + n = n_entries scenario_attributes)).
Proof.
  split; [vm_compute; reflexivity |].
  apply (Init_cumulative_offsets (fun _ => 0%nat) scenario_attributes [2]
           scenario_decisions scenario_alternatives empty_table).
  vm_compute. reflexivity.
Defined.

(** C4. When the offset of the last person plus that person's number of
    discrete choices differs from the number of attribute vectors, [Init]
    writes the message and ends the process, and no table results.  When
    they are equal, [Init] does not end the process and goes on to count
    the people per discrete choice; it completes when every person's
    zero-based decision is the index of a bucket. *)
Theorem Init_check_total (rand : nat -> nat) (attr : Table) (dims : list Z)
    (dec alts : Table) (this t : DCMTable) (last last_count : Z) :
  Init_index rand attr dims dec alts this = Ok t ->
  at_ (cumulative_num_discrete_choices_ t) (num_people t - 1) = Ok last ->
  num_discrete_choices t (num_people t - 1) = Ok last_count ->
  in_int (last + last_count) = true ->
  (last + last_count <> n_entries attr ->
     Init rand attr dims dec alts this = Exit 0 mismatch_message) /\
  (last + last_count = n_entries attr ->
     Init rand attr dims dec alts this = count_people t /\
     (forall s e, Init rand attr dims dec alts this <> Exit s e) /\
     (forall T, max_num_alternatives t = Ok T ->
        (forall i, 0 <= i < num_people t ->
           exists k, get_discrete_choice_index t i = Ok k /\ 0 <= k < T) ->
        exists st, Init rand attr dims dec alts this = Ok st)).
Proof.
  intros Hindex Hlast Hcount Hint.
  pose proof (check_total_eval t last last_count Hlast Hcount Hint) as Hcheck.
  pose proof (Init_index_Ok _ _ _ _ _ _ _ Hindex) as Ht.
  rewrite (indexed_attributes _ _ _ _ Ht) in Hcheck.
  unfold Init. rewrite Hindex. simpl. rewrite Hcheck. split.
  - intros Hne. by rewrite decide_True.
  - intros Heq. rewrite decide_False by (by intros Hne). simpl.
    split; [done |]. split; [intros s e; apply count_people_no_Exit |].
    intros T HT Hidx. apply (count_people_total t T HT).
    intros i Hi. destruct (Hidx (Z.of_nat i)) as (k & Hk & Hrange); [| by exists k].
    rewrite (indexed_num_people _ _ _ _ Ht). unfold n_entries.
    rewrite (indexed_shuffled _ _ _ _ Ht), length_fmap, length_seq in Hi. lia.
Qed.

(** [Init_check_total] on the scenario, where the totals agree. *)
Lemma Init_check_total_witness :
  Init_index (fun _ => 0%nat) scenario_attributes [2] scenario_decisions
    scenario_alternatives empty_table = Ok scenario_index /\
  at_ (cumulative_num_discrete_choices_ scenario_index)
    (num_people scenario_index - 1) = Ok 2 /\
  num_discrete_choices scenario_index (num_people scenario_index - 1)
    = Ok 3 /\
  in_int (2 + 3) = true /\
  ((2 + 3 <> n_entries scenario_attributes ->
      scenario (fun _ => 0%nat) = Exit 0 mismatch_message) /\
   (2 + 3 = n_entries scenario_attributes ->
      scenario (fun _ => 0%nat) = count_people scenario_index /\
      (forall s e, scenario (fun _ => 0%nat) <> Exit s e) /\
      (forall T,
         max_num_alternatives scenario_index = Ok T ->
         (forall i, 0 <= i < num_people scenario_index ->
            exists k,
              get_discrete_choice_index scenario_index i = Ok k /\
              0 <= k < T) ->
         exists st, scenario (fun _ => 0%nat) = Ok st))).
Proof.
  split; [vm_compute; reflexivity |]. split; [vm_compute; reflexivity |].
  split; [vm_compute; reflexivity |]. split; [reflexivity |].
  apply (Init_check_total (fun _ => 0%nat) scenario_attributes [2]
           scenario_decisions scenario_alternatives empty_table
           scenario_index 2 3).
  - vm_compute. reflexivity.
  - vm_compute. reflexivity.
  - vm_compute. reflexivity.
  - reflexivity.
Defined.

(** The failing branch of the check on the scenario with an attribute
    vector missing. *)
Example Init_short_attributes_exits :
  Init (fun _ => 0%nat) short_attributes [2] scenario_decisions
    scenario_alternatives empty_table
  = Exit 0 mismatch_message.
Proof. vm_compute. reflexivity. Qed.

(** C4, as stated, fails when a decision is out of range: the totals are
    equal (0 + 2 = 2) and [Init] neither completes nor ends the process,
    because the bucket at index -1 is outside the vector. *)
Lemma Init_equal_totals_not_completed :
  Init_index (fun _ => 0%nat) zero_decision_attributes [1]
    zero_decision_decisions zero_decision_alternatives empty_table
  = Ok zero_decision_index /\
  at_ (cumulative_num_discrete_choices_ zero_decision_index)
    (num_people zero_decision_index - 1) = Ok 0 /\
  num_discrete_choices zero_decision_index
    (num_people zero_decision_index - 1) = Ok 2 /\
  0 + 2 = n_entries zero_decision_attributes /\
  get_discrete_choice_index zero_decision_index 0 = Ok (-1) /\
  Init (fun _ => 0%nat) zero_decision_attributes [1]
    zero_decision_decisions zero_decision_alternatives empty_table
  = Undefined.
Proof. vm_compute. repeat split; reflexivity. Qed.





(** With doubles, the decisions 1 to 1000 and the 1000 largest [int]s are
    decremented exactly. *)
Lemma decrement_exact_on_integers :
  forallb Binary64.decrement_exact (Z.of_nat <$> seq 1 1000) = true /\
  forallb Binary64.decrement_exact
    ((fun i => INT_MAX - Z.of_nat i) <$> seq 0 1000) = true.
Proof. split; vm_compute; reflexivity. Qed.


(** C6. [choice_probability] is the entry of [choice_probabilities] at the
    stored, zero-based index of the alternative that the person chose; the
    entry exists when that index is below the person's number of discrete
    choices. *)
Theorem choice_probability_is_chosen_entry (exp : Q -> Q) (this : DCMTable)
    (p : Z) (beta probs : vec) (k : Z) :
  choice_probabilities exp this p beta = Ok probs ->
  get_discrete_choice_index this p = Ok k ->
  choice_probability exp this p beta = at_ probs k /\
  (forall n, num_discrete_choices this p = Ok n -> 0 <= k < n ->
     exists x, probs !! Z.to_nat k = Some x /\
               choice_probability exp this p beta = Ok x).
Proof.
  intros Hprobs Hk.
  assert (choice_probability exp this p beta = at_ probs k) as Heq.
  { unfold choice_probability. rewrite Hprobs. simpl. by rewrite Hk. }
  split; [done |]. intros n Hn Hrange.
  destruct (choice_probabilities_length _ _ _ _ _ _ Hprobs Hn) as [_ Hlen].
  destruct (lookup_lt_is_Some_2 probs (Z.to_nat k)) as [x Hx]; [lia |].
  exists x. split; [done |]. rewrite Heq. apply at_Ok. split; [lia | done].
Qed.

(** [choice_probability_is_chosen_entry] on person 1 of the scenario, with
    the parameters (1, 0). *)
Lemma choice_probability_is_chosen_entry_witness :
  choice_probabilities exp2 scenario_table 1 [1; 0]%Q
    = Ok [2 # 7; 2 # 14; 4 # 7]%Q /\
  get_discrete_choice_index scenario_table 1 = Ok 2 /\
  (choice_probability exp2 scenario_table 1 [1; 0]%Q
     = at_ [2 # 7; 2 # 14; 4 # 7]%Q 2 /\
   (forall n, num_discrete_choices scenario_table 1 = Ok n -> 0 <= 2 < n ->
      exists x, [2 # 7; 2 # 14; 4 # 7]%Q !! Z.to_nat 2 = Some x /\
                choice_probability exp2 scenario_table 1 [1; 0]%Q = Ok x)).
Proof.
  split; [vm_compute; reflexivity |]. split; [vm_compute; reflexivity |].
  apply (choice_probability_is_chosen_entry exp2 scenario_table 1 [1; 0]%Q).
  - vm_compute. reflexivity.
  - vm_compute. reflexivity.
Defined.

(** C7. After a successful [Init] on valid input (as many alternatives
    entries as people, every decision in 1..[num_discrete_choices]) the
    vector of per-choice counts has as many buckets as the largest number
    of discrete choices of a person, bucket [k] is the number of people
    whose zero-based choice is [k], and the buckets add up to
    [num_people]. *)
Theorem Init_people_per_discrete_choice (rand : nat -> nat) (attr : Table)
    (dims : list Z) (dec alts : Table) (this st : DCMTable) :
  Init rand attr dims dec alts this = Ok st ->
  n_entries alts = n_entries dec ->
  decisions_in_range dec st = true ->
  let buckets := total_num_discrete_choices st in
  buckets = Z.of_nat (length (num_people_per_discrete_choice_ st)) /\
  (forall p, 0 <= p < num_people st ->
     exists n, num_discrete_choices st p = Ok n /\ n <= buckets) /\
  (exists p, 0 <= p < num_people st /\
             num_discrete_choices st p = Ok buckets) /\
  (forall k, 0 <= k < buckets ->
     num_people_per_discrete_choice st k
     = Ok (people_choosing st k (Z.to_nat (num_people st)))) /\
  sum_int (num_people_per_discrete_choice_ st) = num_people st.
Proof.
  intros H Hcard Hvalid. apply Init_Ok in H as (t & _ & _ & Hcount & Hst).
  pose proof (indexed_num_people _ _ _ _ Hst) as Hn.
  pose proof (indexed_first _ _ _ _ Hst) as Hfirst.
  pose proof (indexed_length _ _ _ _ Hst) as Hlen.
  pose proof (indexed_alternatives _ _ _ _ Hst) as Halts.
  assert (length (shuffled_indices_for_person_ st) = length dec) as Hshuffled.
  { by rewrite (indexed_shuffled _ _ _ _ Hst), length_fmap, length_seq. }
  apply count_people_Ok in Hcount
    as (T & v & HT & -> & Hv & Hbucket & Hsum & _).
  apply max_num_alternatives_Ok in HT as (Hpos & Hall & Hsome).
  simpl in *. unfold total_num_discrete_choices, num_people_per_discrete_choice.
  simpl. rewrite Hv, Z2Nat.id by done. unfold n_entries in Hcard, Hn.
  rewrite Halts in Hall, Hsome.
  assert (forall p, 0 <= p < num_people (set_per_choice v t) ->
    exists n, num_discrete_choices (set_per_choice v t) p = Ok n /\ n <= T)
    as Hle.
  { intros p Hp.
    destruct (lookup_lt_is_Some_2 alts (Z.to_nat p))
      as [point Hpoint]; [lia |].
    destruct (Hall _ _ Hpoint) as (m & Hm & ?). rewrite Z2Nat.id in Hm by lia.
    by exists m. }
  split; [done |]. split; [done |]. split; [| split].
  - assert (1 <= T) as HT1.
    { apply lookup_lt_Some in Hfirst.
      destruct (lookup_lt_is_Some_2 dec 0%nat) as [point Hpoint]; [lia |].
      destruct (decisions_in_range_lookup _ _ _ _ Hvalid Hpoint)
        as (x & n & _ & Hn0 & H1 & Hxn).
      destruct (Hle 0) as (n' & Hn' & ?); [lia |].
      change (Z.of_nat 0) with 0 in Hn0. rewrite Hn0 in Hn'. injection Hn' as <-.
      pose proof (Qle_trans _ _ _ H1 Hxn) as H1n.
      unfold Qle in H1n. simpl in H1n. lia. }
    destruct Hsome as [-> | (i & Hi & Hmax)]; [lia |].
    exists (Z.of_nat i). split; [lia | done].
  - intros k Hk. apply at_Ok. split; [lia |]. rewrite Hbucket by lia.
    rewrite Z2Nat.id by lia. rewrite Hshuffled, Hn, Nat2Z.id. done.
  - rewrite Hsum, Hshuffled. lia.
Qed.

(** [Init_people_per_discrete_choice] on the scenario. *)
Lemma Init_people_per_discrete_choice_witness :
  scenario (fun _ => 0%nat) = Ok scenario_table /\
  n_entries scenario_alternatives = n_entries scenario_decisions /\
  decisions_in_range scenario_decisions scenario_table = true /\
  (total_num_discrete_choices scenario_table
     = Z.of_nat (length (num_people_per_discrete_choice_ scenario_table)) /\
   (forall p, 0 <= p < num_people scenario_table ->
      exists n, num_discrete_choices scenario_table p = Ok n /\
                n <= total_num_discrete_choices scenario_table) /\
   (exists p, 0 <= p < num_people scenario_table /\
              num_discrete_choices scenario_table p
              = Ok (total_num_discrete_choices scenario_table)) /\
   (forall k, 0 <= k < total_num_discrete_choices scenario_table ->
      num_people_per_discrete_choice scenario_table k
      = Ok (people_choosing scenario_table k
              (Z.to_nat (num_people scenario_table)))) /\
   sum_int (num_people_per_discrete_choice_ scenario_table)
     = num_people scenario_table).
Proof.
  split; [vm_compute; reflexivity |].
  split; [reflexivity |]. split; [vm_compute; reflexivity |].
  apply (Init_people_per_discrete_choice (fun _ => 0%nat) scenario_attributes
           [2] scenario_decisions scenario_alternatives empty_table).
  - vm_compute. reflexivity.
  - reflexivity.
  - vm_compute. reflexivity.
Defined.




(** C9. After a successful [Init] the shuffled person order is a
    permutation of 0, ..., [num_people - 1], whatever values the random
    generator returned: the values of [shuffled_indices_for_person] at the
    positions below [num_people] are exactly the person indices. *)
Theorem Init_shuffled_permutation (rand : nat -> nat) (attr : Table)
    (dims : list Z) (dec alts : Table) (this st : DCMTable) :
  Init rand attr dims dec alts this = Ok st ->
  shuffled_indices_for_person_ st
    ≡ₚ Z.of_nat <$> seq 0 (Z.to_nat (num_people st)) /\
  (forall k,
     (exists i, 0 <= i < num_people st /\
                shuffled_indices_for_person st i = Ok k)
     <-> 0 <= k < num_people st).
Proof.
  intros H. apply Init_Ok in H as (_ & _ & _ & _ & Hst).
  pose proof (indexed_shuffled _ _ _ _ Hst) as Hperm.
  rewrite (indexed_num_people _ _ _ _ Hst). unfold n_entries.
  rewrite Nat2Z.id. split; [done |].
  assert (length (shuffled_indices_for_person_ st) = length dec) as Hlen.
  { by rewrite Hperm, length_fmap, length_seq. }
  assert (forall k, k ∈ shuffled_indices_for_person_ st
                    <-> 0 <= k < Z.of_nat (length dec)) as Helem.
  { intros k. rewrite Hperm, list_elem_of_fmap. split.
    - intros (i & -> & Hi). apply elem_of_seq in Hi. lia.
    - intros Hk. exists (Z.to_nat k). split; [lia |].
      apply elem_of_seq. lia. }
  intros k. rewrite <- Helem. unfold shuffled_indices_for_person. split.
  - intros (i & _ & Hi). apply at_Ok in Hi as [_ Hi].
    by eapply list_elem_of_lookup_2.
  - intros Hk. apply list_elem_of_lookup_1 in Hk as (i & Hi).
    exists (Z.of_nat i). split.
    + apply lookup_lt_Some in Hi. lia.
    + by apply at_of_nat.
Qed.

(** [Init_shuffled_permutation] on the scenario. *)
Lemma Init_shuffled_permutation_witness :
  scenario (fun _ => 0%nat) = Ok scenario_table /\
  (shuffled_indices_for_person_ scenario_table
     ≡ₚ Z.of_nat <$> seq 0 (Z.to_nat (num_people scenario_table)) /\
   (forall k,
      (exists i, 0 <= i < num_people scenario_table /\
                 shuffled_indices_for_person scenario_table i = Ok k)
      <-> 0 <= k < num_people scenario_table)).
Proof.
  split; [vm_compute; reflexivity |].
  apply (Init_shuffled_permutation (fun _ => 0%nat) scenario_attributes [2]
           scenario_decisions scenario_alternatives empty_table).
  vm_compute. reflexivity.
Defined.

(** C10. [Init] needs at least one person: on an empty decisions table the
    write to [cumulative_num_discrete_choices_[0]] is outside the vector,
    so the call is undefined behaviour and not a checked error, whatever
    the other arguments are. *)
Theorem Init_no_people_undefined (rand : nat -> nat) (attr : Table)
    (dims : list Z) (alts : Table) (this : DCMTable) :
  Init rand attr dims [] alts this = Undefined.
Proof. reflexivity. Qed.

(** * Further properties *)

(** ** Auxiliary facts *)

Lemma exp2_pos (x : Q) : (0 < exp2 x)%Q.
Proof. unfold exp2. by apply Qpower_0_lt. Qed.

Lemma exp2_monotone (x y : Q) : (x <= y)%Q -> (exp2 x <= exp2 y)%Q.
Proof.
  intros H. unfold exp2. apply Qpower_le_compat_l; [| done].
  by apply Qfloor_resp_le.
Qed.

Lemma sum_int_take_S (v : list Z) (p : nat) (n : Z) :
  v !! p = Some n -> sum_int (take (S p) v) = sum_int (take p v) + n.
Proof. intros H. rewrite (take_S_r _ _ _ H), sum_int_app. simpl. lia. Qed.

Lemma sum_int_take_mono (v : list Z) (p q : nat) :
  Forall (fun n => 0 <= n) v -> (p <= q)%nat ->
  sum_int (take p v) <= sum_int (take q v).
Proof.
  intros Hv Hpq. replace (take p v) with (take p (take q v))
    by (rewrite take_take; f_equal; lia).
  apply sum_int_take. by apply Forall_take.
Qed.

(** Every position below the total lies in exactly one block. *)
Lemma sum_int_find (v : list Z) (r : Z) :
  Forall (fun n => 0 <= n) v -> 0 <= r < sum_int v ->
  exists p n, v !! p = Some n /\
    sum_int (take p v) <= r < sum_int (take p v) + n.
Proof.
  revert r. induction v as [| x v IH]; intros r Hv Hr; simpl in *; [lia |].
  apply Forall_cons in Hv as [Hx Hv].
  destruct (decide (r < x)) as [Hlt | Hge].
  - exists 0%nat, x. simpl. split; [done | lia].
  - destruct (IH (r - x)) as (p & n & Hp & Hrange); [done | lia |].
    exists (S p), n. simpl. split; [done | lia].
Qed.

Lemma counts_lookup (st : DCMTable) (p : nat) :
  (p < Z.to_nat (num_people st))%nat ->
  counts st !! p = Some (count_at st p).
Proof.
  intros Hp. unfold counts. rewrite list_lookup_fmap, lookup_seq_lt by done.
  done.
Qed.

Lemma length_counts (st : DCMTable) :
  length (counts st) = Z.to_nat (num_people st).
Proof. unfold counts. by rewrite length_fmap, length_seq. Qed.

Lemma check_total_in_int (this this' : DCMTable) :
  check_total this = Ok this' ->
  INT_MIN <= n_entries (attribute_table_ this) <= INT_MAX.
Proof.
  unfold check_total. intros H. inv_Ok.
  case_decide as Hne; [done |].
  apply int_add_Ok in Ha3 as [-> Hrange].
  destruct (decide (a2 + a1 = n_entries (attribute_table_ this)))
    as [<- | Hneq]; [done | by destruct Hne].
Qed.

(** After a successful [Init] the accessor is defined for every person. *)
Lemma Init_count_at (rand : nat -> nat) (attr : Table) (dims : list Z)
    (dec alts : Table) (this st : DCMTable) (p : nat) :
  Init rand attr dims dec alts this = Ok st ->
  (p < length dec)%nat ->
  num_discrete_choices st (Z.of_nat p) = Ok (count_at st p).
Proof.
  intros H Hp. apply Init_Ok in H as (t & _ & Hcheck & Hcount & Hst).
  assert (exists m, num_discrete_choices st (Z.of_nat p) = Ok m) as [m Hm].
  { destruct (decide (S p < length dec)%nat) as [Hlt | Hlast].
    - destruct (indexed_next _ _ _ _ Hst p Hlt) as (_ & m & _ & Hm & _).
      by exists m.
    - apply check_total_Ok in Hcheck as (_ & last & m & _ & Hm & _).
      apply count_people_Ok in Hcount as (T & v & _ & -> & _).
      exists m. pose proof (indexed_length _ _ _ _ Hst) as Hlen.
      simpl in Hlen. rewrite Hlen in Hm.
      by replace p with (length dec - 1)%nat by lia. }
  unfold count_at. by rewrite Hm.
Qed.

(** After a successful [Init] the offsets are the prefix sums of the
    numbers of discrete choices, which add up to the number of attribute
    vectors. *)
Lemma Init_prefix_sums (rand : nat -> nat) (attr : Table) (dims : list Z)
    (dec alts : Table) (this st : DCMTable) :
  Init rand attr dims dec alts this = Ok st ->
  Z.to_nat (num_people st) = length dec /\
  (forall p, (p < length dec)%nat ->
     cumulative_num_discrete_choices_ st !! p
     = Some (sum_int (take p (counts st)))) /\
  sum_int (counts st) = n_entries attr /\
  n_entries attr <= INT_MAX.
Proof.
  intros H. pose proof (fun p => Init_count_at _ _ _ _ _ _ _ p H) as Hcounts.
  apply Init_Ok in H as (t & _ & Hcheck & Hcount & Hst).
  pose proof (indexed_num_people _ _ _ _ Hst) as Hn. unfold n_entries in Hn.
  assert (Z.to_nat (num_people st) = length dec) as Hnat by lia.
  split; [done |].
  assert (forall p, (p < length dec)%nat ->
    cumulative_num_discrete_choices_ st !! p
    = Some (sum_int (take p (counts st)))) as Hsums.
  { induction p as [| p IH]; intros Hp.
    - by rewrite (indexed_first _ _ _ _ Hst).
    - destruct (indexed_next _ _ _ _ Hst p Hp) as (ci & m & Hci & Hm & Hnext).
      rewrite IH in Hci by lia. injection Hci as <-.
      rewrite Hcounts in Hm by lia. injection Hm as <-.
      rewrite Hnext. f_equal. symmetry. apply sum_int_take_S.
      apply counts_lookup. lia. }
  split; [done |].
  pose proof (check_total_in_int _ _ Hcheck) as Hrange.
  apply check_total_Ok in Hcheck as (_ & last & m & Hlast & Hm & Hsum).
  apply count_people_Ok in Hcount as (T & v & _ & -> & _).
  pose proof (indexed_attributes _ _ _ _ Hst) as Hattr.
  pose proof (indexed_length _ _ _ _ Hst) as Hlen. simpl in *.
  rewrite Hattr in Hsum, Hrange.
  rewrite Hlen in Hlast, Hm.
  assert (0 < length dec)%nat as Hpos by (apply lookup_lt_Some in Hlast; lia).
  split; [| lia].
  rewrite <- Hsum. rewrite <- (firstn_all (counts _)), length_counts, Hnat.
  replace (length dec) with (S (length dec - 1)) at 1 by lia.
  rewrite (sum_int_take_S _ _ m).
  - specialize (Hsums (length dec - 1)%nat ltac:(lia)). simpl in Hsums.
    rewrite Hsums in Hlast. injection Hlast as <-. done.
  - rewrite counts_lookup by lia. f_equal.
    specialize (Hcounts (length dec - 1)%nat ltac:(lia)). simpl in Hcounts.
    unfold count_at.
    change (num_discrete_choices (set_per_choice v t)
              (Z.of_nat (length dec - 1)) = Ok m) in Hm.
    by rewrite Hm.
Qed.

Lemma counts_nonnegative_Forall (st : DCMTable) :
  counts_nonnegative st = true -> Forall (fun n => 0 <= n) (counts st).
Proof.
  unfold counts_nonnegative. rewrite forallb_forall, Forall_forall.
  intros H n Hn. apply Z.leb_le, H. by apply list_elem_of_In.
Qed.

(** The alternative [a] of person [p] is the attribute vector at the
    prefix sum of [p] plus [a]. *)
Lemma Init_block_row (rand : nat -> nat) (attr : Table) (dims : list Z)
    (dec alts : Table) (this st : DCMTable) (p : nat) (a : Z) :
  Init rand attr dims dec alts this = Ok st ->
  counts_nonnegative st = true ->
  (p < length dec)%nat ->
  0 <= a < count_at st p ->
  let c := sum_int (take p (counts st)) in
  0 <= c /\ c + a < n_entries attr /\
  exists row,
    attr !! Z.to_nat (c + a) = Some row /\
    get_attribute_vector st (Z.of_nat p) a = Ok row.
Proof.
  intros H Hnonneg Hp Ha c.
  destruct (Init_prefix_sums _ _ _ _ _ _ _ H)
    as (Hnat & Hsums & Htotal & Hmax).
  apply counts_nonnegative_Forall in Hnonneg.
  pose proof (sum_int_take (counts st) p Hnonneg) as [Hc _].
  assert (c + count_at st p <= n_entries attr) as Hend.
  { rewrite <- Htotal. subst c.
    rewrite <- (sum_int_take_S (counts st) p)
      by (apply counts_lookup; lia).
    by apply sum_int_take. }
  split; [done |]. split; [lia |].
  destruct (lookup_lt_is_Some_2 attr (Z.to_nat (c + a))) as [row Hrow].
  { unfold n_entries in Hend. lia. }
  exists row. split; [done |].
  apply Init_Ok in H as (_ & _ & _ & _ & Hst).
  unfold get_attribute_vector.
  assert (at_ (cumulative_num_discrete_choices_ st) (Z.of_nat p) = Ok c)
    as -> by (apply at_of_nat; by apply Hsums).
  simpl.
  assert (int_add c a = Ok (c + a)) as ->.
  { apply int_add_Ok. split; [done |]. unfold INT_MIN. lia. }
  simpl. rewrite (indexed_attributes _ _ _ _ Hst). unfold get.
  apply at_Ok. split; [lia | done].
Qed.

(** ** The layout of the attribute table *)

(** X1. After a successful [Init] the offset of a person is the sum of the
    numbers of discrete choices of the people before, and these numbers add
    up to the number of attribute vectors. *)
Theorem Init_offsets_are_prefix_sums (rand : nat -> nat) (attr : Table)
    (dims : list Z) (dec alts : Table) (this st : DCMTable) :
  Init rand attr dims dec alts this = Ok st ->
  length (counts st) = Z.to_nat (num_people st) /\
  (forall p, 0 <= p < num_people st ->
     exists n,
       num_discrete_choices st p = Ok n /\
       counts st !! Z.to_nat p = Some n /\
       at_ (cumulative_num_discrete_choices_ st) p
       = Ok (sum_int (take (Z.to_nat p) (counts st)))) /\
  sum_int (counts st) = n_entries attr.
Proof.
  intros H. destruct (Init_prefix_sums _ _ _ _ _ _ _ H)
    as (Hnat & Hsums & Htotal & _).
  split; [apply length_counts |]. split; [| done].
  intros p Hp. exists (count_at st (Z.to_nat p)).
  pose proof (Init_count_at _ _ _ _ _ _ _ (Z.to_nat p) H ltac:(lia)) as Hn.
  rewrite Z2Nat.id in Hn by lia.
  split; [done |]. split; [apply counts_lookup; lia |].
  apply at_Ok. split; [lia |]. apply Hsums. lia.
Qed.

(** [Init_offsets_are_prefix_sums] on the scenario. *)
Lemma Init_offsets_are_prefix_sums_witness :
  scenario (fun _ => 0%nat) = Ok scenario_table /\
  (length (counts scenario_table) = Z.to_nat (num_people scenario_table) /\
   (forall p, 0 <= p < num_people scenario_table ->
      exists n,
        num_discrete_choices scenario_table p = Ok n /\
        counts scenario_table !! Z.to_nat p = Some n /\
        at_ (cumulative_num_discrete_choices_ scenario_table) p
        = Ok (sum_int (take (Z.to_nat p) (counts scenario_table)))) /\
   sum_int (counts scenario_table) = n_entries scenario_attributes).
Proof.
  split; [vm_compute; reflexivity |].
  apply (Init_offsets_are_prefix_sums (fun _ => 0%nat) scenario_attributes
           [2] scenario_decisions scenario_alternatives empty_table).
  vm_compute. reflexivity.
Defined.

(** X2. After a successful [Init] with no negative number of discrete
    choices, [get_attribute_vector] of a person and one of that person's
    alternatives is defined: it is the attribute vector at the person's
    offset plus the alternative, a position inside the attribute table. *)
Theorem get_attribute_vector_in_table (rand : nat -> nat) (attr : Table)
    (dims : list Z) (dec alts : Table) (this st : DCMTable) (p a n : Z) :
  Init rand attr dims dec alts this = Ok st ->
  counts_nonnegative st = true ->
  0 <= p < num_people st ->
  num_discrete_choices st p = Ok n ->
  0 <= a < n ->
  exists c row,
    at_ (cumulative_num_discrete_choices_ st) p = Ok c /\
    0 <= c + a < n_entries attr /\
    attr !! Z.to_nat (c + a) = Some row /\
    get_attribute_vector st p a = Ok row.
Proof.
  intros H Hnonneg Hp Hn Ha.
  destruct (Init_prefix_sums _ _ _ _ _ _ _ H) as (Hnat & Hsums & _).
  pose proof (Init_count_at _ _ _ _ _ _ _ (Z.to_nat p) H ltac:(lia))
    as Hcount.
  rewrite Z2Nat.id, Hn in Hcount by lia. injection Hcount as Hnp.
  destruct (Init_block_row _ _ _ _ _ _ _ (Z.to_nat p) a H Hnonneg)
    as (Hc & Hlt & row & Hrow & Hget); [lia | lia |].
  rewrite Z2Nat.id in Hget by lia.
  exists (sum_int (take (Z.to_nat p) (counts st))), row.
  split; [| split; [lia | done]].
  apply at_Ok. split; [lia |]. apply Hsums. lia.
Qed.

(** [get_attribute_vector_in_table] on the third alternative of person 1
    of the scenario. *)
Lemma get_attribute_vector_in_table_witness :
  scenario (fun _ => 0%nat) = Ok scenario_table /\
  counts_nonnegative scenario_table = true /\
  0 <= 1 < num_people scenario_table /\
  num_discrete_choices scenario_table 1 = Ok 3 /\
  0 <= 2 < 3 /\
  exists c row,
    at_ (cumulative_num_discrete_choices_ scenario_table) 1 = Ok c /\
    0 <= c + 2 < n_entries scenario_attributes /\
    scenario_attributes !! Z.to_nat (c + 2) = Some row /\
    get_attribute_vector scenario_table 1 2 = Ok row.
Proof.
  split; [vm_compute; reflexivity |]. split; [vm_compute; reflexivity |].
  split; [by vm_compute |]. split; [vm_compute; reflexivity |].
  split; [lia |].
  apply (get_attribute_vector_in_table (fun _ => 0%nat) scenario_attributes
           [2] scenario_decisions scenario_alternatives empty_table
           scenario_table 1 2 3).
  - vm_compute. reflexivity.
  - vm_compute. reflexivity.
  - by vm_compute.
  - vm_compute. reflexivity.
  - lia.
Defined.

(** X3. After a successful [Init] with no negative number of discrete
    choices, two different (person, alternative) pairs never share an
    attribute vector: equal positions imply the same person and the same
    alternative. *)
Theorem attribute_blocks_disjoint (rand : nat -> nat) (attr : Table)
    (dims : list Z) (dec alts : Table) (this st : DCMTable)
    (p q a b n m c d : Z) :
  Init rand attr dims dec alts this = Ok st ->
  counts_nonnegative st = true ->
  0 <= p < num_people st -> 0 <= q < num_people st ->
  num_discrete_choices st p = Ok n -> 0 <= a < n ->
  num_discrete_choices st q = Ok m -> 0 <= b < m ->
  at_ (cumulative_num_discrete_choices_ st) p = Ok c ->
  at_ (cumulative_num_discrete_choices_ st) q = Ok d ->
  c + a = d + b ->
  p = q /\ a = b.
Proof.
  intros H Hnonneg Hp Hq Hn Ha Hm Hb Hc Hd Heq.
  destruct (Init_prefix_sums _ _ _ _ _ _ _ H) as (Hnat & Hsums & _).
  apply counts_nonnegative_Forall in Hnonneg.
  pose proof (Init_count_at _ _ _ _ _ _ _ (Z.to_nat p) H ltac:(lia)) as Hcp.
  pose proof (Init_count_at _ _ _ _ _ _ _ (Z.to_nat q) H ltac:(lia)) as Hcq.
  rewrite Z2Nat.id in Hcp, Hcq by lia. rewrite Hn in Hcp. rewrite Hm in Hcq.
  injection Hcp as Hnp. injection Hcq as Hmq.
  apply at_Ok in Hc as [_ Hc]. apply at_Ok in Hd as [_ Hd].
  rewrite Hsums in Hc, Hd by lia. injection Hc as <-. injection Hd as <-.
  assert (forall i j x, (i < j)%nat -> (j < length dec)%nat ->
    0 <= x < count_at st i ->
    sum_int (take i (counts st)) + x < sum_int (take j (counts st))) as Hlt.
  { intros i j x Hij Hj Hx.
    pose proof (sum_int_take_mono (counts st) (S i) j Hnonneg ltac:(lia)).
    rewrite (sum_int_take_S _ _ (count_at st i)) in *
      by (apply counts_lookup; lia). lia. }
  destruct (Z.lt_trichotomy p q) as [Hpq | [-> | Hqp]].
  - pose proof (Hlt (Z.to_nat p) (Z.to_nat q) a). lia.
  - split; [done | lia].
  - pose proof (Hlt (Z.to_nat q) (Z.to_nat p) b). lia.
Qed.

(** [attribute_blocks_disjoint] on the scenario: the first alternative of
    person 1 and the position it shares with itself. *)
Lemma attribute_blocks_disjoint_witness :
  scenario (fun _ => 0%nat) = Ok scenario_table /\
  counts_nonnegative scenario_table = true /\
  num_discrete_choices scenario_table 1 = Ok 3 /\
  at_ (cumulative_num_discrete_choices_ scenario_table) 1 = Ok 2 /\
  (1 = 1 /\ 0 = 0).
Proof.
  split; [vm_compute; reflexivity |]. split; [vm_compute; reflexivity |].
  split; [vm_compute; reflexivity |]. split; [vm_compute; reflexivity |].
  apply (attribute_blocks_disjoint (fun _ => 0%nat) scenario_attributes
           [2] scenario_decisions scenario_alternatives empty_table
           scenario_table 1 1 0 0 3 3 2 2);
    try (vm_compute; reflexivity); try (by vm_compute); lia.
Defined.

(** X4. After a successful [Init] with no negative number of discrete
    choices, every attribute vector is the alternative of some person:
    each position of the attribute table is a person's offset plus one of
    that person's alternatives, and [get_attribute_vector] returns the
    vector at that position. *)
Theorem attribute_blocks_cover (rand : nat -> nat) (attr : Table)
    (dims : list Z) (dec alts : Table) (this st : DCMTable) (r : Z)
    (row : list Q) :
  Init rand attr dims dec alts this = Ok st ->
  counts_nonnegative st = true ->
  0 <= r ->
  attr !! Z.to_nat r = Some row ->
  exists p a n c,
    0 <= p < num_people st /\
    num_discrete_choices st p = Ok n /\ 0 <= a < n /\
    at_ (cumulative_num_discrete_choices_ st) p = Ok c /\
    c + a = r /\
    get_attribute_vector st p a = Ok row.
Proof.
  intros H Hnonneg Hr Hrow.
  destruct (Init_prefix_sums _ _ _ _ _ _ _ H)
    as (Hnat & Hsums & Htotal & _).
  pose proof (counts_nonnegative_Forall _ Hnonneg) as Hpos.
  destruct (sum_int_find (counts st) r Hpos) as (p & n & Hp & Hrange).
  { rewrite Htotal. apply lookup_lt_Some in Hrow. unfold n_entries. lia. }
  assert (p < length dec)%nat as Hlt.
  { apply lookup_lt_Some in Hp. rewrite length_counts in Hp. lia. }
  rewrite counts_lookup in Hp by lia. injection Hp as <-.
  set (c := sum_int (take p (counts st))) in *.
  destruct (Init_block_row _ _ _ _ _ _ _ p (r - c) H Hnonneg Hlt)
    as (_ & _ & row' & Hrow' & Hget); [lia |].
  fold c in Hrow', Hget. replace (c + (r - c)) with r in Hrow' by lia.
  replace row' with row in * by congruence.
  exists (Z.of_nat p), (r - c), (count_at st p), c.
  split; [lia |]. split; [by apply (Init_count_at _ _ _ _ _ _ _ p H) |].
  split; [lia |]. split; [apply at_of_nat; by apply Hsums |].
  split; [lia | done].
Qed.

(** [attribute_blocks_cover] on the last attribute vector of the
    scenario. *)
Lemma attribute_blocks_cover_witness :
  scenario (fun _ => 0%nat) = Ok scenario_table /\
  counts_nonnegative scenario_table = true /\
  0 <= 4 /\
  scenario_attributes !! Z.to_nat 4 = Some [2; 0]%Q /\
  exists p a n c,
    0 <= p < num_people scenario_table /\
    num_discrete_choices scenario_table p = Ok n /\ 0 <= a < n /\
    at_ (cumulative_num_discrete_choices_ scenario_table) p = Ok c /\
    c + a = 4 /\
    get_attribute_vector scenario_table p a = Ok [2; 0]%Q.
Proof.
  split; [vm_compute; reflexivity |]. split; [vm_compute; reflexivity |].
  split; [lia |]. split; [reflexivity |].
  apply (attribute_blocks_cover (fun _ => 0%nat) scenario_attributes
           [2] scenario_decisions scenario_alternatives empty_table
           scenario_table 4 [2; 0]%Q).
  - vm_compute. reflexivity.
  - vm_compute. reflexivity.
  - lia.
  - reflexivity.
Defined.

(** ** Choice probabilities *)


Lemma attributes_match_lookup (st : DCMTable) (beta : vec) (i : nat)
    (row : vec) :
  attributes_match st beta = true ->
  attribute_table_ st !! i = Some row ->
  length beta = length row.
Proof.
  unfold attributes_match. rewrite forallb_forall. intros Hall Hrow.
  symmetry. apply Nat.eqb_eq, Hall, list_elem_of_In.
  by eapply list_elem_of_lookup_2.
Qed.

Lemma get_attribute_vector_Ok (this : DCMTable) (p a : Z) (row : vec) :
  get_attribute_vector this p a = Ok row ->
  exists i, attribute_table_ this !! i = Some row.
Proof.
  unfold get_attribute_vector, get. intros H. inv_Ok.
  apply at_Ok in H as [_ H]. by eexists.
Qed.

Lemma dot_Ok (a b : vec) :
  length a = length b ->
  dot a b = Ok (fold_left Qplus (zip_with Qmult a b) 0%Q).
Proof. intros H. unfold dot. by rewrite decide_True. Qed.

(** The first loop of [choice_probabilities] ends normally when every
    alternative has an attribute vector with as many components as
    [beta]. *)
Lemma choice_scores_total (this : DCMTable) (p : Z) (beta : vec) (n : Z)
    (v : vec) :
  (forall a, (a < Z.to_nat n)%nat ->
     exists row, get_attribute_vector this p (Z.of_nat a) = Ok row /\
                 length beta = length row) ->
  exists scores m, choice_scores this p beta n v = Ok (scores, m).
Proof.
  intros Hrows. unfold choice_scores.
  destruct (for_loop_total (fun _ (_ : vec * Q) => True)
    (fun discrete_choice_index '(choice_probabilities, max_dot_product) =>
       attribute_for_discrete_choice <-
         get_attribute_vector this p (Z.of_nat discrete_choice_index) ;;
       dot_product <- dot beta attribute_for_discrete_choice ;;
       Ok (<[discrete_choice_index := dot_product]> choice_probabilities,
           std_max max_dot_product dot_product))
    (Z.to_nat n) 0 (v, (- DBL_MAX)%Q)) as ([scores m] & Hrun & _).
  - done.
  - intros a [cp mx] Ha _. destruct (Hrows a) as (row & -> & Hlen); [lia |].
    simpl. rewrite (dot_Ok _ _ Hlen). simpl. by eexists.
  - by exists scores, m.
Qed.

Lemma choice_probabilities_total (exp : Q -> Q) (this : DCMTable) (p : Z)
    (beta : vec) (n : Z) :
  num_discrete_choices this p = Ok n ->
  0 <= n ->
  (forall a, (a < Z.to_nat n)%nat ->
     exists row, get_attribute_vector this p (Z.of_nat a) = Ok row /\
                 length beta = length row) ->
  exists probs, choice_probabilities exp this p beta = Ok probs /\
                length probs = Z.to_nat n.
Proof.
  intros Hn Hpos Hrows.
  destruct (choice_scores_total this p beta n
              (replicate (Z.to_nat n) 0%Q) Hrows) as (scores & m & Hscores).
  destruct (choice_scores_Ok _ _ _ _ _ _ _ (length_replicate _ _) Hscores)
    as (Hlen & _).
  destruct (choice_weights_total exp n scores m Hlen)
    as (weights & sum & Hw & Hlenw & _).
  exists ((fun w => (w / sum)%Q) <$> weights).
  split; [| by rewrite length_fmap; congruence].
  unfold choice_probabilities. rewrite Hn. simpl.
  assert (set_size n = Ok (replicate (Z.to_nat n) 0%Q)) as ->
    by (by apply set_size_Ok).
  simpl. rewrite Hscores. simpl. rewrite Hw. simpl.
  apply normalize_total. congruence.
Qed.

Lemma Init_choice_probabilities (exp : Q -> Q) (rand : nat -> nat)
    (attr : Table) (dims : list Z) (dec alts : Table) (this st : DCMTable)
    (p : Z) (beta : vec) :
  Init rand attr dims dec alts this = Ok st ->
  counts_nonnegative st = true ->
  attributes_match st beta = true ->
  0 <= p < num_people st ->
  exists n probs,
    num_discrete_choices st p = Ok n /\
    choice_probabilities exp st p beta = Ok probs /\
    length probs = Z.to_nat n.
Proof.
  intros H Hnonneg Hmatch Hp.
  destruct (Init_prefix_sums _ _ _ _ _ _ _ H) as (Hnat & _).
  pose proof (Init_count_at _ _ _ _ _ _ _ (Z.to_nat p) H ltac:(lia)) as Hn.
  rewrite Z2Nat.id in Hn by lia.
  set (n := count_at st (Z.to_nat p)) in *.
  assert (0 <= n) as Hpos.
  { pose proof (counts_nonnegative_Forall _ Hnonneg) as Hall.
    rewrite Forall_lookup in Hall. apply (Hall (Z.to_nat p)).
    apply counts_lookup. lia. }
  destruct (choice_probabilities_total exp st p beta n Hn Hpos)
    as (probs & Hprobs & Hlen).
  { intros a Ha.
    destruct (Init_block_row _ _ _ _ _ _ _ (Z.to_nat p) (Z.of_nat a)
                H Hnonneg) as (_ & _ & row & _ & Hget); [lia | lia |].
    rewrite Z2Nat.id in Hget by lia. exists row. split; [done |].
    destruct (get_attribute_vector_Ok _ _ _ _ Hget) as (i & Hi).
    by eapply attributes_match_lookup. }
  by exists n, probs.
Qed.

(** X5. After a successful [Init] with no negative number of discrete
    choices, [choice_probabilities] is defined for every person and every
    [beta] that has as many components as the attribute vectors, and its
    result has one entry per discrete choice of the person. *)
Theorem choice_probabilities_defined (exp : Q -> Q) (rand : nat -> nat)
    (attr : Table) (dims : list Z) (dec alts : Table) (this st : DCMTable)
    (p : Z) (beta : vec) :
  Init rand attr dims dec alts this = Ok st ->
  counts_nonnegative st = true ->
  attributes_match st beta = true ->
  0 <= p < num_people st ->
  exists n probs,
    num_discrete_choices st p = Ok n /\
    choice_probabilities exp st p beta = Ok probs /\
    length probs = Z.to_nat n.
Proof. apply Init_choice_probabilities. Qed.

(** [choice_probabilities_defined] on person 1 of the scenario. *)
Lemma choice_probabilities_defined_witness :
  scenario (fun _ => 0%nat) = Ok scenario_table /\
  counts_nonnegative scenario_table = true /\
  attributes_match scenario_table [1; 0]%Q = true /\
  0 <= 1 < num_people scenario_table /\
  exists n probs,
    num_discrete_choices scenario_table 1 = Ok n /\
    choice_probabilities exp2 scenario_table 1 [1; 0]%Q = Ok probs /\
    length probs = Z.to_nat n.
Proof.
  split; [vm_compute; reflexivity |]. split; [vm_compute; reflexivity |].
  split; [vm_compute; reflexivity |]. split; [by vm_compute |].
  apply (choice_probabilities_defined exp2 (fun _ => 0%nat)
           scenario_attributes [2] scenario_decisions scenario_alternatives
           empty_table).
  - vm_compute. reflexivity.
  - vm_compute. reflexivity.
  - vm_compute. reflexivity.
  - by vm_compute.
Defined.



Lemma get_discrete_choice_index_outcomes (this : DCMTable) (p : Z) :
  (exists k, get_discrete_choice_index this p = Ok k) \/
  get_discrete_choice_index this p = Undefined.
Proof.
  unfold get_discrete_choice_index, data_at, at_, static_cast_int.
  destruct (p <? 0); [by right |].
  destruct (decisions_table_ this !! Z.to_nat p) as [point |]; [| by right].
  simpl. destruct (point !! Z.to_nat 0) as [x |]; [| by right].
  simpl. destruct (in_int (trunc x)); [left; by eexists | by right].
Qed.

(** X7. For a person without discrete choices [choice_probabilities]
    returns the empty vector, and [choice_probability], which indexes that
    vector, is undefined behaviour. *)
Theorem choice_probabilities_no_choice (exp : Q -> Q) (this : DCMTable)
    (p : Z) (beta : vec) :
  num_discrete_choices this p = Ok 0 ->
  choice_probabilities exp this p beta = Ok [] /\
  choice_probability exp this p beta = Undefined.
Proof.
  intros Hn.
  assert (choice_probabilities exp this p beta = Ok []) as Hprobs.
  { unfold choice_probabilities. rewrite Hn. reflexivity. }
  split; [done |]. unfold choice_probability. rewrite Hprobs. simpl.
  destruct (get_discrete_choice_index_outcomes this p) as [[k ->] | ->];
    [| done].
  simpl. unfold at_. by destruct (k <? 0).
Qed.

(** [choice_probabilities_no_choice] on a table whose person has no
    discrete choice. *)
Lemma choice_probabilities_no_choice_witness :
  num_discrete_choices no_choice_table 0 = Ok 0 /\
  (choice_probabilities exp2 no_choice_table 0 [1]%Q = Ok [] /\
   choice_probability exp2 no_choice_table 0 [1]%Q = Undefined).
Proof.
  split; [vm_compute; reflexivity |].
  apply (choice_probabilities_no_choice exp2 no_choice_table 0 [1]%Q).
  vm_compute. reflexivity.
Defined.

Lemma elem_le_sum_Q (v : vec) (x : Q) :
  (forall y, y ∈ v -> (0 <= y)%Q) -> x ∈ v -> (x <= sum_Q v)%Q.
Proof.
  induction v as [| y v IH]; intros Hpos Hx; [by apply elem_of_nil in Hx |].
  unfold sum_Q in *. simpl.
  assert (0 <= foldr Qplus 0 v)%Q as Hsum.
  { clear -Hpos. induction v as [| z v IH]; simpl; [lra |].
    assert (0 <= z)%Q by (apply Hpos; right; left).
    assert (0 <= foldr Qplus 0 v)%Q.
    { apply IH. intros u Hu. apply Hpos.
      apply elem_of_cons in Hu as [-> | Hu]; [left | right; by right]. }
    lra. }
  apply elem_of_cons in Hx as [-> | Hx]; [lra |].
  assert (0 <= y)%Q by (apply Hpos; left).
  assert (x <= foldr Qplus 0 v)%Q.
  { apply IH; [| done]. intros u Hu. apply Hpos. by right. }
  lra.
Qed.

(** The entries of a result of [choice_probabilities] are values of [exp]
    divided by their common sum. *)
Lemma choice_probabilities_entries (exp : Q -> Q) (this : DCMTable) (p : Z)
    (beta probs : vec) :
  choice_probabilities exp this p beta = Ok probs ->
  exists scores m weights sum,
    choice_scores this p beta
      (Z.of_nat (length probs)) (replicate (length probs) 0%Q)
      = Ok (scores, m) /\
    length scores = length probs /\ length weights = length probs /\
    (forall a s, scores !! a = Some s ->
       weights !! a = Some (exp (s - m + 1)%Q)) /\
    (sum == sum_Q weights)%Q /\
    probs = (fun w => (w / sum)%Q) <$> weights.
Proof.
  intros H. apply choice_probabilities_Ok in H
    as (n & scores & m & weights & sum & _ & Hn & Hscores & Hlens & _
        & Hlenw & Hweights & Hsum & ->).
  exists scores, m, weights, sum. rewrite length_fmap, Hlenw, Z2Nat.id by done.
  split; [done |]. split; [done |]. split; [done |]. split; [done |].
  split; [| done]. by rewrite Hsum, fold_left_Qplus, Qplus_0_l.
Qed.

Lemma choice_probabilities_bounds (exp : Q -> Q) (this : DCMTable) (p : Z)
    (beta probs : vec) (x : Q) :
  (forall u, (0 < exp u)%Q) ->
  choice_probabilities exp this p beta = Ok probs ->
  x ∈ probs ->
  (0 < x)%Q /\ (x <= 1)%Q.
Proof.
  intros Hexp Hprobs Hx.
  destruct (choice_probabilities_entries _ _ _ _ _ Hprobs)
    as (scores & m & weights & sum & _ & Hlens & Hlenw & Hweights & Hsum & Heq).
  assert (forall w, w ∈ weights -> (0 < w)%Q) as Hwpos.
  { intros w Hw. apply list_elem_of_lookup_1 in Hw as (a & Ha).
    destruct (lookup_lt_is_Some_2 scores a) as [s Hs].
    { apply lookup_lt_Some in Ha. lia. }
    rewrite (Hweights a s Hs) in Ha. injection Ha as <-. apply Hexp. }
  assert (0 < sum)%Q as Hsumpos.
  { rewrite Hsum. apply sum_Q_pos; [| done]. intros ->.
    rewrite Heq in Hx. by apply elem_of_nil in Hx. }
  rewrite Heq in Hx. apply list_elem_of_fmap in Hx as (w & -> & Hw).
  split.
  - apply Qlt_shift_div_l; [done |]. rewrite Qmult_0_l. by apply Hwpos.
  - apply Qle_shift_div_r; [done |]. rewrite Qmult_1_l, Hsum.
    apply elem_le_sum_Q; [| done]. intros y Hy.
    by apply Qlt_le_weak, Hwpos.
Qed.

(** X8. In exact arithmetic and with a positive [exp], the result of
    [choice_probabilities] for a person with at least one discrete choice
    is a probability distribution: one entry per discrete choice, every
    entry in (0, 1], and the entries add up to 1. *)
Theorem choice_probabilities_distribution (exp : Q -> Q) (this : DCMTable)
    (p : Z) (beta probs : vec) (n : Z) :
  (forall u, (0 < exp u)%Q) ->
  choice_probabilities exp this p beta = Ok probs ->
  num_discrete_choices this p = Ok n ->
  0 < n ->
  length probs = Z.to_nat n /\
  (forall x, x ∈ probs -> (0 < x)%Q /\ (x <= 1)%Q) /\
  (sum_Q probs == 1)%Q.
Proof.
  intros Hexp Hprobs Hn Hpos.
  destruct (choice_probabilities_exact _ _ _ _ _ _ Hexp Hprobs Hn Hpos)
    as (Hlen & _ & Hsum).
  split; [done |]. split; [| done].
  intros x Hx. by eapply choice_probabilities_bounds.
Qed.

(** [choice_probabilities_distribution] on person 1 of the scenario, with
    the parameters (1, 0) and powers of 2 for [exp]. *)
Lemma choice_probabilities_distribution_witness :
  (forall u, (0 < exp2 u)%Q) /\
  choice_probabilities exp2 scenario_table 1 [1; 0]%Q
    = Ok [2 # 7; 2 # 14; 4 # 7]%Q /\
  num_discrete_choices scenario_table 1 = Ok 3 /\
  0 < 3 /\
  (length [2 # 7; 2 # 14; 4 # 7]%Q = Z.to_nat 3 /\
   (forall x, x ∈ [2 # 7; 2 # 14; 4 # 7]%Q -> (0 < x)%Q /\ (x <= 1)%Q) /\
   (sum_Q [2 # 7; 2 # 14; 4 # 7] == 1)%Q).
Proof.
  split; [apply exp2_pos |]. split; [vm_compute; reflexivity |].
  split; [vm_compute; reflexivity |]. split; [lia |].
  apply (choice_probabilities_distribution exp2 scenario_table 1 [1; 0]%Q).
  - apply exp2_pos.
  - vm_compute. reflexivity.
  - vm_compute. reflexivity.
  - lia.
Defined.

(** X9. With a positive and monotone [exp], an alternative whose dot
    product with [beta] is not smaller gets a probability that is not
    smaller. *)
Theorem choice_probabilities_monotone (exp : Q -> Q) (this : DCMTable)
    (p : Z) (beta probs : vec) (a b : nat) (ra rb : vec) (sa sb x y : Q) :
  (forall u, (0 < exp u)%Q) ->
  (forall u v, (u <= v)%Q -> (exp u <= exp v)%Q) ->
  choice_probabilities exp this p beta = Ok probs ->
  get_attribute_vector this p (Z.of_nat a) = Ok ra -> dot beta ra = Ok sa ->
  get_attribute_vector this p (Z.of_nat b) = Ok rb -> dot beta rb = Ok sb ->
  (sa <= sb)%Q ->
  probs !! a = Some x -> probs !! b = Some y ->
  (x <= y)%Q.
Proof.
  intros Hexp Hmono Hprobs Hra Hsa Hrb Hsb Hle Hx Hy.
  destruct (choice_probabilities_entries _ _ _ _ _ Hprobs)
    as (scores & m & weights & sum & Hscores & Hlens & Hlenw & Hweights
        & Hsum & Heq).
  assert (length (replicate (length probs) 0%Q)
          = Z.to_nat (Z.of_nat (length probs))) as Hv
    by (by rewrite length_replicate, Nat2Z.id).
  destruct (choice_scores_Ok _ _ _ _ _ _ _ Hv Hscores) as (_ & Hall & _).
  assert (forall i r s z, get_attribute_vector this p (Z.of_nat i) = Ok r ->
    dot beta r = Ok s -> probs !! i = Some z ->
    z = (exp (s - m + 1) / sum)%Q) as Hentry.
  { intros i r s z Hr Hs Hz.
    destruct (lookup_lt_is_Some_2 scores i) as [s' Hs'].
    { apply lookup_lt_Some in Hz. lia. }
    destruct (Hall i s' Hs') as [(r' & Hr' & Hdot) _].
    rewrite Hr in Hr'. injection Hr' as <-.
    rewrite Hs in Hdot. injection Hdot as <-.
    rewrite Heq, list_lookup_fmap, (Hweights i s Hs') in Hz.
    by injection Hz as <-. }
  rewrite (Hentry a ra sa x), (Hentry b rb sb y) by done.
  assert (0 < sum)%Q as Hsumpos.
  { rewrite Hsum. apply sum_Q_pos.
    - intros ->. simpl in Hlenw. apply lookup_lt_Some in Hx. lia.
    - intros w Hw. apply list_elem_of_lookup_1 in Hw as (i & Hi).
      destruct (lookup_lt_is_Some_2 scores i) as [s Hs].
      { apply lookup_lt_Some in Hi. lia. }
      rewrite (Hweights i s Hs) in Hi. injection Hi as <-. apply Hexp. }
  unfold Qdiv. apply Qmult_le_compat_r.
  - apply Hmono. lra.
  - apply Qlt_le_weak, Qinv_lt_0_compat, Hsumpos.
Qed.

(** [choice_probabilities_monotone] on the first and third alternative of
    person 1 of the scenario, with the parameters (1, 0). *)
Lemma choice_probabilities_monotone_witness :
  (forall u, (0 < exp2 u)%Q) /\
  (forall u v, (u <= v)%Q -> (exp2 u <= exp2 v)%Q) /\
  choice_probabilities exp2 scenario_table 1 [1; 0]%Q
    = Ok [2 # 7; 2 # 14; 4 # 7]%Q /\
  get_attribute_vector scenario_table 1 (Z.of_nat 0) = Ok [1; 1]%Q /\
  dot [1; 0]%Q [1; 1]%Q = Ok 1%Q /\
  get_attribute_vector scenario_table 1 (Z.of_nat 2) = Ok [2; 0]%Q /\
  dot [1; 0]%Q [2; 0]%Q = Ok 2%Q /\
  (1 <= 2)%Q /\
  (2 # 7 <= 4 # 7)%Q.
Proof.
  split; [apply exp2_pos |]. split; [apply exp2_monotone |].
  split; [vm_compute; reflexivity |]. split; [vm_compute; reflexivity |].
  split; [vm_compute; reflexivity |]. split; [vm_compute; reflexivity |].
  split; [vm_compute; reflexivity |]. split; [by vm_compute |].
  apply (choice_probabilities_monotone exp2 scenario_table 1 [1; 0]%Q
           [2 # 7; 2 # 14; 4 # 7]%Q 0 2 [1; 1]%Q [2; 0]%Q 1%Q 2%Q).
  - apply exp2_pos.
  - apply exp2_monotone.
  - vm_compute. reflexivity.
  - vm_compute. reflexivity.
  - vm_compute. reflexivity.
  - vm_compute. reflexivity.
  - vm_compute. reflexivity.
  - by vm_compute.
  - reflexivity.
  - reflexivity.
Defined.

(** ** The chosen alternative *)

Lemma Init_chosen_index (rand : nat -> nat) (attr : Table) (dims : list Z)
    (dec alts : Table) (this st : DCMTable) (q : nat) (point : vec) (x : Q) :
  Init rand attr dims dec alts this = Ok st ->
  dec !! q = Some point ->
  point !! 0%nat = Some x ->
  get_discrete_choice_index st (Z.of_nat q) = Ok (trunc (x - 1)) /\
  in_int (trunc (x - 1)) = true /\
  0 <= trunc (x - 1) < total_num_discrete_choices st.
Proof.
  intros H Hq Hx. apply Init_Ok in H as (t & _ & _ & Hcount & Hst).
  destruct (indexed_decisions _ _ _ _ Hst q point Hq) as (x' & Hx' & Hnew).
  replace x' with x in * by congruence.
  pose proof (indexed_shuffled _ _ _ _ Hst) as Hshuffled.
  apply count_people_Ok in Hcount as (T & v & HT & -> & Hlen & _ & _ & Hidx).
  apply max_num_alternatives_Ok in HT as (HT & _).
  simpl in *. destruct (Hidx q) as (k & Hk & Hrange).
  { apply lookup_lt_Some in Hq.
    by rewrite Hshuffled, length_fmap, length_seq. }
  change (get_discrete_choice_index (set_per_choice v t) (Z.of_nat q) = Ok k)
    in Hk.
  pose proof Hk as Hk'.
  apply get_discrete_choice_index_Ok in Hk' as (r & y & _ & Hr & Hy & Hcast).
  rewrite Nat2Z.id in Hr. simpl in Hr. rewrite Hnew in Hr. injection Hr as <-.
  rewrite list_lookup_insert_eq in Hy by (by eapply lookup_lt_Some).
  injection Hy as <-. apply static_cast_int_Ok in Hcast as [-> Hint].
  split; [done |]. split; [by apply in_int_spec |].
  unfold total_num_discrete_choices. simpl. rewrite Hlen. lia.
Qed.

Lemma decisions_in_range_counts (rand : nat -> nat) (attr : Table)
    (dims : list Z) (dec alts : Table) (this st : DCMTable) :
  Init rand attr dims dec alts this = Ok st ->
  decisions_in_range dec st = true ->
  counts_nonnegative st = true /\
  forall q, (q < length dec)%nat ->
    exists k, get_discrete_choice_index st (Z.of_nat q) = Ok k /\
              0 <= k < count_at st q.
Proof.
  intros H Hvalid.
  destruct (Init_prefix_sums _ _ _ _ _ _ _ H) as (Hnat & _).
  assert (forall q, (q < length dec)%nat ->
    1 <= count_at st q /\
    exists k, get_discrete_choice_index st (Z.of_nat q) = Ok k /\
              0 <= k < count_at st q) as Hall.
  { intros q Hq. destruct (lookup_lt_is_Some_2 dec q) as [point Hpoint];
      [done |].
    destruct (decisions_in_range_lookup _ _ _ _ Hvalid Hpoint)
      as (x & n & Hx & Hn & H1 & Hxn).
    unfold count_at. rewrite Hn.
    pose proof (trunc_bounds x n H1 Hxn).
    pose proof (trunc_sub_one x H1).
    destruct (Init_chosen_index _ _ _ _ _ _ _ _ _ _ H Hpoint Hx)
      as (Hk & _).
    split; [lia |]. exists (trunc (x - 1)). split; [done | lia]. }
  split.
  - unfold counts_nonnegative. apply forallb_forall. intros n Hn.
    apply list_elem_of_In in Hn. unfold counts in Hn.
    apply list_elem_of_fmap in Hn as (q & -> & Hq).
    apply elem_of_seq in Hq. apply Z.leb_le.
    destruct (Hall q) as [? _]; lia.
  - intros q Hq. by destruct (Hall q Hq) as [_ ?].
Qed.

Lemma Init_choice_probability (exp : Q -> Q) (rand : nat -> nat)
    (attr : Table) (dims : list Z) (dec alts : Table) (this st : DCMTable)
    (p : Z) (beta : vec) :
  Init rand attr dims dec alts this = Ok st ->
  decisions_in_range dec st = true ->
  attributes_match st beta = true ->
  (forall u, (0 < exp u)%Q) ->
  0 <= p < num_people st ->
  exists x, choice_probability exp st p beta = Ok x /\
            (0 < x)%Q /\ (x <= 1)%Q.
Proof.
  intros H Hvalid Hmatch Hexp Hp.
  destruct (Init_prefix_sums _ _ _ _ _ _ _ H) as (Hnat & _).
  destruct (decisions_in_range_counts _ _ _ _ _ _ _ H Hvalid)
    as (Hnonneg & Hchosen).
  destruct (Init_choice_probabilities exp _ _ _ _ _ _ _ p beta
              H Hnonneg Hmatch Hp) as (n & probs & Hn & Hprobs & Hlen).
  destruct (Hchosen (Z.to_nat p)) as (k & Hk & Hrange); [lia |].
  rewrite Z2Nat.id in Hk by lia.
  pose proof (Init_count_at _ _ _ _ _ _ _ (Z.to_nat p) H ltac:(lia)) as Hc.
  rewrite Z2Nat.id, Hn in Hc by lia. injection Hc as Hc.
  destruct (lookup_lt_is_Some_2 probs (Z.to_nat k)) as [x Hx]; [lia |].
  exists x. split.
  - unfold choice_probability. rewrite Hprobs. simpl. rewrite Hk. simpl.
    apply at_Ok. split; [lia | done].
  - eapply choice_probabilities_bounds; [done | done |].
    by eapply list_elem_of_lookup_2.
Qed.

(** X10. After a successful [Init] in which every decision passed in was in
    1..[num_discrete_choices], [choice_probability] is defined for every
    person and every [beta] with as many components as the attribute
    vectors; in exact arithmetic and with a positive [exp] it lies in
    (0, 1]. *)
Theorem choice_probability_defined (exp : Q -> Q) (rand : nat -> nat)
    (attr : Table) (dims : list Z) (dec alts : Table) (this st : DCMTable)
    (p : Z) (beta : vec) :
  Init rand attr dims dec alts this = Ok st ->
  decisions_in_range dec st = true ->
  attributes_match st beta = true ->
  (forall u, (0 < exp u)%Q) ->
  0 <= p < num_people st ->
  exists x, choice_probability exp st p beta = Ok x /\
            (0 < x)%Q /\ (x <= 1)%Q.
Proof. apply Init_choice_probability. Qed.

(** [choice_probability_defined] on person 1 of the scenario. *)
Lemma choice_probability_defined_witness :
  scenario (fun _ => 0%nat) = Ok scenario_table /\
  decisions_in_range scenario_decisions scenario_table = true /\
  attributes_match scenario_table [1; 0]%Q = true /\
  (forall u, (0 < exp2 u)%Q) /\
  0 <= 1 < num_people scenario_table /\
  exists x, choice_probability exp2 scenario_table 1 [1; 0]%Q = Ok x /\
            (0 < x)%Q /\ (x <= 1)%Q.
Proof.
  split; [vm_compute; reflexivity |]. split; [vm_compute; reflexivity |].
  split; [vm_compute; reflexivity |]. split; [apply exp2_pos |].
  split; [by vm_compute |].
  apply (choice_probability_defined exp2 (fun _ => 0%nat)
           scenario_attributes [2] scenario_decisions scenario_alternatives
           empty_table).
  - vm_compute. reflexivity.
  - vm_compute. reflexivity.
  - vm_compute. reflexivity.
  - apply exp2_pos.
  - by vm_compute.
Defined.

(** X11. After a successful [Init] the chosen index of every person is
    the index of a bucket of the per-choice counts, and that bucket counts
    at least this person. *)
Theorem Init_chosen_index_is_bucket (rand : nat -> nat) (attr : Table)
    (dims : list Z) (dec alts : Table) (this st : DCMTable) (p : Z) :
  Init rand attr dims dec alts this = Ok st ->
  0 <= p < num_people st ->
  exists k c,
    get_discrete_choice_index st p = Ok k /\
    0 <= k < total_num_discrete_choices st /\
    num_people_per_discrete_choice st k = Ok c /\
    1 <= c <= num_people st.
Proof.
  intros H Hp.
  destruct (Init_prefix_sums _ _ _ _ _ _ _ H) as (Hnat & _).
  pose proof H as H'.
  apply Init_Ok in H' as (t & _ & _ & Hcount & Hst).
  pose proof (indexed_shuffled _ _ _ _ Hst) as Hshuffled.
  apply count_people_Ok in Hcount
    as (T & v & HT & -> & Hlen & Hbucket & _ & Hidx).
  apply max_num_alternatives_Ok in HT as (HT & _).
  assert (length (shuffled_indices_for_person_ t) = length dec) as Hn.
  { simpl in Hshuffled. by rewrite Hshuffled, length_fmap, length_seq. }
  destruct (Hidx (Z.to_nat p)) as (k & Hk & Hrange); [lia |].
  rewrite Z2Nat.id in Hk by lia.
  exists k, (people_choosing t k (length dec)).
  split; [done |]. unfold total_num_discrete_choices. simpl.
  split; [lia |]. split.
  - unfold num_people_per_discrete_choice. simpl. apply at_Ok.
    split; [lia |]. rewrite Hbucket, Hn by lia. by rewrite Z2Nat.id by lia.
  - unfold people_choosing.
    assert (Z.to_nat p ∈ List.filter (chose t k) (seq 0 (length dec))) as Hin.
    { apply list_elem_of_In, filter_In. split.
      - apply in_seq. lia.
      - apply chose_true. by rewrite Z2Nat.id by lia. }
    pose proof (List.filter_length_le (chose t k) (seq 0 (length dec))) as Hle.
    rewrite length_seq in Hle.
    destruct (List.filter (chose t k) (seq 0 (length dec))) as [| y l];
      [by apply elem_of_nil in Hin |].
    simpl in *. lia.
Qed.

(** [Init_chosen_index_is_bucket] on person 1 of the scenario. *)
Lemma Init_chosen_index_is_bucket_witness :
  scenario (fun _ => 0%nat) = Ok scenario_table /\
  0 <= 1 < num_people scenario_table /\
  exists k c,
    get_discrete_choice_index scenario_table 1 = Ok k /\
    0 <= k < total_num_discrete_choices scenario_table /\
    num_people_per_discrete_choice scenario_table k = Ok c /\
    1 <= c <= num_people scenario_table.
Proof.
  split; [vm_compute; reflexivity |]. split; [by vm_compute |].
  apply (Init_chosen_index_is_bucket (fun _ => 0%nat) scenario_attributes
           [2] scenario_decisions scenario_alternatives empty_table).
  - vm_compute. reflexivity.
  - by vm_compute.
Defined.

(** ** The fatal exit of [Init] *)

(** X12. When there is at least one person, every point of the decisions
    table has a component, the alternatives table has one entry per
    person, none negative, and their sum is an [int] that differs from the
    number of attribute vectors, [Init] ends the process with status 0 and
    the message; the values of the decisions, the generator and the
    previous state of the table do not matter. *)
Theorem Init_exits_on_mismatch (rand : nat -> nat) (attr : Table)
    (dims : list Z) (dec alts : Table) (this : DCMTable)
    (counts : list Z) :
  (0 < length dec)%nat ->
  (forall point, point ∈ dec -> point <> []) ->
  length counts = length dec ->
  Forall2 (fun point n =>
             exists x, point !! 0%nat = Some x /\ static_cast_int x = Ok n)
    alts counts ->
  Forall (fun n => 0 <= n) counts ->
  sum_int counts <= INT_MAX ->
  sum_int counts <> n_entries attr ->
  Init rand attr dims dec alts this = Exit 0 mismatch_message.
Proof.
  intros Hpos Hne Hlen Halts Hnonneg Hmax Hsum.
  destruct (subtract_ones_total (set_tables attr dims dec alts this))
    as (t0 & Ht0); [done |].
  destruct (subtract_ones_Ok _ _ Ht0) as (d & -> & Hlen_d & _).
  simpl in Hlen_d.
  destruct (accumulate_choices_total
    (shuffle_people rand
       (set_distribution (Distribution_Init dims)
          (set_decisions_table d (set_tables attr dims dec alts this))))
    counts) as (c & Hacc & Hlen_c & Hsums); simpl; try done; try lia.
  set (t := set_cumulative c _) in Hacc.
  assert (Init_index rand attr dims dec alts this = Ok t) as Hindex.
  { unfold Init_index. rewrite Ht0. simpl. exact Hacc. }
  set (n := length dec) in *.
  destruct (lookup_lt_is_Some_2 counts (n - 1)) as [m Hm]; [lia |].
  destruct (Forall2_lookup_r _ _ _ _ _ Halts Hm)
    as (point & Hpoint & x & Hx & Hcast).
  assert (sum_int (take (n - 1) counts) + m = sum_int counts) as Htotal.
  { rewrite <- (firstn_all counts) at 2.
    replace (length counts) with (S (n - 1)) by lia.
    by rewrite (sum_int_take_S _ _ m). }
  pose proof (sum_int_take counts (n - 1) Hnonneg) as Hprefix.
  unfold Init. rewrite Hindex. simpl.
  rewrite (check_total_eval t (sum_int (take (n - 1) counts)) m).
  - rewrite Htotal. simpl. by rewrite decide_True.
  - unfold num_people. simpl. rewrite Hlen_c.
    replace (Z.of_nat (length counts) - 1) with (Z.of_nat (n - 1)) by lia.
    apply at_of_nat, Hsums. lia.
  - unfold num_people. simpl. rewrite Hlen_c.
    replace (Z.of_nat (length counts) - 1) with (Z.of_nat (n - 1)) by lia.
    apply num_discrete_choices_Ok. exists point, x. rewrite Nat2Z.id.
    split; [lia | done].
  - apply in_int_spec. rewrite Htotal. unfold INT_MIN. lia.
Qed.

(** [Init_exits_on_mismatch] on the scenario with an attribute vector
    missing. *)
Lemma Init_exits_on_mismatch_witness :
  (0 < length scenario_decisions)%nat /\
  (forall point, point ∈ scenario_decisions -> point <> []) /\
  length [2; 3] = length scenario_decisions /\
  Forall2 (fun point n =>
             exists x, point !! 0%nat = Some x /\ static_cast_int x = Ok n)
    scenario_alternatives [2; 3] /\
  Forall (fun n => 0 <= n) [2; 3] /\
  sum_int [2; 3] <= INT_MAX /\
  sum_int [2; 3] <> n_entries short_attributes /\
  Init (fun _ => 0%nat) short_attributes [2] scenario_decisions
    scenario_alternatives empty_table = Exit 0 mismatch_message.
Proof.
  assert (forall point, point ∈ scenario_decisions -> point <> []) as Hne.
  { intros point Hin ->. unfold scenario_decisions in Hin.
    apply elem_of_cons in Hin as [Hin | Hin]; [done |].
    apply elem_of_cons in Hin as [Hin | Hin]; [done |].
    by apply elem_of_nil in Hin. }
  assert (Forall2 (fun point n =>
             exists x, point !! 0%nat = Some x /\ static_cast_int x = Ok n)
    scenario_alternatives [2; 3]) as Halts.
  { repeat constructor; eexists; (split; [reflexivity | by vm_compute]). }
  assert (Forall (fun n => 0 <= n) [2; 3]) as Hnonneg
    by (repeat constructor; lia).
  split; [simpl; lia |]. split; [exact Hne |]. split; [reflexivity |].
  split; [exact Halts |]. split; [exact Hnonneg |].
  split; [by vm_compute |]. split; [by vm_compute |].
  apply (Init_exits_on_mismatch (fun _ => 0%nat) short_attributes [2]
           scenario_decisions scenario_alternatives empty_table [2; 3]).
  - simpl. lia.
  - exact Hne.
  - reflexivity.
  - exact Halts.
  - exact Hnonneg.
  - by vm_compute.
  - by vm_compute.
Defined.

(** ** The previous state of the table *)

(** Two runs of a loop whose bodies keep a relation between the states end
    in the same way. *)
Lemma for_loop_rel {St} (R : nat -> St -> St -> Prop)
    (body : nat -> St -> Outcome St) (count lo : nat) (s s' : St) :
  R lo s s' ->
  (forall i x x', (lo <= i < lo + count)%nat -> R i x x' ->
     same_outcome (R (S i)) (body i x) (body i x')) ->
  same_outcome (R (lo + count)%nat)
    (for_loop lo count body s) (for_loop lo count body s').
Proof.
  revert lo s s'. induction count as [| count IH]; intros lo s s' HR Hbody.
  - simpl. by rewrite Nat.add_0_r.
  - simpl. pose proof (Hbody lo s s' ltac:(lia) HR) as Hstep.
    destruct (body lo s) as [y | | |], (body lo s') as [y' | | |];
      simpl in *; try done.
    replace (lo + S count)%nat with (S lo + count)%nat by lia.
    apply IH; [done |]. intros i x x' Hi. apply Hbody. lia.
Qed.

(** The offsets do not depend on what the vector held before. *)
Lemma accumulate_choices_prior (this : DCMTable) (c : list Z) :
  accumulate_choices (set_cumulative c this) = accumulate_choices this.
Proof.
  unfold accumulate_choices. simpl.
  set (n := length (decisions_table_ this)).
  rewrite !length_resize. case_decide as Hn; [| done]. simpl.
  rewrite !length_insert, !length_resize.
  pose (R := fun (k : nat) (u v : list Z) =>
    length u = n /\ length v = n /\
    forall i, (i < k)%nat -> u !! i = v !! i).
  pose proof (for_loop_rel R
    (fun i c =>
       point <- get (num_alternatives_table_ this) (Z.of_nat (i - 1)) ;;
       x <- at_ point 0 ;;
       num_choices_for_current_person <- static_cast_int x ;;
       prev <- at_ c (Z.of_nat (i - 1)) ;;
       s <- int_add prev num_choices_for_current_person ;;
       Ok (<[i := s]> c))
    (n - 1) 1
    (<[0%nat := 0]> (resize n c))
    (<[0%nat := 0]> (resize n (cumulative_num_discrete_choices_ this))))
    as Hrel.
  match type of Hrel with
  | ?A -> ?B -> same_outcome _ ?o ?o' =>
      assert (same_outcome (R (1 + (n - 1))%nat) o o') as Hsame
  end.
  { apply Hrel.
    - split; [by rewrite length_insert, length_resize |].
      split; [by rewrite length_insert, length_resize |].
      intros i Hi. replace i with 0%nat by lia.
      by rewrite !list_lookup_insert_eq by (rewrite length_resize; lia).
    - clear. intros i u v Hi (Hu & Hv & Heq).
      destruct (get (num_alternatives_table_ this) (Z.of_nat (i - 1)))
        as [point | | |]; simpl; try done.
      destruct (at_ point 0) as [x | | |]; simpl; try done.
      destruct (static_cast_int x) as [m | | |]; simpl; try done.
      assert (at_ u (Z.of_nat (i - 1)) = at_ v (Z.of_nat (i - 1))) as ->.
      { unfold at_. rewrite Nat2Z.id, Heq by lia. done. }
      destruct (at_ v (Z.of_nat (i - 1))) as [prev | | |]; simpl; try done.
      destruct (int_add prev m) as [s | | |]; simpl; try done.
      split; [by rewrite length_insert |].
      split; [by rewrite length_insert |].
      intros j Hj. destruct (decide (j = i)) as [-> | Hne].
      + by rewrite !list_lookup_insert_eq by lia.
      + rewrite !list_lookup_insert_ne by done. apply Heq. lia. }
  clear Hrel.
  match type of Hsame with
  | same_outcome _ ?o ?o' =>
      destruct o as [u | | |], o' as [v | | |]; simpl in *; try done
  end.
  - destruct Hsame as (Hu & Hv & Heq). replace u with v; [reflexivity |].
    apply list_eq. intros i. destruct (decide (i < n)%nat) as [Hi | Hi].
    + symmetry. apply Heq. lia.
    + rewrite !lookup_ge_None_2 by lia. done.
  - by destruct Hsame as [-> ->].
  - by rewrite Hsame.
Qed.

Lemma shuffle_people_prior (rand : nat -> nat) (this : DCMTable) :
  shuffle_people rand this
  = set_shuffled
      (random_shuffle rand
         (Z.of_nat <$> seq 0 (length (decisions_table_ this)))) this.
Proof.
  unfold shuffle_people. by rewrite fill_indices, length_resize.
Qed.

Lemma accumulate_choices_per (this : DCMTable) (x : list Z) :
  accumulate_choices (set_per_choice x this)
  = (t <- accumulate_choices this ;; Ok (set_per_choice x t)).
Proof.
  unfold accumulate_choices. simpl. case_decide; [| done]. simpl.
  match goal with
  | |- context [for_loop 1 ?k ?b ?s] => destruct (for_loop 1 k b s)
  end; reflexivity.
Qed.

Lemma check_total_per (this : DCMTable) (x : list Z) :
  check_total (set_per_choice x this)
  = (t <- check_total this ;; Ok (set_per_choice x t)).
Proof.
  unfold check_total. simpl.
  destruct (get _ _) as [point | | |]; simpl; try done.
  destruct (at_ point 0) as [y | | |]; simpl; try done.
  destruct (static_cast_int y) as [m | | |]; simpl; try done.
  destruct (at_ _ _) as [last | | |]; simpl; try done.
  destruct (int_add last m) as [total | | |]; simpl; try done.
  by case_decide.
Qed.

Lemma count_people_per (this : DCMTable) (x : list Z) :
  count_people (set_per_choice x this) = count_people this.
Proof.
  unfold count_people.
  change (max_num_alternatives (set_per_choice x this))
    with (max_num_alternatives this).
  destruct (max_num_alternatives this) as [T | | |]; simpl; try done.
  by rewrite !length_resize.
Qed.

(** X13. [Init] overwrites the whole table: its result is the same whatever
    the table held before the call. *)
Theorem Init_prior_state (rand : nat -> nat) (attr : Table) (dims : list Z)
    (dec alts : Table) (this this' : DCMTable) :
  Init rand attr dims dec alts this = Init rand attr dims dec alts this'.
Proof.
  assert (forall that,
    Init rand attr dims dec alts that
    = Init rand attr dims dec alts empty_table) as Hempty.
  { intros that. unfold Init, Init_index, subtract_ones. simpl.
    match goal with
    | |- context [for_loop 0 ?k ?b ?s] =>
        destruct (for_loop 0 k b s) as [d | | |]
    end; simpl; try reflexivity.
    rewrite !shuffle_people_prior. simpl.
    match goal with
    | |- context [random_shuffle ?r ?l] => set (shuffled := random_shuffle r l)
    end.
    set (base := {| distribution_ := Distribution_Init dims;
                    attribute_table_ := attr;
                    attribute_dimensions_ := dims;
                    decisions_table_ := d;
                    num_alternatives_table_ := alts;
                    cumulative_num_discrete_choices_ := [];
                    shuffled_indices_for_person_ := shuffled;
                    num_people_per_discrete_choice_ := [] |}).
    change (set_shuffled shuffled
              (set_distribution (Distribution_Init dims)
                 (set_decisions_table d (set_tables attr dims dec alts that))))
      with (set_cumulative (cumulative_num_discrete_choices_ that)
              (set_per_choice (num_people_per_discrete_choice_ that) base)).
    change (set_shuffled shuffled
              (set_distribution (Distribution_Init dims)
                 (set_decisions_table d
                    (set_tables attr dims dec alts empty_table))))
      with base.
    rewrite accumulate_choices_prior, accumulate_choices_per.
    destruct (accumulate_choices base) as [t | | |]; simpl; try reflexivity.
    rewrite check_total_per.
    destruct (check_total t) as [t' | | |]; simpl; try reflexivity.
    apply count_people_per. }
  by rewrite (Hempty this), (Hempty this').
Qed.

(** ** The random dataset *)

(** A loop that writes [f j] at every position [j] builds the vector of
    the [f j]. *)
Lemma for_loop_fill {A} (f : nat -> A)
    (body : nat -> list A -> Outcome (list A)) (n : nat) (v : list A) :
  length v = n ->
  (forall j w, (j < n)%nat -> length w = n -> w !! j = v !! j ->
     body j w = Ok (<[j := f j]> w)) ->
  for_loop 0 n body v = Ok (f <$> seq 0 n).
Proof.
  intros Hv Hbody.
  destruct (for_loop_total
    (fun k w => length w = n /\ take k w = f <$> seq 0 k /\
                drop k w = drop k v)
    body n 0 v) as (w & Hrun & Hlen & Htake & _).
  - done.
  - intros j w Hj (Hlen & Htake & Hdrop).
    exists (<[j := f j]> w). split.
    + apply Hbody; [lia | done |].
      pose proof (f_equal (fun l => l !! 0%nat) Hdrop) as H0. simpl in H0.
      by rewrite !lookup_drop, Nat.add_0_r in H0.
    + split; [by rewrite length_insert |]. split.
      * rewrite seq_S, fmap_app. simpl.
        rewrite (take_S_r _ _ (f j)) by (apply list_lookup_insert_eq; lia).
        rewrite take_insert_ge by lia. by rewrite Htake.
      * rewrite drop_insert_lt by lia.
        replace (S j) with (j + 1)%nat by lia.
        rewrite <- !drop_drop. by rewrite Hdrop.
  - rewrite Hrun. f_equal. simpl in Htake. rewrite <- Htake.
    symmetry. apply take_ge. lia.
Qed.

Lemma store_Ok {A} (v : list A) (i : nat) (x : A) :
  (i < length v)%nat -> store v (Z.of_nat i) x = Ok (<[i := x]> v).
Proof.
  intros Hi. unfold store.
  destruct (Z.leb_spec 0 (Z.of_nat i)); [| lia].
  destruct (Z.ltb_spec (Z.of_nat i) (Z.of_nat (length v))); [| lia].
  simpl. by rewrite Nat2Z.id.
Qed.

Lemma store_0 {A} (v : list A) (x : A) :
  (0 < length v)%nat -> store v 0 x = Ok (<[0%nat := x]> v).
Proof. apply (store_Ok v 0%nat). Qed.

Lemma elem_le_sum_int (v : list Z) (j : nat) (c : Z) :
  Forall (fun n => 0 <= n) v -> v !! j = Some c -> c <= sum_int v.
Proof.
  intros Hv Hj. pose proof (sum_int_take v j Hv) as [H0 _].
  pose proof (sum_int_take v (S j) Hv) as [_ H1].
  rewrite (sum_int_take_S _ _ _ Hj) in H1. lia.
Qed.

Lemma accumulate_total (v : list Z) :
  Forall (fun n => 0 <= n) v -> sum_int v <= INT_MAX ->
  accumulate v 0 = Ok (sum_int v).
Proof.
  intros Hv Hmax. unfold accumulate.
  destruct (for_loop_total (fun k acc => acc = sum_int (take k v))
    (fun j acc => x <- at_ v (Z.of_nat j) ;; int_add acc x)
    (length v) 0 0) as (s & Hrun & Hs).
  - done.
  - intros j acc Hj ->.
    destruct (lookup_lt_is_Some_2 v j) as [x Hx]; [lia |].
    exists (sum_int (take (S j) v)). split; [| done].
    apply bind_Ok. exists x. split; [by apply at_of_nat |].
    apply int_add_Ok. rewrite (sum_int_take_S _ _ _ Hx). split; [done |].
    pose proof (sum_int_take v (S j) Hv) as H.
    rewrite (sum_int_take_S _ _ _ Hx) in H. unfold INT_MIN. lia.
  - rewrite Hrun. f_equal. rewrite Hs. simpl. by rewrite firstn_all.
Qed.

Lemma draws_in_range_lookup (gen : Generator) (n j : nat) :
  draws_in_range gen n = true -> (j < n)%nat ->
  0 <= RandInt gen j (RandInt_range gen j) < RandInt_range gen j.
Proof.
  unfold draws_in_range. rewrite forallb_forall. intros H Hj.
  specialize (H j). simpl in H.
  rewrite andb_true_iff, Z.leb_le, Z.ltb_lt in H. apply H.
  apply list_elem_of_In, elem_of_seq. lia.
Qed.

Lemma drawn_counts_lookup (gen : Generator) (n j : nat) :
  (j < n)%nat -> drawn_counts gen n !! j = Some (RandInt_range gen j).
Proof.
  intros Hj. unfold drawn_counts.
  by rewrite list_lookup_fmap, lookup_seq_lt.
Qed.

Lemma drawn_counts_positive (gen : Generator) (n : nat) :
  draws_in_range gen n = true ->
  Forall (fun c => 1 <= c) (drawn_counts gen n).
Proof.
  intros H. apply Forall_lookup. intros j c Hc.
  pose proof (lookup_lt_Some _ _ _ Hc) as Hj.
  unfold drawn_counts in Hj. rewrite length_fmap, length_seq in Hj.
  rewrite drawn_counts_lookup in Hc by done. injection Hc as <-.
  pose proof (draws_in_range_lookup gen n j H Hj). lia.
Qed.

(** [GenerateRandomDataset] is [Init] on the tables of the draws. *)
Lemma GenerateRandomDataset_Init (gen : Generator) (rand : nat -> nat)
    (n a : Z) (dims : list Z) (this : DCMTable) :
  0 <= n -> 0 <= a ->
  draws_in_range gen (Z.to_nat n) = true ->
  sum_int (drawn_counts gen (Z.to_nat n)) <= INT_MAX ->
  GenerateRandomDataset gen rand n a dims this
  = Init rand
      (drawn_attributes gen (Z.to_nat a)
         (Z.to_nat (sum_int (drawn_counts gen (Z.to_nat n)))))
      dims
      (drawn_decisions gen (Z.to_nat n))
      (drawn_alternatives gen (Z.to_nat n))
      this.
Proof.
  intros Hn Ha Hdraws Hmax.
  pose proof (drawn_counts_positive gen _ Hdraws) as Hone.
  assert (Forall (fun c => 0 <= c) (drawn_counts gen (Z.to_nat n)))
    as Hnonneg.
  { eapply Forall_impl; [exact Hone |]. simpl. intros; lia. }
  pose proof (sum_int_take _ 0 Hnonneg) as [_ Htotal]. simpl in Htotal.
  set (N := Z.to_nat n) in *. set (total := sum_int (drawn_counts gen N)) in *.
  unfold GenerateRandomDataset, vector_int.
  destruct (Z.ltb_spec n 0); [lia |]. simpl. fold N.
  (* the numbers of discrete choices *)
  rewrite (for_loop_fill (RandInt_range gen) _ N (replicate N 0)).
  2: by rewrite length_replicate.
  2: { intros j w Hj Hlen _. apply store_Ok. lia. }
  simpl. fold (drawn_counts gen N).
  rewrite (accumulate_total _ Hnonneg Hmax). simpl. fold total.
  (* the attribute table *)
  unfold Table_Init.
  destruct (Z.ltb_spec a 0); [lia |].
  destruct (Z.ltb_spec total 0); [lia |]. simpl.
  rewrite (for_loop_fill (fun j => Random gen j <$> seq 0 (Z.to_nat a)) _
             (Z.to_nat total)
             (replicate (Z.to_nat total) (replicate (Z.to_nat a) 0%Q))).
  2: by rewrite length_replicate.
  2: { intros j w Hj Hlen Hw.
       rewrite lookup_replicate_2 in Hw by done.
       apply get_Ok in Hw. rewrite Hw. simpl.
       rewrite (for_loop_fill (Random gen j) _ (Z.to_nat a)
                  (replicate (Z.to_nat a) 0%Q)).
       - done.
       - by rewrite length_replicate.
       - intros i p Hi Hp _. apply store_Ok. lia. }
  simpl. fold (drawn_attributes gen (Z.to_nat a) (Z.to_nat total)).
  (* the numbers of alternatives *)
  destruct (Z.ltb_spec n 0); [lia |]. simpl.
  rewrite (for_loop_fill (fun j => [inject_Z (RandInt_range gen j)]) _ N
             (replicate N [0%Q])).
  2: by rewrite length_replicate.
  2: { intros j w Hj Hlen Hw.
       rewrite lookup_replicate_2 in Hw by done.
       apply get_Ok in Hw. rewrite Hw. simpl.
       assert (at_ (drawn_counts gen N) (Z.of_nat j)
               = Ok (RandInt_range gen j)) as ->
         by (by apply at_of_nat, drawn_counts_lookup).
       simpl. done. }
  simpl. fold (drawn_alternatives gen N).
  (* the decisions *)
  rewrite (for_loop_fill
             (fun j => [inject_Z (RandInt gen j (RandInt_range gen j) + 1)])
             _ N (replicate N [0%Q])).
  2: by rewrite length_replicate.
  2: { intros j w Hj Hlen Hw.
       rewrite lookup_replicate_2 in Hw by done.
       apply get_Ok in Hw. rewrite Hw. simpl.
       assert (at_ (drawn_counts gen N) (Z.of_nat j)
               = Ok (RandInt_range gen j)) as ->
         by (by apply at_of_nat, drawn_counts_lookup).
       simpl.
       pose proof (draws_in_range_lookup gen N j Hdraws Hj) as Hr.
       pose proof (elem_le_sum_int _ j _ Hnonneg
                     (drawn_counts_lookup gen N j Hj)) as Hle.
       assert (int_add (RandInt gen j (RandInt_range gen j)) 1
               = Ok (RandInt gen j (RandInt_range gen j) + 1)) as ->.
       { apply int_add_Ok. split; [done |]. unfold INT_MIN. fold total in Hle.
         lia. }
       simpl. done. }
  simpl. reflexivity.
Qed.

Lemma static_cast_int_inject_Z (c : Z) :
  INT_MIN <= c <= INT_MAX -> static_cast_int (inject_Z c) = Ok c.
Proof.
  intros H. apply static_cast_int_Ok. unfold trunc. simpl.
  by rewrite Z.quot_1_r.
Qed.

(** The tables of the draws are a valid input of [Init]. *)
Lemma drawn_valid_input (gen : Generator) (n a : nat) :
  (0 < n)%nat ->
  draws_in_range gen n = true ->
  sum_int (drawn_counts gen n) <= INT_MAX ->
  valid_input
    (drawn_attributes gen a (Z.to_nat (sum_int (drawn_counts gen n))))
    (drawn_decisions gen n) (drawn_alternatives gen n).
Proof.
  intros Hn Hdraws Hmax.
  pose proof (drawn_counts_positive gen _ Hdraws) as Hone.
  assert (Forall (fun c => 0 <= c) (drawn_counts gen n)) as Hnonneg.
  { eapply Forall_impl; [exact Hone |]. simpl. intros; lia. }
  pose proof (sum_int_take _ 0 Hnonneg) as [_ Htotal]. simpl in Htotal.
  split; [unfold drawn_decisions; by rewrite length_fmap, length_seq |].
  split.
  { unfold n_entries, drawn_attributes. rewrite length_fmap, length_seq. lia. }
  exists (drawn_counts gen n). split; [| split].
  - unfold drawn_alternatives, drawn_counts. apply Forall2_fmap.
    apply Forall_Forall2_diag, Forall_forall. intros j Hj.
    apply elem_of_seq in Hj. eexists. split; [reflexivity |].
    apply static_cast_int_inject_Z.
    pose proof (draws_in_range_lookup gen n j Hdraws ltac:(lia)).
    pose proof (elem_le_sum_int _ j _ Hnonneg
                  (drawn_counts_lookup gen n j ltac:(lia))).
    unfold INT_MIN. lia.
  - unfold drawn_decisions, drawn_counts. apply Forall2_fmap.
    apply Forall_Forall2_diag, Forall_forall. intros j Hj.
    apply elem_of_seq in Hj. eexists. split; [reflexivity |].
    pose proof (draws_in_range_lookup gen n j Hdraws ltac:(lia)).
    unfold Qle. simpl. lia.
  - unfold n_entries, drawn_attributes. rewrite length_fmap, length_seq. lia.
Qed.

(** What a completed [GenerateRandomDataset] leaves in the table. *)
Lemma GenerateRandomDataset_Ok (gen : Generator) (rand : nat -> nat)
    (n a : Z) (dims : list Z) (this st : DCMTable) :
  0 < n -> 0 <= a ->
  draws_in_range gen (Z.to_nat n) = true ->
  sum_int (drawn_counts gen (Z.to_nat n)) <= INT_MAX ->
  GenerateRandomDataset gen rand n a dims this = Ok st ->
  Init rand
    (drawn_attributes gen (Z.to_nat a)
       (Z.to_nat (sum_int (drawn_counts gen (Z.to_nat n)))))
    dims (drawn_decisions gen (Z.to_nat n))
    (drawn_alternatives gen (Z.to_nat n)) this = Ok st /\
  num_people st = n /\
  (forall p, (p < Z.to_nat n)%nat ->
     num_discrete_choices st (Z.of_nat p) = Ok (RandInt_range gen p) /\
     get_discrete_choice_index st (Z.of_nat p)
     = Ok (RandInt gen p (RandInt_range gen p))) /\
  counts st = drawn_counts gen (Z.to_nat n).
Proof.
  intros Hn Ha Hdraws Hmax H.
  rewrite GenerateRandomDataset_Init in H by (done || lia).
  pose proof (drawn_counts_positive gen _ Hdraws) as Hone.
  assert (Forall (fun c => 0 <= c) (drawn_counts gen (Z.to_nat n)))
    as Hnonneg.
  { eapply Forall_impl; [exact Hone |]. simpl. intros; lia. }
  set (N := Z.to_nat n) in *.
  split; [done |].
  destruct (Init_Ok _ _ _ _ _ _ _ H) as (_ & _ & _ & _ & Hst).
  assert (num_people st = n) as Hpeople.
  { rewrite (indexed_num_people _ _ _ _ Hst). unfold n_entries, drawn_decisions.
    rewrite length_fmap, length_seq. lia. }
  split; [done |].
  assert (forall p, (p < N)%nat ->
    num_discrete_choices st (Z.of_nat p) = Ok (RandInt_range gen p) /\
    get_discrete_choice_index st (Z.of_nat p)
    = Ok (RandInt gen p (RandInt_range gen p))) as Hall.
  { intros p Hp.
    pose proof (draws_in_range_lookup gen N p Hdraws Hp) as Hr.
    pose proof (elem_le_sum_int _ p _ Hnonneg
                  (drawn_counts_lookup gen N p Hp)) as Hle.
    split.
    - apply num_discrete_choices_Ok.
      exists [inject_Z (RandInt_range gen p)], (inject_Z (RandInt_range gen p)).
      rewrite Nat2Z.id, (indexed_alternatives _ _ _ _ Hst).
      split; [lia |]. split.
      { unfold drawn_alternatives.
        by rewrite list_lookup_fmap, lookup_seq_lt. }
      split; [done |]. apply static_cast_int_inject_Z. unfold INT_MIN. lia.
    - destruct (Init_chosen_index _ _ _ _ _ _ _ p
                  [inject_Z (RandInt gen p (RandInt_range gen p) + 1)]
                  (inject_Z (RandInt gen p (RandInt_range gen p) + 1)) H)
        as (Hk & _).
      { unfold drawn_decisions. by rewrite list_lookup_fmap, lookup_seq_lt. }
      { done. }
      rewrite Hk. f_equal. rewrite trunc_sub_one by (unfold Qle; simpl; lia).
      unfold trunc. simpl. rewrite Z.quot_1_r. lia. }
  split; [done |].
  unfold counts, drawn_counts. rewrite Hpeople. fold N.
  apply list_eq. intros i. rewrite !list_lookup_fmap.
  destruct (decide (i < N)%nat) as [Hi | Hi].
  - rewrite lookup_seq_lt by done. simpl. f_equal. unfold count_at.
    by destruct (Hall i Hi) as [-> _].
  - by rewrite lookup_seq_ge by lia.
Qed.

Lemma GenerateRandomDataset_total (gen : Generator) (rand : nat -> nat)
    (n a : Z) (dims : list Z) (this : DCMTable) :
  0 < n -> 0 <= a ->
  draws_in_range gen (Z.to_nat n) = true ->
  sum_int (drawn_counts gen (Z.to_nat n)) <= INT_MAX ->
  exists st, GenerateRandomDataset gen rand n a dims this = Ok st.
Proof.
  intros Hn Ha Hdraws Hmax.
  rewrite GenerateRandomDataset_Init by (done || lia).
  apply Init_total, drawn_valid_input; (done || lia).
Qed.

(** X14. Asked for at least one person and a number of attributes that is
    not negative, [GenerateRandomDataset] completes whenever every decision
    drawn is an index below the number of discrete choices drawn for the
    person and these numbers add up to an [int]: the tables it builds pass
    the check of [Init].  The table then has the requested number of
    people and the numbers of discrete choices drawn, and as many
    attribute vectors as these add up to. *)
Theorem GenerateRandomDataset_completes (gen : Generator)
    (rand : nat -> nat) (n a : Z) (dims : list Z) (this : DCMTable) :
  0 < n -> 0 <= a ->
  draws_in_range gen (Z.to_nat n) = true ->
  sum_int (drawn_counts gen (Z.to_nat n)) <= INT_MAX ->
  exists st,
    GenerateRandomDataset gen rand n a dims this = Ok st /\
    num_people st = n /\
    counts st = drawn_counts gen (Z.to_nat n) /\
    n_entries (attribute_table_ st) = sum_int (counts st).
Proof.
  intros Hn Ha Hdraws Hmax.
  destruct (GenerateRandomDataset_total gen rand n a dims this)
    as (st & H); [done .. |].
  exists st. split; [done |].
  destruct (GenerateRandomDataset_Ok _ _ _ _ _ _ _ Hn Ha Hdraws Hmax H)
    as (HInit & Hpeople & _ & Hcounts).
  split; [done |]. split; [done |].
  destruct (Init_prefix_sums _ _ _ _ _ _ _ HInit) as (_ & _ & Hsum & _).
  apply Init_Ok in HInit as (_ & _ & _ & _ & Hst).
  by rewrite (indexed_attributes _ _ _ _ Hst), Hsum.
Qed.

(** [GenerateRandomDataset_completes] on two people with two attributes. *)
Lemma GenerateRandomDataset_completes_witness :
  0 < 2 /\ 0 <= 2 /\
  draws_in_range counting_generator (Z.to_nat 2) = true /\
  sum_int (drawn_counts counting_generator (Z.to_nat 2)) <= INT_MAX /\
  exists st,
    GenerateRandomDataset counting_generator (fun _ => 0%nat) 2 2 [2]
      empty_table = Ok st /\
    num_people st = 2 /\
    counts st = drawn_counts counting_generator (Z.to_nat 2) /\
    n_entries (attribute_table_ st) = sum_int (counts st).
Proof.
  split; [lia |]. split; [lia |]. split; [vm_compute; reflexivity |].
  split; [by vm_compute |].
  apply (GenerateRandomDataset_completes counting_generator (fun _ => 0%nat)
           2 2 [2] empty_table).
  - lia.
  - lia.
  - vm_compute. reflexivity.
  - by vm_compute.
Defined.

(** X15. In the table of a completed [GenerateRandomDataset] the number of
    discrete choices of a person is the number drawn for that person, and
    the chosen index is the decision drawn: the 1 that the generator adds
    is the 1 that [Init] subtracts. *)
Theorem GenerateRandomDataset_decisions (gen : Generator) (rand : nat -> nat)
    (n a : Z) (dims : list Z) (this st : DCMTable) (p : Z) :
  0 < n -> 0 <= a ->
  draws_in_range gen (Z.to_nat n) = true ->
  sum_int (drawn_counts gen (Z.to_nat n)) <= INT_MAX ->
  GenerateRandomDataset gen rand n a dims this = Ok st ->
  0 <= p < n ->
  num_discrete_choices st p = Ok (RandInt_range gen (Z.to_nat p)) /\
  get_discrete_choice_index st p
  = Ok (RandInt gen (Z.to_nat p) (RandInt_range gen (Z.to_nat p))).
Proof.
  intros Hn Ha Hdraws Hmax H Hp.
  destruct (GenerateRandomDataset_Ok _ _ _ _ _ _ _ Hn Ha Hdraws Hmax H)
    as (_ & _ & Hall & _).
  specialize (Hall (Z.to_nat p) ltac:(lia)).
  by rewrite Z2Nat.id in Hall by lia.
Qed.

(** [GenerateRandomDataset_decisions] on person 1 of two. *)
Lemma GenerateRandomDataset_decisions_witness :
  0 < 2 /\ 0 <= 2 /\
  draws_in_range counting_generator (Z.to_nat 2) = true /\
  sum_int (drawn_counts counting_generator (Z.to_nat 2)) <= INT_MAX /\
  GenerateRandomDataset counting_generator (fun _ => 0%nat) 2 2 [2]
    empty_table = Ok counting_table /\
  0 <= 1 < 2 /\
  num_discrete_choices counting_table 1
  = Ok (RandInt_range counting_generator (Z.to_nat 1)) /\
  get_discrete_choice_index counting_table 1
  = Ok (RandInt counting_generator (Z.to_nat 1)
          (RandInt_range counting_generator (Z.to_nat 1))).
Proof.
  split; [lia |]. split; [lia |]. split; [vm_compute; reflexivity |].
  split; [by vm_compute |]. split; [vm_compute; reflexivity |].
  split; [lia |].
  apply (GenerateRandomDataset_decisions counting_generator (fun _ => 0%nat)
           2 2 [2] empty_table counting_table 1).
  - lia.
  - lia.
  - vm_compute. reflexivity.
  - by vm_compute.
  - vm_compute. reflexivity.
  - lia.
Defined.

Lemma drawn_counts_nonnegative (gen : Generator) (st : DCMTable) (n : nat) :
  draws_in_range gen n = true ->
  counts st = drawn_counts gen n ->
  counts_nonnegative st = true.
Proof.
  intros Hdraws Hcounts. unfold counts_nonnegative. rewrite Hcounts.
  apply forallb_forall. intros c Hc. apply list_elem_of_In in Hc.
  pose proof (drawn_counts_positive gen n Hdraws) as Hone.
  rewrite Forall_forall in Hone. apply Z.leb_le.
  specialize (Hone c Hc). lia.
Qed.

(** X16. In the table of a completed [GenerateRandomDataset] the attribute
    vector of alternative [alt] of person [p] is the vector of the draws
    made for the position that the numbers of discrete choices of the
    people before [p] add up to, plus [alt]. *)
Theorem GenerateRandomDataset_attributes (gen : Generator)
    (rand : nat -> nat) (n a : Z) (dims : list Z) (this st : DCMTable)
    (p alt : Z) :
  0 < n -> 0 <= a ->
  draws_in_range gen (Z.to_nat n) = true ->
  sum_int (drawn_counts gen (Z.to_nat n)) <= INT_MAX ->
  GenerateRandomDataset gen rand n a dims this = Ok st ->
  0 <= p < n ->
  0 <= alt < RandInt_range gen (Z.to_nat p) ->
  get_attribute_vector st p alt
  = Ok (Random gen
          (Z.to_nat
             (sum_int (take (Z.to_nat p) (drawn_counts gen (Z.to_nat n)))
              + alt))
        <$> seq 0 (Z.to_nat a)).
Proof.
  intros Hn Ha Hdraws Hmax H Hp Halt.
  destruct (GenerateRandomDataset_Ok _ _ _ _ _ _ _ Hn Ha Hdraws Hmax H)
    as (HInit & Hpeople & Hall & Hcounts).
  pose proof (drawn_counts_nonnegative _ _ _ Hdraws Hcounts) as Hnonneg.
  destruct (Hall (Z.to_nat p) ltac:(lia)) as [Hc _].
  destruct (Init_block_row _ _ _ _ _ _ _ (Z.to_nat p) alt HInit Hnonneg)
    as (Hc0 & Hlt & row & Hrow & Hget).
  { unfold drawn_decisions. rewrite length_fmap, length_seq. lia. }
  { unfold count_at. by rewrite Hc. }
  rewrite Z2Nat.id in Hget by lia. rewrite Hget. f_equal.
  rewrite Hcounts in Hrow, Hlt, Hc0.
  unfold drawn_attributes in Hrow.
  rewrite list_lookup_fmap, lookup_seq_lt in Hrow.
  - simpl in Hrow. by injection Hrow as <-.
  - unfold n_entries, drawn_attributes in Hlt.
    rewrite length_fmap, length_seq in Hlt. lia.
Qed.

(** [GenerateRandomDataset_attributes] on the third alternative of
    person 1 of two. *)
Lemma GenerateRandomDataset_attributes_witness :
  0 < 2 /\ 0 <= 2 /\
  draws_in_range counting_generator (Z.to_nat 2) = true /\
  sum_int (drawn_counts counting_generator (Z.to_nat 2)) <= INT_MAX /\
  GenerateRandomDataset counting_generator (fun _ => 0%nat) 2 2 [2]
    empty_table = Ok counting_table /\
  0 <= 1 < 2 /\
  0 <= 2 < RandInt_range counting_generator (Z.to_nat 1) /\
  get_attribute_vector counting_table 1 2
  = Ok (Random counting_generator
          (Z.to_nat
             (sum_int (take (Z.to_nat 1)
                         (drawn_counts counting_generator (Z.to_nat 2)))
              + 2))
        <$> seq 0 (Z.to_nat 2)).
Proof.
  split; [lia |]. split; [lia |]. split; [vm_compute; reflexivity |].
  split; [by vm_compute |]. split; [vm_compute; reflexivity |].
  split; [lia |]. split; [by vm_compute |].
  apply (GenerateRandomDataset_attributes counting_generator
           (fun _ => 0%nat) 2 2 [2] empty_table counting_table 1 2).
  - lia.
  - lia.
  - vm_compute. reflexivity.
  - by vm_compute.
  - vm_compute. reflexivity.
  - lia.
  - by vm_compute.
Defined.

(** X17. On the table of a completed [GenerateRandomDataset] that was
    asked for at least one person and a number of attributes that is not
    negative, and in which every decision drawn was an index below the
    number of discrete choices drawn for the person (these numbers adding
    up to an [int]), [choice_probability] is defined for every person and
    every [beta] with as many components as attributes were requested; in
    exact arithmetic and with a positive [exp] it lies in (0, 1]. *)
Theorem GenerateRandomDataset_choice_probability (exp : Q -> Q)
    (gen : Generator) (rand : nat -> nat) (n a : Z) (dims : list Z)
    (this st : DCMTable) (p : Z) (beta : vec) :
  0 < n -> 0 <= a ->
  draws_in_range gen (Z.to_nat n) = true ->
  sum_int (drawn_counts gen (Z.to_nat n)) <= INT_MAX ->
  GenerateRandomDataset gen rand n a dims this = Ok st ->
  (forall u, (0 < exp u)%Q) ->
  length beta = Z.to_nat a ->
  0 <= p < n ->
  exists x, choice_probability exp st p beta = Ok x /\
            (0 < x)%Q /\ (x <= 1)%Q.
Proof.
  intros Hn Ha Hdraws Hmax H Hexp Hbeta Hp.
  destruct (GenerateRandomDataset_Ok _ _ _ _ _ _ _ Hn Ha Hdraws Hmax H)
    as (HInit & Hpeople & Hall & Hcounts).
  apply (Init_choice_probability exp _ _ _ _ _ _ _ p beta HInit);
    [| | done | lia].
  - unfold decisions_in_range. apply forallb_forall. intros [q point] Hin.
    apply list_elem_of_In, list_elem_of_lookup in Hin as [i Hi].
    rewrite list_lookup_imap in Hi. unfold drawn_decisions in Hi.
    rewrite list_lookup_fmap in Hi.
    destruct (decide (i < Z.to_nat n)%nat) as [Hlt | Hge].
    2: { by rewrite lookup_seq_ge in Hi by lia. }
    rewrite lookup_seq_lt in Hi by done. simpl in Hi.
    injection Hi as <- <-. unfold decision_in_range. simpl.
    destruct (Hall i Hlt) as [-> _].
    pose proof (draws_in_range_lookup gen _ i Hdraws Hlt) as Hr.
    apply andb_true_iff. rewrite !Qle_bool_iff. unfold Qle. simpl. lia.
  - apply Init_Ok in HInit as (_ & _ & _ & _ & Hst).
    unfold attributes_match. rewrite (indexed_attributes _ _ _ _ Hst).
    apply forallb_forall. intros point Hin.
    apply list_elem_of_In in Hin. unfold drawn_attributes in Hin.
    apply list_elem_of_fmap in Hin as (j & -> & _).
    rewrite length_fmap, length_seq, Hbeta. apply Nat.eqb_refl.
Qed.

(** [GenerateRandomDataset_choice_probability] on person 1 of two. *)
Lemma GenerateRandomDataset_choice_probability_witness :
  0 < 2 /\ 0 <= 2 /\
  draws_in_range counting_generator (Z.to_nat 2) = true /\
  sum_int (drawn_counts counting_generator (Z.to_nat 2)) <= INT_MAX /\
  GenerateRandomDataset counting_generator (fun _ => 0%nat) 2 2 [2]
    empty_table = Ok counting_table /\
  (forall u, (0 < exp2 u)%Q) /\
  length [1; 0]%Q = Z.to_nat 2 /\
  0 <= 1 < 2 /\
  exists x, choice_probability exp2 counting_table 1 [1; 0]%Q = Ok x /\
            (0 < x)%Q /\ (x <= 1)%Q.
Proof.
  split; [lia |]. split; [lia |]. split; [vm_compute; reflexivity |].
  split; [by vm_compute |]. split; [vm_compute; reflexivity |].
  split; [apply exp2_pos |]. split; [reflexivity |]. split; [lia |].
  apply (GenerateRandomDataset_choice_probability exp2 counting_generator
           (fun _ => 0%nat) 2 2 [2] empty_table counting_table 1 [1; 0]%Q).
  - lia.
  - lia.
  - vm_compute. reflexivity.
  - by vm_compute.
  - vm_compute. reflexivity.
  - apply exp2_pos.
  - reflexivity.
  - lia.
Defined.

(** ** The order of the people *)

(** X18. After a successful [Init] no person is at two positions of the
    shuffled order. *)
Theorem Init_shuffled_no_repetition (rand : nat -> nat) (attr : Table)
    (dims : list Z) (dec alts : Table) (this st : DCMTable) (i j p : Z) :
  Init rand attr dims dec alts this = Ok st ->
  shuffled_indices_for_person st i = Ok p ->
  shuffled_indices_for_person st j = Ok p ->
  i = j.
Proof.
  intros H Hi Hj. apply Init_Ok in H as (_ & _ & _ & _ & Hst).
  pose proof (indexed_shuffled _ _ _ _ Hst) as Hperm.
  assert (NoDup (shuffled_indices_for_person_ st)) as Hnodup.
  { rewrite Hperm. apply NoDup_fmap; [apply _ | apply NoDup_seq]. }
  unfold shuffled_indices_for_person in Hi, Hj.
  apply at_Ok in Hi as [Hi0 Hi]. apply at_Ok in Hj as [Hj0 Hj].
  pose proof (NoDup_lookup _ _ _ _ Hnodup Hi Hj). lia.
Qed.

(** [Init_shuffled_no_repetition] on the scenario, where person 1 is at
    position 0 only. *)
Lemma Init_shuffled_no_repetition_witness :
  scenario (fun _ => 0%nat) = Ok scenario_table /\
  shuffled_indices_for_person scenario_table 0 = Ok 1 /\
  0 = 0.
Proof.
  split; [vm_compute; reflexivity |]. split; [vm_compute; reflexivity |].
  apply (Init_shuffled_no_repetition (fun _ => 0%nat) scenario_attributes [2]
           scenario_decisions scenario_alternatives empty_table scenario_table
           0 0 1).
  - vm_compute. reflexivity.
  - vm_compute. reflexivity.
  - vm_compute. reflexivity.
Defined.

(** * The choice probabilities as a distribution *)

(** The class on binary64 numbers agrees with the class on exact rationals
    on the scenario, whose numbers are small integers. *)
Example Binary64_scenario :
  Binary64.Init (fun _ => 0%nat) Binary64.scenario_attributes [2]
    Binary64.scenario_decisions Binary64.scenario_alternatives
    Binary64.empty_table = Ok Binary64.scenario_table /\
  Binary64.get_attribute_vector Binary64.scenario_table 1 2
  = Ok [2; 0]%float /\
  Binary64.get_discrete_choice_index Binary64.scenario_table 1 = Ok 2.
Proof.
  split; [vm_compute; reflexivity |].
  split; vm_compute; reflexivity.
Qed.



